(** * Call-sheet extractor: document routing and post-extraction normalisation

    A shallow embedding of the TypeScript sources of the backend
    (services/document and services/normalization) together with the
    properties the specification states about them.

    JavaScript strings are sequences of UTF-16 code units; they are modelled
    as lists of [N].  Nullable strings ([string | null]) are [option str]. *)

From Stdlib Require Import NArith ZArith QArith Bool Ascii String.
From Stdlib Require Import DecimalString Lia Arith PeanoNat.
From Stdlib Require Import List.
Import ListNotations.

(** [length] is the length of a list throughout. *)
Abbreviation length := Datatypes.length.

Set Implicit Arguments.
Local Close Scope Q_scope.
Local Open Scope nat_scope.
Local Open Scope list_scope.
Local Open Scope bool_scope.

(* ================================================================== *)
(** ** JavaScript strings *)
(* ================================================================== *)

Module Js.

Abbreviation str := (list N).

(** An ASCII literal of the source. *)
Definition lit (s : string) : str :=
  map N_of_ascii (list_ascii_of_string s).
Arguments lit s%_string.

Fixpoint eqb (a b : str) : bool :=
  match a, b with
  | [], [] => true
  | x :: a', y :: b' => N.eqb x y && eqb a' b'
  | _, _ => false
  end.

Definition opt_eqb (a b : option str) : bool :=
  match a, b with
  | None, None => true
  | Some x, Some y => eqb x y
  | _, _ => false
  end.

(** [\d] *)
Definition isDigit (c : N) : bool := (N.leb 48 c) && (N.leb c 57).

(** Line terminators: LF, CR, LS, PS (what [.] does not match). *)
Definition isLineTerminator (c : N) : bool :=
  N.eqb c 10 || N.eqb c 13 || N.eqb c 8232 || N.eqb c 8233.

(** [\s], also the set [String.prototype.trim] removes: WhiteSpace and
    LineTerminator of ECMAScript. *)
Definition isWhiteSpace (c : N) : bool :=
  (N.leb 9 c && N.leb c 13) || N.eqb c 32 || N.eqb c 160 || N.eqb c 5760
  || (N.leb 8192 c && N.leb c 8202) || N.eqb c 8232 || N.eqb c 8233
  || N.eqb c 8239 || N.eqb c 8287 || N.eqb c 12288 || N.eqb c 65279.

(** [[a-zA-Z]] *)
Definition isAsciiLetter (c : N) : bool :=
  (N.leb 65 c && N.leb c 90) || (N.leb 97 c && N.leb c 122).

(** Case mapping.  The tables are those of Unicode for the code units below
    U+0100 (Basic Latin and Latin-1 Supplement), including the three
    upper-case mappings that leave that range or change the length:
    U+00DF to "SS", U+00B5 to U+039C and U+00FF to U+0178.  Code units from
    U+0100 on are left as they are; the general statements below that depend
    on case mapping are made for ASCII strings. *)
Definition lower_unit (c : N) : N :=
  if (N.leb 65 c && N.leb c 90) then (c + 32)%N
  else if (N.leb 192 c && N.leb c 222 && negb (N.eqb c 215)) then (c + 32)%N
  else c.

Definition upper_unit (c : N) : list N :=
  if (N.leb 97 c && N.leb c 122) then [(c - 32)%N]
  else if N.eqb c 223 then [83%N; 83%N]
  else if N.eqb c 181 then [924%N]
  else if N.eqb c 255 then [376%N]
  else if (N.leb 224 c && N.leb c 254 && negb (N.eqb c 247)) then [(c - 32)%N]
  else [c].

Definition toLowerCase (s : str) : str := map lower_unit s.
Definition toUpperCase (s : str) : str := flat_map upper_unit s.

(** JavaScript truthiness of a nullable string: [null] and [""] are falsy. *)
Definition truthy (v : option str) : bool :=
  match v with
  | Some (_ :: _) => true
  | _ => false
  end.

(** [a || b] on nullable strings. *)
Definition orElse (a b : option str) : option str :=
  if truthy a then a else b.

Fixpoint trimStart (s : str) : str :=
  match s with
  | [] => []
  | c :: r => if isWhiteSpace c then trimStart r else s
  end.

Definition trimEnd (s : str) : str := rev (trimStart (rev s)).

Definition trim (s : str) : str := trimEnd (trimStart s).

(** [s.replace(/\s+/g, " ")]: every maximal run of white space becomes one
    space.  [inRun] tells that the previous unit was white space. *)
Fixpoint collapseFrom (inRun : bool) (s : str) : str :=
  match s with
  | [] => []
  | c :: r =>
      if isWhiteSpace c
      then (if inRun then collapseFrom true r else 32%N :: collapseFrom true r)
      else c :: collapseFrom false r
  end.

Definition collapseSpaces (s : str) : str := collapseFrom false s.

(** [s.split(sep)] for a separator of one unit. *)
Fixpoint split (sep : N) (s : str) : list str :=
  match s with
  | [] => [[]]
  | c :: r =>
      if N.eqb c sep then [] :: split sep r
      else match split sep r with
           | w :: ws => (c :: w) :: ws
           | [] => [[c]]
           end
  end.

(** [parts.join(sep)] *)
Fixpoint join (sep : str) (parts : list str) : str :=
  match parts with
  | [] => []
  | [w] => w
  | w :: rest => w ++ sep ++ join sep rest
  end.

Fixpoint startsWith (s p : str) : bool :=
  match p, s with
  | [], _ => true
  | x :: p', y :: s' => N.eqb x y && startsWith s' p'
  | _ :: _, [] => false
  end.

Definition endsWith (s p : str) : bool := startsWith (rev s) (rev p).

(** [s.includes(p)] *)
Fixpoint includes (s p : str) : bool :=
  startsWith s p ||
  match s with
  | [] => false
  | _ :: s' => includes s' p
  end.

(** [s.substring(a, b)] for [a <= b], and [s.substring(a)]. *)
Definition substring (a b : nat) (s : str) : str := firstn (b - a) (skipn a s).
Definition substringFrom (a : nat) (s : str) : str := skipn a s.

(** [s.charAt(0)] and [s.slice(1)]. *)
Definition charAt0 (s : str) : str := firstn 1 s.
Definition slice1 (s : str) : str := skipn 1 s.

Definition all_ascii (s : str) : Prop := Forall (fun c => (c < 128)%N) s.

End Js.

(* ================================================================== *)
(** ** normalizers/phone.normalizer.ts *)
(* ================================================================== *)

Module PhoneNormalizer.
Import Js.

(** Format a 10-digit US phone number. *)
Definition formatUS (digits : str) : str :=
  let areaCode := substring 0 3 digits in
  let exchange := substring 3 6 digits in
  let subscriber := substring 6 10 digits in
  lit "(" ++ areaCode ++ lit ") " ++ exchange ++ lit "-" ++ subscriber.

(** The constructor's [defaultCountryCode] is stored and never read. *)
Definition normalize (phone : option str) : option str :=
  match phone with
  | None => None
  | Some [] => None
  | Some phone =>
      (* Remove all non-digit characters except + *)
      let digits := filter (fun c => isDigit c || N.eqb c 43) phone in
      let hasPlus := startsWith digits (lit "+") in
      let digits := filter isDigit digits in
      if length digits =? 0 then None
      else if length digits =? 10 then Some (formatUS digits)
      else if (length digits =? 11) && startsWith digits (lit "1")
      then Some (formatUS (substringFrom 1 digits))
      else if 11 <? length digits then Some (lit "+" ++ digits)
      else if length digits =? 7
      then Some (substring 0 3 digits ++ lit "-" ++ substringFrom 3 digits)
      else Some digits
  end.

Definition isValid (phone : option str) : bool :=
  match phone with
  | None => false
  | Some [] => false
  | Some phone =>
      let digits := filter isDigit phone in
      (7 <=? length digits) && (length digits <=? 15)
  end.

End PhoneNormalizer.

(* ================================================================== *)
(** ** normalizers/name.normalizer.ts *)
(* ================================================================== *)

Module NameNormalizer.
Import Js.

(** Words that should remain lowercase (unless at start). *)
Definition lowercaseWords : list str :=
  [lit "de"; lit "del"; lit "della"; lit "di"; lit "da"; lit "van";
   lit "von"; lit "der"; lit "den"; lit "la"; lit "le"; lit "du"].

(** Prefixes that need special handling. *)
Definition specialPrefixes : list str := [lit "mc"; lit "mac"; lit "o'"].

(** Capitalize first letter, lowercase rest. *)
Definition capitalize (word : str) : str :=
  match word with
  | [] => word
  | _ => toUpperCase (charAt0 word) ++ toLowerCase (slice1 word)
  end.

(** The loop over [specialPrefixes]: the first prefix the lowered word
    starts with, and is longer than, decides the result. *)
Fixpoint applyPrefixes (prefixes : list str) (word lowerWord : str)
  : option str :=
  match prefixes with
  | [] => None
  | prefix :: more =>
      if startsWith lowerWord prefix && (length prefix <? length lowerWord)
      then
        let rest := substringFrom (length prefix) word in
        if eqb prefix (lit "o'")
        then Some (lit "O'" ++ capitalize rest)
        else Some (capitalize prefix ++ capitalize rest)
      else applyPrefixes more word lowerWord
  end.

(** The callback of [words.map((word, index) => ...)]. *)
Definition normalizeWord (index : nat) (word : str) : str :=
  match word with
  | [] => word
  | _ =>
      let lowerWord := toLowerCase word in
      match applyPrefixes specialPrefixes word lowerWord with
      | Some r => r
      | None =>
          if (0 <? index) && existsb (eqb lowerWord) lowercaseWords
          then lowerWord
          else if includes word (lit "-")
          then join (lit "-") (map capitalize (split 45 word))
          else capitalize word
      end
  end.

Fixpoint mapIndexFrom (i : nat) (f : nat -> str -> str) (l : list str)
  : list str :=
  match l with
  | [] => []
  | w :: r => f i w :: mapIndexFrom (S i) f r
  end.

Definition normalize (name : option str) : option str :=
  match name with
  | None => None
  | Some [] => None
  | Some name =>
      let normalized := collapseSpaces (trim name) in
      if length normalized =? 0 then None
      else
        let words := split 32 normalized in
        let normalizedWords := mapIndexFrom 0 normalizeWord words in
        Some (join (lit " ") normalizedWords)
  end.

Definition isValid (name : option str) : bool :=
  match name with
  | None => false
  | Some [] => false
  | Some name =>
      let trimmed := trim name in
      (2 <=? length trimmed) && existsb isAsciiLetter trimmed
  end.

End NameNormalizer.

(* ================================================================== *)
(** ** normalizers/role.normalizer.ts *)
(* ================================================================== *)

Module RoleNormalizer.
Import Js.

(** Role standardization mappings, in the order of the object literal
    (the order [Object.entries] walks them in). *)
Definition ROLE_MAPPINGS : list (str * str) :=
  [ (lit "dp", lit "Director of Photography");
    (lit "dop", lit "Director of Photography");
    (lit "1st ac", lit "1st Assistant Camera");
    (lit "2nd ac", lit "2nd Assistant Camera");
    (lit "a/c", lit "Assistant Camera");
    (lit "ac", lit "Assistant Camera");
    (lit "cam op", lit "Camera Operator");
    (lit "steadicam", lit "Steadicam Operator");
    (lit "digi tech", lit "Digital Technician");
    (lit "dit", lit "Digital Imaging Technician");
    (lit "gaffer", lit "Gaffer");
    (lit "key grip", lit "Key Grip");
    (lit "best boy", lit "Best Boy");
    (lit "best boy electric", lit "Best Boy Electric");
    (lit "best boy grip", lit "Best Boy Grip");
    (lit "grip", lit "Grip");
    (lit "electric", lit "Electric");
    (lit "ad", lit "Assistant Director");
    (lit "1st ad", lit "1st Assistant Director");
    (lit "2nd ad", lit "2nd Assistant Director");
    (lit "pa", lit "Production Assistant");
    (lit "pm", lit "Production Manager");
    (lit "upm", lit "Unit Production Manager");
    (lit "lm", lit "Location Manager");
    (lit "loc manager", lit "Location Manager");
    (lit "prod designer", lit "Production Designer");
    (lit "art director", lit "Art Director");
    (lit "set dresser", lit "Set Dresser");
    (lit "prop master", lit "Property Master");
    (lit "prop stylist", lit "Prop Stylist");
    (lit "props", lit "Props");
    (lit "prop asst", lit "Prop Assistant");
    (lit "hmu", lit "Hair & Makeup");
    (lit "hmua", lit "Hair & Makeup Artist");
    (lit "mua", lit "Makeup Artist");
    (lit "hair/makeup", lit "Hair & Makeup");
    (lit "groomer", lit "Groomer");
    (lit "wardrobe", lit "Wardrobe Stylist");
    (lit "wardrobe asst", lit "Wardrobe Assistant");
    (lit "stylist", lit "Stylist");
    (lit "sound", lit "Sound Mixer");
    (lit "audio", lit "Audio");
    (lit "boom op", lit "Boom Operator");
    (lit "sound mixer", lit "Sound Mixer");
    (lit "photo", lit "Photographer");
    (lit "photographer", lit "Photographer");
    (lit "photo asst", lit "Photo Assistant");
    (lit "photo assistant", lit "Photo Assistant");
    (lit "digital tech", lit "Digital Technician");
    (lit "bts", lit "Behind The Scenes");
    (lit "craft services", lit "Craft Services");
    (lit "crafty", lit "Craft Services");
    (lit "medic", lit "Set Medic");
    (lit "covid officer", lit "COVID Compliance Officer") ].

(** Department inference from role keywords. *)
Definition DEPARTMENT_KEYWORDS : list (str * list str) :=
  [ (lit "Camera",
      [lit "camera"; lit "dp"; lit "dop"; lit "ac"; lit "steadicam";
       lit "dit"; lit "digi"; lit "photo"; lit "photographer"]);
    (lit "Grip & Electric",
      [lit "grip"; lit "gaffer"; lit "electric"; lit "best boy";
       lit "lighting"]);
    (lit "Production",
      [lit "producer"; lit "production"; lit "ad";
       lit "assistant director"; lit "coordinator"; lit "pm"; lit "upm"]);
    (lit "Art",
      [lit "art"; lit "prop"; lit "set"; lit "scenic"; lit "designer";
       lit "decorator"]);
    (lit "Hair & Makeup",
      [lit "hair"; lit "makeup"; lit "hmu"; lit "mua"; lit "groomer";
       lit "beauty"]);
    (lit "Wardrobe", [lit "wardrobe"; lit "costume"; lit "stylist"]);
    (lit "Sound", [lit "sound"; lit "audio"; lit "boom"; lit "mixer"]);
    (lit "Locations", [lit "location"; lit "loc manager"]);
    (lit "Transport", [lit "driver"; lit "transport"; lit "picture car"]);
    (lit "Talent",
      [lit "talent"; lit "actor"; lit "actress"; lit "model"; lit "cast"]);
    (lit "Creative", [lit "director"; lit "creative"; lit "writer"]);
    (lit "Video", [lit "video"; lit "editor"; lit "post"]) ].

(** What [ROLE_MAPPINGS[key]] evaluates to.  [ROLE_MAPPINGS] is an object
    literal, so besides its own keys the lookup answers for the members it
    inherits from [Object.prototype]; the ones spelled in lower case are
    [constructor] and [__proto__], and their values are objects, not
    strings. *)
Inductive Property : Type :=
  | Own (full : str)
  | Inherited
  | Undefined.

Fixpoint ownProperty (table : list (str * str)) (key : str) : option str :=
  match table with
  | [] => None
  | (k, v) :: more => if eqb k key then Some v else ownProperty more key
  end.

Definition inheritedKeys : list str := [lit "constructor"; lit "__proto__"].

Definition getProperty (key : str) : Property :=
  match ownProperty ROLE_MAPPINGS key with
  | Some full => Own full
  | None => if existsb (eqb key) inheritedKeys then Inherited else Undefined
  end.

(** The value [normalizeRole] returns: [null], a string, or (through an
    inherited member) an object that is not a string. *)
Inductive RoleValue : Type :=
  | RNull
  | RString (s : str)
  | RObject.

(** Convert string to Title Case. *)
Definition toTitleCase (s : str) : str :=
  join (lit " ")
    (map (fun word => toUpperCase (charAt0 word) ++ toLowerCase (slice1 word))
         (split 32 s)).

(** The loop [for (const [abbrev, full] of Object.entries(ROLE_MAPPINGS))]. *)
Fixpoint partialMatch (entries : list (str * str)) (lowerRole : str)
  : option str :=
  match entries with
  | [] => None
  | (abbrev, full) :: more =>
      if eqb lowerRole abbrev || includes lowerRole abbrev then Some full
      else partialMatch more lowerRole
  end.

Definition normalizeRole (role : option str) : RoleValue :=
  match role with
  | None => RNull
  | Some [] => RNull
  | Some role =>
      let trimmed := trim role in
      match trimmed with
      | [] => RNull
      | _ =>
          let lowerRole := toLowerCase trimmed in
          match getProperty lowerRole with
          | Own full => RString full
          | Inherited => RObject
          | Undefined =>
              match partialMatch ROLE_MAPPINGS lowerRole with
              | Some full => RString full
              | None => RString (toTitleCase trimmed)
              end
          end
      end
  end.

Fixpoint firstKeyword (keywords : list str) (lowerRole : str) : bool :=
  match keywords with
  | [] => false
  | keyword :: more => includes lowerRole keyword || firstKeyword more lowerRole
  end.

Fixpoint scanDepartments (table : list (str * list str)) (lowerRole : str)
  : option str :=
  match table with
  | [] => None
  | (department, keywords) :: more =>
      if firstKeyword keywords lowerRole then Some department
      else scanDepartments more lowerRole
  end.

(** Infer department from role if not provided. *)
Definition inferDepartment (role existingDepartment : option str)
  : option str :=
  if truthy existingDepartment
     && truthy (option_map trim existingDepartment)
  then existingDepartment
  else
    match role with
    | None => None
    | Some [] => None
    | Some role => scanDepartments DEPARTMENT_KEYWORDS (toLowerCase role)
    end.

End RoleNormalizer.

(* ================================================================== *)
(** ** The extraction data model (services/ai/validator.ts) *)
(* ================================================================== *)

Module Types.
Import Js.

Record ProductionInfo : Type := {
  title : option str;
  production_company : option str;
  shoot_date : option str
}.

(** [confidence] is optional at run time: the records [mergeContacts] builds
    do not carry it. *)
Record Contact : Type := {
  name : str;
  role : option str;
  department : option str;
  phone : option str;
  email : option str;
  notes : option str;
  confidence : option Q
}.

Record EmergencyContact : Type := {
  ec_type : str;
  ec_name : option str;
  ec_phone : option str
}.

Record Location : Type := {
  loc_name : option str;
  loc_address : option str;
  loc_phone : option str
}.

Record ExtractionResult : Type := {
  production_info : ProductionInfo;
  contacts : list Contact;
  emergency_contacts : list EmergencyContact;
  locations : list Location
}.

Inductive Severity : Type := warning | error.

(** [ValidationIssues] of validator.ts. *)
Record ValidationIssue : Type := {
  v_field : str;
  v_message : str;
  v_severity : Severity
}.

(** Check for critical missing data. *)
Definition validateExtraction (data : ExtractionResult)
  : list ValidationIssue :=
  let issues := [] in
  let issues :=
    if length (contacts data) =? 0
    then issues ++
         [ {| v_field := lit "contacts";
              v_message :=
                lit "No contacts were extracted. This might be a parsing error.";
              v_severity := warning |} ]
    else issues in
  issues.

End Types.

(* ================================================================== *)
(** ** normalizers/deduplicator.ts *)
(* ================================================================== *)

Module Deduplicator.
Import Js Types.

(** [Map<string, Contact>]: entries in insertion order. *)
Definition ContactMap := list (str * Contact).

Fixpoint mapGet (m : ContactMap) (key : str) : option Contact :=
  match m with
  | [] => None
  | (k, v) :: more => if eqb k key then Some v else mapGet more key
  end.

(** [Map.prototype.set]: an existing key keeps its place, a new key goes
    last. *)
Fixpoint mapSet (m : ContactMap) (key : str) (value : Contact) : ContactMap :=
  match m with
  | [] => [(key, value)]
  | (k, v) :: more =>
      if eqb k key then (k, value) :: more
      else (k, v) :: mapSet more key value
  end.

Definition mapValues (m : ContactMap) : list Contact := map snd m.

(** Uses normalized name + phone or email for matching. *)
Definition generateKey (contact : Contact) : str :=
  let normalizedName := collapseSpaces (trim (toLowerCase (name contact))) in
  let normalizedPhone :=
    match phone contact with
    | Some p => filter isDigit p
    | None => []
    end in
  let normalizedEmail :=
    match email contact with
    | Some e => trim (toLowerCase e)
    | None => []
    end in
  if 7 <=? length normalizedPhone
  then normalizedName ++ lit "|" ++ normalizedPhone
  else
    match normalizedEmail with
    | _ :: _ => normalizedName ++ lit "|" ++ normalizedEmail
    | [] => normalizedName
    end.

(** Merge notes fields. *)
Definition mergeNotes (existing newNotes : option str) : option str :=
  if negb (truthy existing) && negb (truthy newNotes) then None
  else if negb (truthy existing) then newNotes
  else if negb (truthy newNotes) then existing
  else if opt_eqb existing newNotes then existing
  else
    match existing, newNotes with
    | Some e, Some n => Some (e ++ lit "; " ++ n)
    | _, _ => existing
    end.

(** Merge two contacts, keeping the most complete information. *)
Definition mergeContacts (existing newContact : Contact) : Contact :=
  {| name := match name existing with
             | _ :: _ => name existing
             | [] => name newContact
             end;
     role := orElse (role existing) (role newContact);
     department := orElse (department existing) (department newContact);
     phone := orElse (phone existing) (phone newContact);
     email := orElse (email existing) (email newContact);
     notes := mergeNotes (notes existing) (notes newContact);
     confidence := None |}.

Record Result : Type := {
  contacts : list Contact;
  removedCount : nat
}.

(** One round of [for (const contact of contacts)]. *)
Definition step (st : ContactMap * nat) (contact : Contact)
  : ContactMap * nat :=
  let (mergedMap, removedCount) := st in
  let key := generateKey contact in
  match mapGet mergedMap key with
  | Some existing =>
      (mapSet mergedMap key (mergeContacts existing contact), S removedCount)
  | None =>
      (* the spread copy [{ ...contact }] is the same record *)
      (mapSet mergedMap key contact, removedCount)
  end.

Definition deduplicate (contacts : list Contact) : Result :=
  match contacts with
  | [] => {| contacts := []; removedCount := 0 |}
  | _ =>
      let (mergedMap, removedCount) := fold_left step contacts ([], 0) in
      {| contacts := mapValues mergedMap; removedCount := removedCount |}
  end.

End Deduplicator.

(* ================================================================== *)
(** ** services/normalization: types.ts and the service *)
(* ================================================================== *)

Module NormalizationService.
Import Js Types.

Record NormalizationConfig : Type := {
  normalizePhones : bool;
  normalizeNames : bool;
  normalizeRoles : bool;
  inferDepartments : bool;
  deduplicate : bool;
  defaultCountryCode : str
}.

Definition DEFAULT_CONFIG : NormalizationConfig :=
  {| normalizePhones := true;
     normalizeNames := true;
     normalizeRoles := true;
     inferDepartments := true;
     deduplicate := true;
     defaultCountryCode := lit "1" |}.

Record NormalizationStats : Type := {
  phonesNormalized : nat;
  namesNormalized : nat;
  rolesNormalized : nat;
  departmentsInferred : nat;
  duplicatesRemoved : nat;
  totalContacts : nat
}.

Record NormalizationIssue : Type := {
  type : Severity;
  field : str;
  contactName : option str;
  message : str
}.

Record NormalizationResult : Type := {
  data : ExtractionResult;
  stats : NormalizationStats;
  issues : list NormalizationIssue
}.

(** How a call of [normalize] ends.  [RoleEscapes]: [normalizeRole] handed
    back an inherited member of [Object.prototype] and the callback stored it
    in [contact.role]; from there the run raises a [TypeError] in
    [inferDepartment] or, when a department is present or inference is off,
    returns a record whose role is not a string.  Either way there is no
    result of the data model. *)
Inductive Outcome (A : Type) : Type :=
  | Returns (a : A)
  | RoleEscapes.
Arguments RoleEscapes {A}.

(** Basic email validation: [/^[^\s@]+@[^\s@]+\.[^\s@]+$/].  The text splits
    at its only [@]; both sides are free of white space, the left one is not
    empty, and the right one has a dot that is neither its first nor its
    last unit. *)
Definition plainUnit (c : N) : bool := negb (isWhiteSpace c) && negb (N.eqb c 64).

Definition isValidEmail (email : str) : bool :=
  match split 64 email with
  | [local; domain] =>
      match local, domain with
      | _ :: _, _ :: rest =>
          forallb plainUnit local && forallb plainUnit domain
          && existsb (N.eqb 46) (removelast rest)
      | _, _ => false
      end
  | _ => false
  end.

(** The mutable state the callback of [result.contacts.map] closes over. *)
Record Run : Type := {
  run_stats : NormalizationStats;
  run_issues : list NormalizationIssue
}.

Definition withName (c : Contact) (v : str) : Contact :=
  {| name := v; role := role c; department := department c;
     phone := phone c; email := email c; notes := notes c;
     confidence := confidence c |}.

Definition withPhone (c : Contact) (v : option str) : Contact :=
  {| name := name c; role := role c; department := department c;
     phone := v; email := email c; notes := notes c;
     confidence := confidence c |}.

Definition withRole (c : Contact) (v : option str) : Contact :=
  {| name := name c; role := v; department := department c;
     phone := phone c; email := email c; notes := notes c;
     confidence := confidence c |}.

Definition withDepartment (c : Contact) (v : option str) : Contact :=
  {| name := name c; role := role c; department := v;
     phone := phone c; email := email c; notes := notes c;
     confidence := confidence c |}.

Definition withEmail (c : Contact) (v : option str) : Contact :=
  {| name := name c; role := role c; department := department c;
     phone := phone c; email := v; notes := notes c;
     confidence := confidence c |}.

Definition countPhone (s : NormalizationStats) : NormalizationStats :=
  {| phonesNormalized := S (phonesNormalized s);
     namesNormalized := namesNormalized s;
     rolesNormalized := rolesNormalized s;
     departmentsInferred := departmentsInferred s;
     duplicatesRemoved := duplicatesRemoved s;
     totalContacts := totalContacts s |}.

Definition countName (s : NormalizationStats) : NormalizationStats :=
  {| phonesNormalized := phonesNormalized s;
     namesNormalized := S (namesNormalized s);
     rolesNormalized := rolesNormalized s;
     departmentsInferred := departmentsInferred s;
     duplicatesRemoved := duplicatesRemoved s;
     totalContacts := totalContacts s |}.

Definition countRole (s : NormalizationStats) : NormalizationStats :=
  {| phonesNormalized := phonesNormalized s;
     namesNormalized := namesNormalized s;
     rolesNormalized := S (rolesNormalized s);
     departmentsInferred := departmentsInferred s;
     duplicatesRemoved := duplicatesRemoved s;
     totalContacts := totalContacts s |}.

Definition countDepartment (s : NormalizationStats) : NormalizationStats :=
  {| phonesNormalized := phonesNormalized s;
     namesNormalized := namesNormalized s;
     rolesNormalized := rolesNormalized s;
     departmentsInferred := S (departmentsInferred s);
     duplicatesRemoved := duplicatesRemoved s;
     totalContacts := totalContacts s |}.

Definition setDuplicatesRemoved (s : NormalizationStats) (n : nat)
  : NormalizationStats :=
  {| phonesNormalized := phonesNormalized s;
     namesNormalized := namesNormalized s;
     rolesNormalized := rolesNormalized s;
     departmentsInferred := departmentsInferred s;
     duplicatesRemoved := n;
     totalContacts := totalContacts s |}.

Definition setTotalContacts (s : NormalizationStats) (n : nat)
  : NormalizationStats :=
  {| phonesNormalized := phonesNormalized s;
     namesNormalized := namesNormalized s;
     rolesNormalized := rolesNormalized s;
     departmentsInferred := departmentsInferred s;
     duplicatesRemoved := duplicatesRemoved s;
     totalContacts := n |}.

Definition bump (f : NormalizationStats -> NormalizationStats) (r : Run) : Run :=
  {| run_stats := f (run_stats r); run_issues := run_issues r |}.

Definition push (i : NormalizationIssue) (r : Run) : Run :=
  {| run_stats := run_stats r; run_issues := run_issues r ++ [i] |}.

Definition quote : str := [34%N].

(** Normalize name, then validate it. *)
Definition nameStep (config : NormalizationConfig) (originalName : str)
  (cr : Contact * Run) : Contact * Run :=
  let (contact, r) := cr in
  if normalizeNames config then
    let normalizedName := NameNormalizer.normalize (Some (name contact)) in
    let '(contact, r) :=
      match normalizedName with
      | Some n =>
          if truthy normalizedName && negb (eqb n (name contact))
          then (withName contact n, bump countName r)
          else (contact, r)
      | None => (contact, r)
      end in
    if negb (NameNormalizer.isValid (Some (name contact)))
    then (contact,
          push {| type := warning;
                  field := lit "name";
                  contactName := Some originalName;
                  message := lit "Invalid or incomplete name: "
                             ++ quote ++ name contact ++ quote |} r)
    else (contact, r)
  else (contact, r).

(** Normalize phone, then validate it. *)
Definition phoneStep (config : NormalizationConfig) (cr : Contact * Run)
  : Contact * Run :=
  let (contact, r) := cr in
  if normalizePhones config && truthy (phone contact) then
    let normalizedPhone := PhoneNormalizer.normalize (phone contact) in
    let '(contact, r) :=
      if negb (opt_eqb normalizedPhone (phone contact))
      then (withPhone contact normalizedPhone, bump countPhone r)
      else (contact, r) in
    if truthy (phone contact) && negb (PhoneNormalizer.isValid (phone contact))
    then (contact,
          push {| type := warning;
                  field := lit "phone";
                  contactName := Some (name contact);
                  message := lit "Invalid phone number: "
                             ++ quote
                             ++ match phone contact with
                                | Some p => p
                                | None => []
                                end
                             ++ quote |} r)
    else (contact, r)
  else (contact, r).

(** Normalize role. *)
Definition roleStep (config : NormalizationConfig) (cr : Contact * Run)
  : Outcome (Contact * Run) :=
  let (contact, r) := cr in
  if normalizeRoles config && truthy (role contact) then
    match RoleNormalizer.normalizeRole (role contact) with
    | RoleNormalizer.RNull => Returns (contact, r)
    | RoleNormalizer.RString s =>
        if truthy (Some s) && negb (opt_eqb (Some s) (role contact))
        then Returns (withRole contact (Some s), bump countRole r)
        else Returns (contact, r)
    | RoleNormalizer.RObject => RoleEscapes
    end
  else Returns (contact, r).

(** Infer department. *)
Definition departmentStep (config : NormalizationConfig) (cr : Contact * Run)
  : Contact * Run :=
  let (contact, r) := cr in
  if inferDepartments config then
    let inferredDepartment :=
      RoleNormalizer.inferDepartment (role contact) (department contact) in
    if truthy inferredDepartment && negb (truthy (department contact))
    then (withDepartment contact inferredDepartment, bump countDepartment r)
    else (contact, r)
  else (contact, r).

(** Normalize email to lowercase, then validate its format. *)
Definition emailStep (cr : Contact * Run) : Contact * Run :=
  let (contact, r) := cr in
  match email contact with
  | Some (u :: e) =>
      let lowered := trim (toLowerCase (u :: e)) in
      let contact := withEmail contact (Some lowered) in
      if negb (isValidEmail lowered)
      then (contact,
            push {| type := warning;
                    field := lit "email";
                    contactName := Some (name contact);
                    message := lit "Invalid email format: "
                               ++ quote ++ lowered ++ quote |} r)
      else (contact, r)
  | _ => (contact, r)
  end.

(** The callback of [result.contacts.map((contact) => ...)].  The final
    low-confidence branch only writes to the log. *)
Definition normalizeContact (config : NormalizationConfig)
  (contact : Contact) (r : Run) : Outcome (Contact * Run) :=
  let originalName := name contact in
  let cr := nameStep config originalName (contact, r) in
  let cr := phoneStep config cr in
  match roleStep config cr with
  | Returns cr =>
      let cr := departmentStep config cr in
      Returns (emailStep cr)
  | RoleEscapes => RoleEscapes
  end.

Fixpoint mapContacts (config : NormalizationConfig) (l : list Contact)
  (r : Run) : Outcome (list Contact * Run) :=
  match l with
  | [] => Returns ([], r)
  | contact :: more =>
      match normalizeContact config contact r with
      | Returns (contact', r') =>
          match mapContacts config more r' with
          | Returns (rest, r'') => Returns (contact' :: rest, r'')
          | RoleEscapes => RoleEscapes
          end
      | RoleEscapes => RoleEscapes
      end
  end.

Definition normalizeEmergency (config : NormalizationConfig)
  (ec : EmergencyContact) : EmergencyContact :=
  if normalizePhones config && truthy (ec_phone ec)
  then {| ec_type := ec_type ec; ec_name := ec_name ec;
          ec_phone := PhoneNormalizer.normalize (ec_phone ec) |}
  else ec.

Definition normalizeLocation (config : NormalizationConfig)
  (loc : Location) : Location :=
  if normalizePhones config && truthy (loc_phone loc)
  then {| loc_name := loc_name loc; loc_address := loc_address loc;
          loc_phone := PhoneNormalizer.normalize (loc_phone loc) |}
  else loc.

(** Normalize extraction results.  [JSON.parse(JSON.stringify(extraction))]
    yields a structurally equal copy, so the input value itself stands for
    the clone; the calls to the logger are left out. *)
Definition normalize (config : NormalizationConfig)
  (extraction : ExtractionResult) : Outcome NormalizationResult :=
  let stats :=
    {| phonesNormalized := 0; namesNormalized := 0; rolesNormalized := 0;
       departmentsInferred := 0; duplicatesRemoved := 0;
       totalContacts := length (contacts extraction) |} in
  let issues : list NormalizationIssue := [] in
  let result := extraction in
  match mapContacts config (contacts result)
          {| run_stats := stats; run_issues := issues |} with
  | RoleEscapes => RoleEscapes
  | Returns (normalized, r) =>
      let stats := run_stats r in
      let issues := run_issues r in
      (* Deduplicate contacts *)
      let '(resultContacts, stats) :=
        if deduplicate config
        then
          let deduped := Deduplicator.deduplicate normalized in
          (Deduplicator.contacts deduped,
           setDuplicatesRemoved stats (Deduplicator.removedCount deduped))
        else (normalized, stats) in
      (* Update total after deduplication *)
      let stats := setTotalContacts stats (length resultContacts) in
      Returns
        {| data :=
             {| production_info := production_info result;
                contacts := resultContacts;
                emergency_contacts :=
                  map (normalizeEmergency config) (emergency_contacts result);
                locations :=
                  map (normalizeLocation config) (locations result) |};
           stats := stats;
           issues := issues |}
  end.

End NormalizationService.

(* ================================================================== *)
(** ** services/document/types.ts *)
(* ================================================================== *)

Module Document.
Import Js.

Inductive DocumentType : Type := pdf | image | text | unknown.

Inductive Strategy : Type := text_extraction | vision | direct_text.

Record DocumentMetadata : Type := {
  originalFilename : str;
  mimeType : str;
  size : N;
  pageCount : option Z
}.

Record ProcessedDocument : Type := {
  type : DocumentType;
  textContent : option str;
  images : option (list str);
  metadata : DocumentMetadata;
  strategy : Strategy;
  requiresVision : bool
}.

Record ProcessorResult : Type := {
  success : bool;
  document : option ProcessedDocument;
  error : option str
}.

Definition failure (message : str) : ProcessorResult :=
  {| success := false; document := None; error := Some message |}.

Definition succeed (d : ProcessedDocument) : ProcessorResult :=
  {| success := true; document := Some d; error := None |}.

(** What a failing call throws: an [Error] with its message, or some other
    value. *)
Inductive Thrown : Type :=
  | ErrorObject (message : str)
  | OtherValue.

(** [error instanceof Error ? error.message : fallback] *)
Definition messageOf (t : Thrown) (fallback : str) : str :=
  match t with
  | ErrorObject m => m
  | OtherValue => fallback
  end.

(** A spreadsheet cell as [sheet_to_json] hands it over: whether the value
    is truthy, and [String(cell)]. *)
Record Cell : Type := {
  cell_truthy : bool;
  cell_string : str
}.

(** The collaborators outside the repository (Node's Buffer and URI
    decoding, mammoth, xlsx, the file system and the Poppler tools), each
    given by the outcome of its call.  [xlsxRead] stands for [XLSX.read]
    followed by [sheet_to_json] on every sheet: the sheets by name with
    their rows, or what either call throws.  The listing of the job
    directory is indexed by the last page the renderer was asked for. *)
Record Platform : Type := {
  bufferFromBase64 : str -> list N;
  bufferToBase64 : list N -> str;
  bufferToUtf8 : list N -> str;
  decodeURIComponent : str -> Thrown + str;
  extractRawText : list N -> Thrown + option str;
  xlsxRead : list N -> Thrown + list (str * list (list Cell));
  mkdir : option Thrown;
  writeFile : list N -> option Thrown;
  pdfinfo : Thrown + str;
  pdftotext : Thrown + str;
  pdftoppm : Z -> option Thrown;
  readdir : Z -> Thrown + list str;
  readFile : str -> Thrown + list N
}.

(** The interface [DocumentProcessor]. *)
Record DocumentProcessor : Type := {
  canProcess : str -> option str -> bool;
  process : Platform -> str -> str -> ProcessorResult
}.

(** [mimeType === literal] and [mimeType?.startsWith(literal)] on an
    optional hint. *)
Definition hintIs (hint : option str) (v : str) : bool :=
  match hint with
  | Some h => eqb h v
  | None => false
  end.

Definition hintStartsWith (hint : option str) (p : str) : bool :=
  match hint with
  | Some h => startsWith h p
  | None => false
  end.

(** The capture of [/^<prefix>(.+)$/]: what follows the prefix, when it is
    not empty and holds no line terminator. *)
Definition captureRest (rest : str) : option str :=
  match rest with
  | [] => None
  | _ => if forallb (fun c => negb (isLineTerminator c)) rest
         then Some rest else None
  end.

Fixpoint splitAtFirst (sep : N) (s : str) : option (str * str) :=
  match s with
  | [] => None
  | c :: r =>
      if N.eqb c sep then Some ([], r)
      else match splitAtFirst sep r with
           | Some (a, b) => Some (c :: a, b)
           | None => None
           end
  end.

(** [s.match(/^<prefix>[^;]+;base64,(.+)$/)]: the class [[^;]+] runs up to
    the first semicolon. *)
Definition matchBase64 (prefix s : str) : option str :=
  if startsWith s prefix then
    match splitAtFirst 59 (skipn (length prefix) s) with
    | Some (_ :: _, after) =>
        if startsWith after (lit "base64,")
        then captureRest (skipn 7 after)
        else None
    | _ => None
    end
  else None.

(** [s.length] as a number, and the decimal spelling of a number. *)
Definition len (s : list N) : N := N.of_nat (length s).

Definition showNumber (n : N) : str := lit (NilEmpty.string_of_uint (N.to_uint n)).

Definition newline : str := [10%N].

End Document.

(* ================================================================== *)
(** ** processors/pdf.processor.ts *)
(* ================================================================== *)

Module PdfProcessor.
Import Js Document.

Definition MIN_TEXT_LENGTH_THRESHOLD : N := 100.
Definition MAX_PAGES_FOR_VISION : Z := 5.
Definition IMAGE_DPI : Z := 150.

Definition canProcess (dataUrl : str) (mimeType : option str) : bool :=
  startsWith dataUrl (lit "data:application/pdf")
  || hintIs mimeType (lit "application/pdf").

(** [parseInt(text, 10)]: leading white space, an optional sign, then the
    longest run of digits; [None] is [NaN]. *)
Fixpoint digitsValue (acc : Z) (seen : bool) (s : str) : option Z :=
  match s with
  | c :: r =>
      if isDigit c then digitsValue (10 * acc + (Z.of_N c - 48))%Z true r
      else if seen then Some acc else None
  | [] => if seen then Some acc else None
  end.

Definition parseInt (s : str) : option Z :=
  match trimStart s with
  | 45%N :: r => option_map Z.opp (digitsValue 0 false r)
  | 43%N :: r => digitsValue 0 false r
  | r => digitsValue 0 false r
  end.

(** Get page count from PDF using pdfinfo.  The count is kept as an exact
    integer. *)
Definition getPageCount (io : Platform) : Z :=
  match pdfinfo io with
  | inr stdout =>
      match parseInt (trim stdout) with
      | Some count => count
      | None => 1%Z
      end
  | inl _ => 1%Z
  end.

(** Extract text content from PDF using pdftotext. *)
Definition extractText (io : Platform) : str :=
  match pdftotext io with
  | inr stdout => stdout
  | inl _ => []
  end.

(** The order of [Array.prototype.sort] without a comparator: by code
    units. *)
Fixpoint strLeb (a b : str) : bool :=
  match a, b with
  | [], _ => true
  | _ :: _, [] => false
  | x :: a', y :: b' => N.ltb x y || (N.eqb x y && strLeb a' b')
  end.

Fixpoint insertSorted (f : str) (l : list str) : list str :=
  match l with
  | [] => [f]
  | g :: r => if strLeb f g then f :: l else g :: insertSorted f r
  end.

Definition sort (l : list str) : list str := fold_right insertSorted [] l.

(** The loop reading the generated images; a failing read abandons the
    whole conversion. *)
Fixpoint readImages (io : Platform) (imageFiles : list str)
  : option (list str) :=
  match imageFiles with
  | [] => Some []
  | imageFile :: more =>
      match readFile io imageFile with
      | inr imageBuffer =>
          match readImages io more with
          | Some rest =>
              Some ((lit "data:image/png;base64," ++ bufferToBase64 io imageBuffer)
                    :: rest)
          | None => None
          end
      | inl _ => None
      end
  end.

(** Convert PDF pages to PNG images using pdftoppm. *)
Definition convertToImages (io : Platform) (pageCount : Z) : list str :=
  let pagesToConvert := Z.min pageCount MAX_PAGES_FOR_VISION in
  match pdftoppm io pagesToConvert with
  | Some _ => []
  | None =>
      match readdir io pagesToConvert with
      | inl _ => []
      | inr files =>
          let imageFiles :=
            sort (filter (fun f => startsWith f (lit "page")
                                   && endsWith f (lit ".png")) files) in
          match readImages io imageFiles with
          | Some images => images
          | None => []
          end
      end
  end.

(** The [catch] clause of [process]. *)
Definition onError (t : Thrown) : ProcessorResult :=
  let message := messageOf t (lit "Unknown PDF processing error") in
  if includes message (lit "not found") || includes message (lit "ENOENT")
  then failure (lit "PDF processing tools not installed. Please install poppler-utils.")
  else failure (lit "PDF processing failed: " ++ message).

(** The job directory is cleaned up before each return past the point where
    it is filled; [cleanup] swallows its own failures and does not bear on
    the result. *)
Definition process (io : Platform) (dataUrl filename : str)
  : ProcessorResult :=
  match mkdir io with
  | Some t => onError t
  | None =>
      match startsWith dataUrl (lit "data:application/pdf;base64,"),
            captureRest (skipn 28 dataUrl) with
      | true, Some base64 =>
          let pdfBuffer := bufferFromBase64 io base64 in
          match writeFile io pdfBuffer with
          | Some t => onError t
          | None =>
              let pageCount := getPageCount io in
              let textContent := extractText io in
              let hasSignificantText :=
                N.leb MIN_TEXT_LENGTH_THRESHOLD (len (trim textContent)) in
              if hasSignificantText then
                succeed
                  {| type := pdf;
                     textContent := Some textContent;
                     images := None;
                     metadata :=
                       {| originalFilename := filename;
                          mimeType := lit "application/pdf";
                          size := len pdfBuffer;
                          pageCount := Some pageCount |};
                     strategy := text_extraction;
                     requiresVision := false |}
              else
                let images := convertToImages io pageCount in
                if length images =? 0
                then failure (lit "Failed to convert PDF to images. The file may be corrupted.")
                else
                  succeed
                    {| type := pdf;
                       textContent := None;
                       images := Some images;
                       metadata :=
                         {| originalFilename := filename;
                            mimeType := lit "application/pdf";
                            size := len pdfBuffer;
                            pageCount := Some pageCount |};
                       strategy := vision;
                       requiresVision := true |}
          end
      | _, _ => failure (lit "Invalid PDF data URL format")
      end
  end.

Definition processor : DocumentProcessor :=
  {| Document.canProcess := canProcess; Document.process := process |}.

End PdfProcessor.

(* ================================================================== *)
(** ** processors/word.processor.ts *)
(* ================================================================== *)

Module WordProcessor.
Import Js Document.

Definition MIN_TEXT_LENGTH : N := 50.
Definition MAX_TEXT_LENGTH : N := 50000.

Definition canProcess (dataUrl : str) (mimeType : option str) : bool :=
  startsWith dataUrl
    (lit "data:application/vnd.openxmlformats-officedocument.wordprocessingml")
  || hintIs mimeType
       (lit "application/vnd.openxmlformats-officedocument.wordprocessingml.document")
  || hintIs mimeType (lit "application/msword").

Definition truncationNotice : str :=
  newline ++ newline ++ lit "[Document truncated - showing first 50,000 characters]".

Definition process (io : Platform) (dataUrl filename : str)
  : ProcessorResult :=
  match matchBase64 (lit "data:") dataUrl with
  | None => failure (lit "Invalid Word document data URL format")
  | Some base64 =>
      let docBuffer := bufferFromBase64 io base64 in
      match extractRawText io docBuffer with
      | inl t =>
          failure (lit "Word document processing failed: "
                   ++ messageOf t (lit "Unknown Word processing error"))
      | inr value =>
          let textContent :=
            match orElse value (Some []) with
            | Some v => v
            | None => []
            end in
          if N.ltb (len (trim textContent)) MIN_TEXT_LENGTH
          then failure (lit "Word document has insufficient text content ("
                        ++ showNumber (len (trim textContent))
                        ++ lit " characters).")
          else
            let textContent :=
              if N.ltb MAX_TEXT_LENGTH (len textContent)
              then substring 0 (N.to_nat MAX_TEXT_LENGTH) textContent
                   ++ truncationNotice
              else textContent in
            succeed
              {| type := text;
                 textContent := Some textContent;
                 images := None;
                 metadata :=
                   {| originalFilename := filename;
                      mimeType :=
                        lit "application/vnd.openxmlformats-officedocument.wordprocessingml.document";
                      size := len docBuffer;
                      pageCount := None |};
                 strategy := text_extraction;
                 requiresVision := false |}
      end
  end.

Definition processor : DocumentProcessor :=
  {| Document.canProcess := canProcess; Document.process := process |}.

End WordProcessor.

(* ================================================================== *)
(** ** processors/excel.processor.ts *)
(* ================================================================== *)

Module ExcelProcessor.
Import Js Document.

Definition MIN_TEXT_LENGTH : N := 50.
Definition MAX_TEXT_LENGTH : N := 50000.

Definition canProcess (dataUrl : str) (mimeType : option str) : bool :=
  startsWith dataUrl
    (lit "data:application/vnd.openxmlformats-officedocument.spreadsheetml")
  || startsWith dataUrl (lit "data:application/vnd.ms-excel")
  || hintIs mimeType
       (lit "application/vnd.openxmlformats-officedocument.spreadsheetml.sheet")
  || hintIs mimeType (lit "application/vnd.ms-excel").

(** [!cell || String(cell).trim() === ""] *)
Definition emptyCell (cell : Cell) : bool :=
  negb (cell_truthy cell)
  || match trim (cell_string cell) with [] => true | _ => false end.

(** [String(cell || "").trim()] *)
Definition showCell (cell : Cell) : str :=
  if cell_truthy cell then trim (cell_string cell) else [].

(** Format sheet data as readable text; completely empty rows are
    skipped. *)
Definition formatSheetAsText (sheetName : str) (data : list (list Cell))
  : str :=
  let lines := [lit "=== Sheet: " ++ sheetName ++ lit " ==="; []] in
  let lines :=
    fold_left
      (fun (lines : list str) (row : list Cell) =>
         if forallb emptyCell row then lines
         else lines ++ [join (lit " | ") (map showCell row)])
      data lines in
  join newline lines.

(** The loop over [workbook.SheetNames]. *)
Definition sheetTexts (sheets : list (str * list (list Cell))) : list str :=
  fold_left
    (fun (textParts : list str) (sheet : str * list (list Cell)) =>
       let (sheetName, data) := sheet in
       if length data =? 0 then textParts
       else
         let sheetText := formatSheetAsText sheetName data in
         match trim sheetText with
         | [] => textParts
         | _ => textParts ++ [sheetText]
         end)
    sheets [].

Definition truncationNotice : str :=
  newline ++ newline ++ lit "[Document truncated - showing first 50,000 characters]".

Definition process (io : Platform) (dataUrl filename : str)
  : ProcessorResult :=
  match matchBase64 (lit "data:") dataUrl with
  | None => failure (lit "Invalid Excel document data URL format")
  | Some base64 =>
      let excelBuffer := bufferFromBase64 io base64 in
      match xlsxRead io excelBuffer with
      | inl t =>
          failure (lit "Excel document processing failed: "
                   ++ messageOf t (lit "Unknown Excel processing error"))
      | inr [] => failure (lit "Excel file contains no sheets")
      | inr sheets =>
          let textParts := sheetTexts sheets in
          let textContent :=
            join (newline ++ newline ++ lit "---" ++ newline ++ newline)
                 textParts in
          if N.ltb (len (trim textContent)) MIN_TEXT_LENGTH
          then failure (lit "Excel file has insufficient data ("
                        ++ showNumber (len (trim textContent))
                        ++ lit " characters). The file may be empty or contain only formatting.")
          else
            let textContent :=
              if N.ltb MAX_TEXT_LENGTH (len textContent)
              then substring 0 (N.to_nat MAX_TEXT_LENGTH) textContent
                   ++ truncationNotice
              else textContent in
            succeed
              {| type := text;
                 textContent := Some textContent;
                 images := None;
                 metadata :=
                   {| originalFilename := filename;
                      mimeType :=
                        lit "application/vnd.openxmlformats-officedocument.spreadsheetml.sheet";
                      size := len excelBuffer;
                      pageCount := None |};
                 strategy := text_extraction;
                 requiresVision := false |}
      end
  end.

Definition processor : DocumentProcessor :=
  {| Document.canProcess := canProcess; Document.process := process |}.

End ExcelProcessor.

(* ================================================================== *)
(** ** processors/image.processor.ts *)
(* ================================================================== *)

Module ImageProcessor.
Import Js Document.

Definition SUPPORTED_IMAGE_TYPES : list str :=
  [lit "image/png"; lit "image/jpeg"; lit "image/jpg"; lit "image/gif";
   lit "image/webp"].

(** 20MB limit for OpenAI vision. *)
Definition MAX_IMAGE_SIZE : N := 20 * 1024 * 1024.

Definition canProcess (dataUrl : str) (mimeType : option str) : bool :=
  if startsWith dataUrl (lit "data:image/") then true
  else
    match mimeType with
    | Some (u :: m) => existsb (eqb (u :: m)) SUPPORTED_IMAGE_TYPES
    | _ => false
    end.

Definition isLowerLetter (c : N) : bool := N.leb 97 c && N.leb c 122.

Fixpoint takeLetters (s : str) : str * str :=
  match s with
  | c :: r =>
      if isLowerLetter c
      then let (a, b) := takeLetters r in (c :: a, b)
      else ([], s)
  | [] => ([], [])
  end.

(** The capture of [/^data:(image\/[a-z]+);base64,/]. *)
Definition matchMime (dataUrl : str) : option str :=
  if startsWith dataUrl (lit "data:image/") then
    let (letters, after) := takeLetters (skipn 11 dataUrl) in
    match letters with
    | [] => None
    | _ => if startsWith after (lit ";base64,")
           then Some (lit "image/" ++ letters) else None
    end
  else None.

(** [Math.ceil((n * 3) / 4)] *)
Definition approximate (n : N) : N := ((n * 3 + 3) / 4)%N.

(** [(size / 1024 / 1024).toFixed(1)]: the divisions by powers of two are
    exact, and [toFixed] rounds to the nearest tenth, the larger one on a
    tie. *)
Definition megabytes (size : N) : str :=
  let tenths := ((20 * size + 1048576) / 2097152)%N in
  showNumber (tenths / 10)%N ++ lit "." ++ showNumber (tenths mod 10)%N.

Definition process (io : Platform) (dataUrl filename : str)
  : ProcessorResult :=
  match matchMime dataUrl with
  | None => failure (lit "Invalid image data URL format")
  | Some mimeType =>
      if negb (existsb (eqb mimeType) SUPPORTED_IMAGE_TYPES)
      then failure (lit "Unsupported image type: " ++ mimeType
                    ++ lit ". Supported: PNG, JPG, GIF, WebP")
      else
        let base64Data := nth 1 (split 44 dataUrl) [] in
        let approximateSize := approximate (len base64Data) in
        if N.ltb MAX_IMAGE_SIZE approximateSize
        then failure (lit "Image too large (" ++ megabytes approximateSize
                      ++ lit "MB). Maximum size is 20MB.")
        else
          succeed
            {| type := image;
               textContent := None;
               images := Some [dataUrl];
               metadata :=
                 {| originalFilename := filename;
                    mimeType := mimeType;
                    size := approximateSize;
                    pageCount := None |};
               strategy := vision;
               requiresVision := true |}
  end.

Definition processor : DocumentProcessor :=
  {| Document.canProcess := canProcess; Document.process := process |}.

End ImageProcessor.

(* ================================================================== *)
(** ** processors/text.processor.ts *)
(* ================================================================== *)

Module TextProcessor.
Import Js Document.

Definition MIN_TEXT_LENGTH : N := 10.
Definition MAX_TEXT_LENGTH : N := 50000.

Definition canProcess (dataUrl : str) (mimeType : option str) : bool :=
  if negb (startsWith dataUrl (lit "data:")) then true
  else if startsWith dataUrl (lit "data:text/") then true
  else if hintStartsWith mimeType (lit "text/") then true
  else false.

(** [text.lastIndexOf(needle, from)] for a needle that is not empty; [None]
    is the answer -1. *)
Fixpoint lastIndexFrom (i from : N) (best : option N) (s needle : str)
  : option N :=
  match s with
  | [] => best
  | _ :: r =>
      lastIndexFrom (N.succ i) from
        (if N.leb i from && startsWith s needle then Some i else best)
        r needle
  end.

Definition lastIndexOf (s needle : str) (from : N) : option N :=
  lastIndexFrom 0 from None s needle.

(** [breakPoint === -1 || breakPoint < targetLength * 0.7]; at the one call
    site the product is the integer 34930. *)
Definition tooEarly (breakPoint : option N) (targetLength : N) : bool :=
  match breakPoint with
  | None => true
  | Some b => N.ltb (10 * b) (7 * targetLength)
  end.

Definition truncationNotice : str :=
  newline ++ newline
  ++ lit "[Document truncated - showing first ~50,000 characters. Contact information is typically in the first section.]".

(** Smart truncation that tries to keep complete sections. *)
Definition smartTruncate (text : str) (maxLength : N) : str :=
  if N.leb (len text) maxLength then text
  else
    let targetLength := (maxLength - 100)%N in
    let breakPoint := lastIndexOf text (newline ++ newline) targetLength in
    let breakPoint :=
      if tooEarly breakPoint targetLength
      then lastIndexOf text newline targetLength
      else breakPoint in
    let breakPoint :=
      if tooEarly breakPoint targetLength
      then option_map N.succ (lastIndexOf text (lit ". ") targetLength)
      else breakPoint in
    let breakPoint :=
      if tooEarly breakPoint targetLength
      then targetLength
      else match breakPoint with Some b => b | None => targetLength end in
    trim (substring 0 (N.to_nat breakPoint) text) ++ truncationNotice.

(** [s.match(/^data:text\/[^,]+,(.+)$/)]: the class [[^,]+] runs up to the
    first comma. *)
Definition matchUrlEncoded (dataUrl : str) : option str :=
  if startsWith dataUrl (lit "data:text/") then
    match splitAtFirst 44 (skipn 10 dataUrl) with
    | Some (_ :: _, after) => captureRest after
    | _ => None
    end
  else None.

Definition process (io : Platform) (dataUrl filename : str)
  : ProcessorResult :=
  let decoded : Thrown + str :=
    if startsWith dataUrl (lit "data:text/") then
      match matchBase64 (lit "data:text/") dataUrl with
      | Some base64 => inr (bufferToUtf8 io (bufferFromBase64 io base64))
      | None =>
          match matchUrlEncoded dataUrl with
          | Some encoded => decodeURIComponent io encoded
          | None => inr dataUrl
          end
      end
    else inr dataUrl in
  match decoded with
  | inl t =>
      failure (lit "Text processing failed: "
               ++ messageOf t (lit "Unknown text processing error"))
  | inr textContent =>
      if N.ltb (len (trim textContent)) MIN_TEXT_LENGTH
      then failure (lit "Text content too short. Please provide at least "
                    ++ showNumber MIN_TEXT_LENGTH ++ lit " characters.")
      else
        let textContent :=
          if N.ltb MAX_TEXT_LENGTH (len textContent)
          then smartTruncate textContent MAX_TEXT_LENGTH
          else textContent in
        succeed
          {| type := text;
             textContent := Some textContent;
             images := None;
             metadata :=
               {| originalFilename := filename;
                  mimeType := lit "text/plain";
                  size := len textContent;
                  pageCount := None |};
             strategy := direct_text;
             requiresVision := false |}
  end.

Definition processor : DocumentProcessor :=
  {| Document.canProcess := canProcess; Document.process := process |}.

End TextProcessor.

(* ================================================================== *)
(** ** services/document/index.ts *)
(* ================================================================== *)

Module DocumentProcessingService.
Import Js Document.

(** Processors in order of registration (most specific first). *)
Definition processors : list DocumentProcessor :=
  [ PdfProcessor.processor;
    WordProcessor.processor;
    ExcelProcessor.processor;
    ImageProcessor.processor;
    TextProcessor.processor ].

(** Detect the document type from content and optional hints. *)
Definition detectType (content : str) (mimeTypeHint : option str)
  : DocumentType :=
  if startsWith content (lit "data:application/pdf")
     || hintIs mimeTypeHint (lit "application/pdf")
  then pdf
  else if startsWith content (lit "data:image/")
          || hintStartsWith mimeTypeHint (lit "image/")
  then image
  else if startsWith content (lit "data:text/")
          || hintStartsWith mimeTypeHint (lit "text/")
          || negb (startsWith content (lit "data:"))
  then text
  else unknown.

Definition noProcessor : ProcessorResult :=
  failure (lit "Unsupported document format. Supported formats: PDF, Word (.docx), Excel (.xlsx), PNG, JPG, GIF, WebP, plain text.").

(** The loop [for (const processor of this.processors)]. *)
Fixpoint dispatch (ps : list DocumentProcessor) (io : Platform)
  (content filename : str) (mimeTypeHint : option str) : ProcessorResult :=
  match ps with
  | [] => noProcessor
  | processor :: more =>
      if canProcess processor content mimeTypeHint
      then Document.process processor io content filename
      else dispatch more io content filename mimeTypeHint
  end.

(** Process a document through the appropriate processor. *)
Definition process (io : Platform) (content filename : str)
  (mimeTypeHint : option str) : ProcessorResult :=
  let detectedType := detectType content mimeTypeHint in
  dispatch processors io content filename mimeTypeHint.

End DocumentProcessingService.

(* ================================================================== *)
(** ** services/ai/prompts.ts *)
(* ================================================================== *)

Module Prompts.
Import Js.

Definition EXTRACTION_USER_PROMPT_TEXT : str :=
  lit "Extract all contact information from this callsheet:"
  ++ [10%N; 10%N] ++ lit "{content}".

Definition EXTRACTION_USER_PROMPT_VISION : str :=
  lit "Extract all contact information from this callsheet image. Look carefully at all text, tables, and contact lists visible in the image.".

(** The first occurrence of [pattern] in [s]: the text before it and the
    text after it. *)
Fixpoint cut (s pattern : str) : option (str * str) :=
  if startsWith s pattern then Some ([], skipn (length pattern) s)
  else
    match s with
    | [] => None
    | c :: r =>
        match cut r pattern with
        | Some (before, after) => Some (c :: before, after)
        | None => None
        end
    end.

(** The replacement text of [String.prototype.replace] for a string
    pattern, which has no captures: [$$] is a dollar, [$&] the match, [$`]
    the text before the match and [$'] the text after it; a dollar before
    anything else stands for itself. *)
Fixpoint getSubstitution (matched before after replacement : str) : str :=
  match replacement with
  | [] => []
  | c :: r =>
      match r with
      | [] => [c]
      | d :: r' =>
          if N.eqb c 36 then
            if N.eqb d 36 then 36%N :: getSubstitution matched before after r'
            else if N.eqb d 38
            then matched ++ getSubstitution matched before after r'
            else if N.eqb d 96
            then before ++ getSubstitution matched before after r'
            else if N.eqb d 39
            then after ++ getSubstitution matched before after r'
            else c :: getSubstitution matched before after r
          else c :: getSubstitution matched before after r
      end
  end.

(** [s.replace(pattern, replacement)] with both arguments strings: the first
    occurrence only. *)
Definition replace (s pattern replacement : str) : str :=
  match cut s pattern with
  | None => s
  | Some (before, after) =>
      before ++ getSubstitution pattern before after replacement ++ after
  end.

(** Generate the user prompt for text-based extraction. *)
Definition getTextExtractionPrompt (content : str) : str :=
  replace EXTRACTION_USER_PROMPT_TEXT (lit "{content}") content.

(** Generate the user prompt for vision-based extraction. *)
Definition getVisionExtractionPrompt : str := EXTRACTION_USER_PROMPT_VISION.

End Prompts.

(* ================================================================== *)
(** ** services/ai/openai.client.ts *)
(* ================================================================== *)

Module OpenAIClient.
Import Js Types.

Definition MAX_RETRIES : nat := 3.
Definition BASE_DELAY_MS : N := 1000.

(** What a failing request throws: an [Error] with its message, or some
    other value, known by [String(value)]. *)
Inductive Raised : Type :=
  | RaisedError (message : str)
  | RaisedValue (shown : str).

(** What one call of [openai.chat.completions.parse] comes to: the parsed
    result of the first choice, none ([choices[0]?.message?.parsed] is
    missing), or a throw. *)
Inductive Reply : Type :=
  | Parsed (result : ExtractionResult)
  | Unparsed
  | Fails (e : Raised).

(** The user content of a request.  The system prompt, the model, the
    temperature and the response format are the same in every request. *)
Inductive Content : Type :=
  | Text (prompt : str)
  | Parts (imageUrls : list str) (prompt : str).

(** The service: its reply to a request on the first, second, ... attempt
    of one extraction. *)
Definition Api : Type := Content -> nat -> Reply.

(** [error instanceof Error ? error : new Error(String(error))], and the
    message of that. *)
Definition messageOf (e : Raised) : str :=
  match e with
  | RaisedError message => message
  | RaisedValue shown => shown
  end.

Definition isRetryable (message : str) : bool :=
  includes message (lit "rate_limit")
  || includes message (lit "timeout")
  || includes message (lit "500")
  || includes message (lit "503").

(** The body of [try]: the result, or the message of what [catch]
    receives; a missing result is thrown as an [Error] of its own. *)
Definition attemptOnce (reply : Reply) (emptyMessage : str)
  : str + ExtractionResult :=
  match reply with
  | Parsed result => inr result
  | Unparsed => inl emptyMessage
  | Fails e => inl (messageOf e)
  end.

(** The loop [for (let attempt = 1; attempt <= MAX_RETRIES; attempt++)],
    [remaining] counting the rounds it may still take; the answer is the
    result returned, or [lastError] as the loop leaves it, together with the
    delays slept through. *)
Fixpoint attempts (call : nat -> Reply) (emptyMessage : str)
  (attempt remaining : nat) (lastError : option str)
  : list N * (option str + ExtractionResult) :=
  match remaining with
  | 0 => ([], inl lastError)
  | S remaining' =>
      match attemptOnce (call attempt) emptyMessage with
      | inr result => ([], inr result)
      | inl message =>
          if isRetryable message && (attempt <? MAX_RETRIES)
          then
            let delay := (BASE_DELAY_MS * 2 ^ N.of_nat (attempt - 1))%N in
            let (sleeps, ending) :=
              attempts call emptyMessage (S attempt) remaining' (Some message) in
            (delay :: sleeps, ending)
          else ([], inl (Some message))
      end
  end.

(** [lastError?.message || "Unknown error"] *)
Definition orUnknown (lastError : option str) : str :=
  match lastError with
  | Some (u :: m) => u :: m
  | _ => lit "Unknown error"
  end.

(** How an extraction ends: the delays slept through, and the result or the
    message of the [Error] thrown. *)
Record Outcome : Type := {
  sleeps : list N;
  answer : str + ExtractionResult
}.

Definition finish (failed : str)
  (run : list N * (option str + ExtractionResult)) : Outcome :=
  {| sleeps := fst run;
     answer :=
       match snd run with
       | inr result => inr result
       | inl lastError => inl (failed ++ orUnknown lastError)
       end |}.

(** Extract contacts from text content. *)
Definition extractFromText (api : Api) (textContent : str) : Outcome :=
  finish (lit "Extraction failed: ")
    (attempts (api (Text (Prompts.getTextExtractionPrompt textContent)))
       (lit "Empty or invalid response from OpenAI") 1 MAX_RETRIES None).

(** Extract contacts from images using the vision API. *)
Definition extractFromImages (api : Api) (imageDataUrls : list str)
  : Outcome :=
  finish (lit "Vision extraction failed: ")
    (attempts (api (Parts imageDataUrls Prompts.getVisionExtractionPrompt))
       (lit "Empty or invalid response from OpenAI Vision") 1 MAX_RETRIES
       None).

End OpenAIClient.

(* ================================================================== *)
(** ** services/extraction.service.ts *)
(* ================================================================== *)

Module ExtractionService.
Import Js Types Document.

Record ExtractContactsResult : Type := {
  raw : ExtractionResult;
  normalized : ExtractionResult;
  stats : NormalizationService.NormalizationStats;
  issues : list NormalizationService.NormalizationIssue
}.

(** How the promise of [extractContacts] settles.  [RoleEscapes] is the
    outcome of that name of the normalization service: the run raises a
    [TypeError] there, or hands on a record outside the data model. *)
Inductive Outcome : Type :=
  | Resolves (result : ExtractContactsResult)
  | Rejects (message : str)
  | RoleEscapes.

(** The [catch] clause, for the [Error]s thrown inside [try]. *)
Definition rethrow (message : str) : Outcome :=
  Rejects (lit "Extraction failed: " ++ message).

(** Step 3: normalize the extracted data, with the service of the default
    configuration. *)
Definition normalizeStep (rawExtraction : ExtractionResult) : Outcome :=
  match NormalizationService.normalize NormalizationService.DEFAULT_CONFIG
          rawExtraction with
  | NormalizationService.Returns normalizationResult =>
      Resolves
        {| raw := rawExtraction;
           normalized := NormalizationService.data normalizationResult;
           stats := NormalizationService.stats normalizationResult;
           issues := NormalizationService.issues normalizationResult |}
  | NormalizationService.RoleEscapes => RoleEscapes
  end.

(** [await] on an extraction of the client. *)
Definition awaitExtraction (run : OpenAIClient.Outcome) : Outcome :=
  match OpenAIClient.answer run with
  | inr rawExtraction => normalizeStep rawExtraction
  | inl message => rethrow message
  end.

(** Extract contacts from any supported document type.  [documentType] is
    [None] for [null] and [undefined] alike, [filename] is [None] when the
    caller leaves it out. *)
Definition extractContacts (io : Platform) (api : OpenAIClient.Api)
  (documentContent : str) (documentType : option str)
  (filename : option str) : Outcome :=
  let filename :=
    match filename with
    | Some f => f
    | None => lit "document"
    end in
  (* Step 1: process the document *)
  let processorResult :=
    DocumentProcessingService.process io documentContent filename
      documentType in
  match success processorResult, document processorResult with
  | true, Some document =>
      (* Step 2: route to the appropriate extraction method *)
      match requiresVision document, images document with
      | true, Some (i :: more) =>
          awaitExtraction (OpenAIClient.extractFromImages api (i :: more))
      | _, _ =>
          match textContent document with
          | Some (u :: t) =>
              awaitExtraction (OpenAIClient.extractFromText api (u :: t))
          | _ => rethrow (lit "Document has no extractable content")
          end
      end
  | _, _ =>
      rethrow
        (match orElse (error processorResult)
                 (Some (lit "Document processing failed")) with
         | Some message => message
         | None => []
         end)
  end.

(** Legacy function: only the normalized extraction result. *)
Definition extractContactsSimple (io : Platform) (api : OpenAIClient.Api)
  (documentContent : str) (documentType : option str)
  (filename : option str) : Outcome + ExtractionResult :=
  match extractContacts io api documentContent documentType filename with
  | Resolves result => inr (normalized result)
  | other => inl other
  end.

End ExtractionService.

(* ================================================================== *)
(** ** The uploading side: lib/file-utils.ts *)
(* ================================================================== *)

Module FileUtils.
Import Js.

Inductive FileType : Type := pdf | word | excel | image | text.

(** The string of the union type, as it is sent for [documentType]. *)
Definition typeName (t : FileType) : str :=
  match t with
  | pdf => lit "pdf"
  | word => lit "word"
  | excel => lit "excel"
  | image => lit "image"
  | text => lit "text"
  end.

(** A [File]: its name, its [type] (empty when the browser knows none), and
    what reading it gives: the data URL [FileReader.readAsDataURL] loads and
    the text [file.text()] resolves to, [None] when the read fails. *)
Record File : Type := {
  name : str;
  type : str;
  readAsDataURL : option str;
  readText : option str
}.

Record FileDataUrl : Type := {
  dataUrl : str;
  fileType : FileType
}.

(** Convert a File to base64 string: the data URL prefix is removed if
    present.  [None]: the promise is rejected. *)
Definition fileToBase64 (file : File) : option str :=
  match readAsDataURL file with
  | Some result =>
      Some (if includes result (lit ",")
            then nth 1 (split 44 result) []
            else result)
  | None => None
  end.

(** Get image MIME type from filename. *)
Definition getImageMimeType (filename : str) : str :=
  if endsWith filename (lit ".png") then lit "image/png"
  else if endsWith filename (lit ".jpg") || endsWith filename (lit ".jpeg")
  then lit "image/jpeg"
  else if endsWith filename (lit ".gif") then lit "image/gif"
  else if endsWith filename (lit ".webp") then lit "image/webp"
  else lit "image/png".

Definition base64Url (mime : str) (t : FileType) (file : File)
  : option FileDataUrl :=
  match fileToBase64 file with
  | Some base64 =>
      Some {| dataUrl := lit "data:" ++ mime ++ lit ";base64," ++ base64;
              fileType := t |}
  | None => None
  end.

(** Convert a File to a base64 data URL for upload. *)
Definition fileToDataUrl (file : File) : option FileDataUrl :=
  let lowerName := toLowerCase (name file) in
  let mimeType := type file in
  if endsWith lowerName (lit ".pdf") || eqb mimeType (lit "application/pdf")
  then base64Url (lit "application/pdf") pdf file
  else if endsWith lowerName (lit ".docx")
          || endsWith lowerName (lit ".doc")
          || eqb mimeType
               (lit "application/vnd.openxmlformats-officedocument.wordprocessingml.document")
          || eqb mimeType (lit "application/msword")
  then
    let docMime :=
      if endsWith lowerName (lit ".docx")
      then lit "application/vnd.openxmlformats-officedocument.wordprocessingml.document"
      else lit "application/msword" in
    base64Url docMime word file
  else if endsWith lowerName (lit ".xlsx")
          || endsWith lowerName (lit ".xls")
          || eqb mimeType
               (lit "application/vnd.openxmlformats-officedocument.spreadsheetml.sheet")
          || eqb mimeType (lit "application/vnd.ms-excel")
  then
    let excelMime :=
      if endsWith lowerName (lit ".xlsx")
      then lit "application/vnd.openxmlformats-officedocument.spreadsheetml.sheet"
      else lit "application/vnd.ms-excel" in
    base64Url excelMime excel file
  else if endsWith lowerName (lit ".png")
          || endsWith lowerName (lit ".jpg")
          || endsWith lowerName (lit ".jpeg")
          || endsWith lowerName (lit ".gif")
          || endsWith lowerName (lit ".webp")
          || startsWith mimeType (lit "image/")
  then
    let imageMime :=
      match mimeType with
      | _ :: _ => mimeType
      | [] => getImageMimeType lowerName
      end in
    base64Url imageMime image file
  else
    match readText file with
    | Some content => Some {| dataUrl := content; fileType := text |}
    | None => None
    end.

End FileUtils.

(* ================================================================== *)
(** * Statements of the specification *)
(* ================================================================== *)

Module Spec.
Import Js Types Document.

(** *** Document router *)

(** [textContent] is present and not empty. *)
Definition populatedText (d : ProcessedDocument) : Prop :=
  exists u t, textContent d = Some (u :: t).

(** [images] is present and not empty. *)
Definition populatedImages (d : ProcessedDocument) : Prop :=
  exists i l, images d = Some (i :: l).

(** Exactly one of [textContent] / [images] is populated, and
    [requiresVision] tells which. *)
Definition wellFormed (d : ProcessedDocument) : Prop :=
  (populatedText d /\ images d = None /\ requiresVision d = false)
  \/ (populatedImages d /\ textContent d = None /\ requiresVision d = true).

(** The markers and hints [detectType] looks at. *)
Definition pdfMarked (content : str) (hint : option str) : bool :=
  startsWith content (lit "data:application/pdf")
  || hintIs hint (lit "application/pdf").

Definition imageMarked (content : str) (hint : option str) : bool :=
  startsWith content (lit "data:image/")
  || hintStartsWith hint (lit "image/").

Definition textMarked (content : str) (hint : option str) : bool :=
  startsWith content (lit "data:text/")
  || hintStartsWith hint (lit "text/")
  || negb (startsWith content (lit "data:")).



(** *** Phone normalizer *)

Definition digitsOf (s : str) : str := filter isDigit s.

(** The formats by digit count, the digits named one by one. *)
Definition formatted (d : str) : str :=
  match d with
  | [a; b; c; e; f; g; h] =>
      [a; b; c; 45%N; e; f; g; h]
  | [a; b; c; e; f; g; h; i; j; k] =>
      [40%N; a; b; c; 41%N; 32%N; e; f; g; 45%N; h; i; j; k]
  | [o; a; b; c; e; f; g; h; i; j; k] =>
      if N.eqb o 49
      then [40%N; a; b; c; 41%N; 32%N; e; f; g; 45%N; h; i; j; k]
      else d
  | _ => if 11 <? length d then 43%N :: d else d
  end.

(** The branching as the specification states it for every non-null
    input: any other count gives the digits back. *)
Definition phoneAsStated (s : str) : option str :=
  Some (formatted (digitsOf s)).

(** The same with the guard of the code: without a digit the answer is
    [null]. *)
Definition phoneAsAmended (s : str) : option str :=
  match digitsOf s with
  | [] => None
  | _ :: _ => Some (formatted (digitsOf s))
  end.

(** *** Deduplicator *)

Section Grouping.
Variable key : Contact -> str.
Variable merge : Contact -> Contact -> Contact.

Definition mem (k : str) (l : list str) : bool := existsb (eqb k) l.

(** The distinct keys, in the order in which they are first seen. *)
Fixpoint firstSeen (seen : list str) (cs : list Contact) : list str :=
  match cs with
  | [] => []
  | c :: more =>
      if mem (key c) seen then firstSeen seen more
      else key c :: firstSeen (key c :: seen) more
  end.

(** The records that share a key, in list order. *)
Definition group (k : str) (cs : list Contact) : list Contact :=
  filter (fun c => eqb (key c) k) cs.

(** The first record of a group is authoritative; every later one is
    merged into it, in order. *)
Definition mergeGroup (g : list Contact) : list Contact :=
  match g with
  | [] => []
  | first :: later => [fold_left merge later first]
  end.

(** One record per key, keys in first-seen order. *)
Definition grouped (cs : list Contact) : list Contact :=
  flat_map (fun k => mergeGroup (group k cs)) (firstSeen [] cs).
End Grouping.

Definition nameKey (c : Contact) : str :=
  collapseSpaces (trim (toLowerCase (name c))).

Definition phoneKey (c : Contact) : str :=
  match phone c with
  | Some p => digitsOf p
  | None => []
  end.





(** The same with the reading of the code: a value counts when it is neither
    [null] nor the empty string. *)
Definition keyAsAmended (c : Contact) : str :=
  if 7 <=? length (phoneKey c) then nameKey c ++ lit "|" ++ phoneKey c
  else
    match email c with
    | Some e =>
        match trim (toLowerCase e) with
        | [] => nameKey c
        | _ :: _ => nameKey c ++ lit "|" ++ trim (toLowerCase e)
        end
    | None => nameKey c
    end.




(** What holds of the map and the counter after the loop has gone through
    the records [pre]. *)
Definition dedupInvariant (pre : list Contact)
  (st : Deduplicator.ContactMap * nat) : Prop :=
  map fst (fst st)
  = firstSeen Deduplicator.generateKey [] pre
  /\ (forall k,
        mergeGroup Deduplicator.mergeContacts
          (group Deduplicator.generateKey k pre)
        = match Deduplicator.mapGet (fst st) k with
          | Some v => [v]
          | None => []
          end)
  /\ snd st + length (fst st) = length pre.

(** *** Name normalizer *)

(** A word: not empty and free of white space. *)
Definition isWord (w : str) : Prop :=
  w <> [] /\ Forall (fun c => isWhiteSpace c = false) w.

(** The upper-case unit of an ASCII unit. *)
Definition upper1 (c : N) : N := hd c (upper_unit c).

(** [capitalize] on ASCII text. *)
Definition capitalized (w : str) : str :=
  match w with
  | [] => []
  | c :: r => upper1 c :: map lower_unit r
  end.

(** The prefix the loop of [applyPrefixes] settles on; it depends on the
    lowered word only. *)
Fixpoint selectPrefix (prefixes : list str) (lowerWord : str) : option str :=
  match prefixes with
  | [] => None
  | prefix :: more =>
      if startsWith lowerWord prefix && (length prefix <? length lowerWord)
      then Some prefix
      else selectPrefix more lowerWord
  end.

(** How a special prefix is written in the result. *)
Definition shownPrefix (prefix : str) : str :=
  if eqb prefix (lit "o'") then lit "O'"
  else NameNormalizer.capitalize prefix.

(** The text ends in a unit that is not white space, if it has any. *)
Fixpoint endsInText (s : str) : bool :=
  match s with
  | [] => true
  | [c] => negb (isWhiteSpace c)
  | _ :: r => endsInText r
  end.

(** *** Running the service twice *)




(** The counters of a run that changed nothing. *)
Definition unchangedStats (total : nat)
  : NormalizationService.NormalizationStats :=
  {| NormalizationService.phonesNormalized := 0;
     NormalizationService.namesNormalized := 0;
     NormalizationService.rolesNormalized := 0;
     NormalizationService.departmentsInferred := 0;
     NormalizationService.duplicatesRemoved := 0;
     NormalizationService.totalContacts := total |}.

End Spec.

(* ================================================================== *)
(** * Notions for the further properties of the code *)
(* ================================================================== *)

Module Notions.
Import Js Types Document.

(** *** Normalization service *)

(** The warning the phone step pushes. *)
Definition phoneWarning (contactName shown : str)
  : NormalizationService.NormalizationIssue :=
  {| NormalizationService.type := warning;
     NormalizationService.field := lit "phone";
     NormalizationService.contactName := Some contactName;
     NormalizationService.message :=
       lit "Invalid phone number: " ++ NormalizationService.quote ++ shown
       ++ NormalizationService.quote |}.


(** From [s] to [s'] each of the four change counters grew by at most [k],
    and the two totals stayed. *)
Definition grewByAtMost (k : nat)
  (s s' : NormalizationService.NormalizationStats) : Prop :=
  NormalizationService.phonesNormalized s
  <= NormalizationService.phonesNormalized s'
  <= NormalizationService.phonesNormalized s + k
  /\ NormalizationService.namesNormalized s
     <= NormalizationService.namesNormalized s'
     <= NormalizationService.namesNormalized s + k
  /\ NormalizationService.rolesNormalized s
     <= NormalizationService.rolesNormalized s'
     <= NormalizationService.rolesNormalized s + k
  /\ NormalizationService.departmentsInferred s
     <= NormalizationService.departmentsInferred s'
     <= NormalizationService.departmentsInferred s + k
  /\ NormalizationService.duplicatesRemoved s'
     = NormalizationService.duplicatesRemoved s
  /\ NormalizationService.totalContacts s'
     = NormalizationService.totalContacts s.

(** An issue of the service: a warning about the name, the phone or the
    email of a contact that is named. *)
Definition contactWarning (i : NormalizationService.NormalizationIssue)
  : Prop :=
  NormalizationService.type i = warning
  /\ (NormalizationService.field i = lit "name"
      \/ NormalizationService.field i = lit "phone"
      \/ NormalizationService.field i = lit "email")
  /\ NormalizationService.contactName i <> None.

(** From [r] to [r'] the issues grew by contact warnings, [k] at most. *)
Definition stepEffect (k : nat) (r r' : NormalizationService.Run) : Prop :=
  exists new,
    NormalizationService.run_issues r'
    = NormalizationService.run_issues r ++ new
    /\ Forall contactWarning new
    /\ length new <= k.

(** *** Deduplicator *)

(** The record [o] has a value wherever [c] has one. *)
Definition covers (o c : Contact) : Prop :=
  (name c <> [] -> name o <> [])
  /\ (truthy (role c) = true -> truthy (role o) = true)
  /\ (truthy (department c) = true -> truthy (department o) = true)
  /\ (truthy (phone c) = true -> truthy (phone o) = true)
  /\ (truthy (email c) = true -> truthy (email o) = true)
  /\ (truthy (notes c) = true -> truthy (notes o) = true).

(** Name, role, department, phone and email of [o] are each the value of
    some record of [cs]. *)
Definition drawnFrom (cs : list Contact) (o : Contact) : Prop :=
  In (name o) (map name cs)
  /\ In (role o) (map role cs)
  /\ In (department o) (map department cs)
  /\ In (phone o) (map phone cs)
  /\ In (email o) (map email cs).

(** *** Document processing *)

(** A result is a success with its document and no error, or a failure with
    a message that is not empty and no document. *)
Definition settledResult (r : ProcessorResult) : Prop :=
  (success r = true /\ (exists d, document r = Some d) /\ error r = None)
  \/ (success r = false /\ document r = None
      /\ exists u m, error r = Some (u :: m)).

(** The hint is one of the strings of [l]. *)
Definition hintAmong (hint : option str) (l : list str) : bool :=
  match hint with
  | Some h => existsb (eqb h) l
  | None => false
  end.

(** The MIME types the Word and the Excel processor take as a hint. *)
Definition WORD_TYPES : list str :=
  [lit "application/vnd.openxmlformats-officedocument.wordprocessingml.document";
   lit "application/msword"].

Definition EXCEL_TYPES : list str :=
  [lit "application/vnd.openxmlformats-officedocument.spreadsheetml.sheet";
   lit "application/vnd.ms-excel"].

(** The keywords of the first department of the table, Camera. *)
Definition cameraKeywords : list str :=
  [lit "camera"; lit "dp"; lit "dop"; lit "ac"; lit "steadicam"; lit "dit";
   lit "digi"; lit "photo"; lit "photographer"].

(** *** Extraction *)

(** The words before the content in the prompt for text extraction. *)
Definition promptHeading : str :=
  lit "Extract all contact information from this callsheet:" ++ [10%N; 10%N].

(** A text without a dollar sign. *)
Definition plain (s : str) : Prop := Forall (fun c => N.eqb c 36 = false) s.

(** The attempt failed in a way that is tried again. *)
Definition retryable (reply : OpenAIClient.Reply) (emptyMessage : str)
  : bool :=
  match OpenAIClient.attemptOnce reply emptyMessage with
  | inl message => OpenAIClient.isRetryable message
  | inr _ => false
  end.

(** The extraction [run] is settled by attempt [k]: every attempt before it
    failed in a way that is tried again, attempt [k] did not (or is the
    third), the delays slept are 1000 ms and 2000 ms as far as attempts were
    repeated, and the answer is that of attempt [k], a failure being
    reported with the words [failed] in front. *)
Definition settlesAt (call : nat -> OpenAIClient.Reply)
  (emptyMessage failed : str) (run : OpenAIClient.Outcome) (k : nat)
  : Prop :=
  1 <= k <= 3
  /\ (forall j, 1 <= j < k -> retryable (call j) emptyMessage = true)
  /\ (k < 3 -> retryable (call k) emptyMessage = false)
  /\ OpenAIClient.sleeps run = firstn (k - 1) [1000%N; 2000%N]
  /\ OpenAIClient.answer run
     = match OpenAIClient.attemptOnce (call k) emptyMessage with
       | inr result => inr result
       | inl message =>
           inl (failed ++ OpenAIClient.orUnknown (Some message))
       end.

End Notions.

(** Sample inputs. *)
Module Samples.
Import Js Types Document.

Definition noInfo : ProductionInfo :=
  {| title := None; production_company := None; shoot_date := None |}.

Definition person (n : str) (p r : option str) : Contact :=
  {| name := n; role := r; department := None; phone := p;
     email := None; notes := None; confidence := None |}.

(** The end-to-end scenario of the specification. *)
Definition daveTwice : ExtractionResult :=
  {| production_info := noInfo;
     contacts :=
       [ person (lit "dave o'neil") (Some (lit "5551234567")) (Some (lit "dp"));
         person (lit "Dave O'Neil") (Some (lit "555-123-4567")) None ];
     emergency_contacts := [];
     locations := [] |}.

Definition dave : Contact :=
  {| name := lit "Dave O'Neil";
     role := Some (lit "Director of Photography");
     department := Some (lit "Camera");
     phone := Some (lit "(555) 123-4567");
     email := None; notes := None; confidence := None |}.

Definition emptyExtraction : ExtractionResult :=
  {| production_info := noInfo; contacts := [];
     emergency_contacts := []; locations := [] |}.

(** Phones that hold no digit, on a contact, an emergency contact and a
    location. *)
Definition toBeDetermined : ExtractionResult :=
  {| production_info := noInfo;
     contacts := [ person (lit "Sam Lee") (Some (lit "ext. TBD")) None ];
     emergency_contacts :=
       [ {| ec_type := lit "Hospital"; ec_name := Some (lit "St. Mary");
            ec_phone := Some (lit "ext. TBD") |} ];
     locations :=
       [ {| loc_name := Some (lit "Stage 4"); loc_address := None;
            loc_phone := Some (lit "call office") |} ] |}.





(** A crew of two whose normalized roles the role table leaves alone, and
    the result of normalizing it under the default configuration. *)
Definition crew : ExtractionResult :=
  {| production_info := noInfo;
     contacts :=
       [ person (lit "sam lee") (Some (lit "5551234567")) (Some (lit "gaffer"));
         person (lit "ana de la cruz") (Some (lit "555-0199")) (Some (lit "Chef")) ];
     emergency_contacts :=
       [ {| ec_type := lit "Hospital"; ec_name := None;
            ec_phone := Some (lit "15559876543") |} ];
     locations := [] |}.

Definition crewNormalized : ExtractionResult :=
  {| production_info := noInfo;
     contacts :=
       [ {| name := lit "Sam Lee"; role := Some (lit "Gaffer");
            department := Some (lit "Grip & Electric");
            phone := Some (lit "(555) 123-4567");
            email := None; notes := None; confidence := None |};
         {| name := lit "Ana de la Cruz"; role := Some (lit "Chef");
            department := None;
            phone := Some (lit "555-0199");
            email := None; notes := None; confidence := None |} ];
     emergency_contacts :=
       [ {| ec_type := lit "Hospital"; ec_name := None;
            ec_phone := Some (lit "(555) 987-6543") |} ];
     locations := [] |}.

Definition crewRun : NormalizationService.NormalizationResult :=
  {| NormalizationService.data := crewNormalized;
     NormalizationService.stats :=
       {| NormalizationService.phonesNormalized := 1;
          NormalizationService.namesNormalized := 2;
          NormalizationService.rolesNormalized := 1;
          NormalizationService.departmentsInferred := 1;
          NormalizationService.duplicatesRemoved := 0;
          NormalizationService.totalContacts := 2 |};
     NormalizationService.issues := [] |}.

(** Three records whose keys meet only after a merge: the name of the first
    ends in what the key of the second appends. *)
Definition keysMeet : ExtractionResult :=
  {| production_info := noInfo;
     contacts :=
       [ person (lit "A|1234567") None None;
         person (lit "A") (Some (lit "123-4567")) None;
         person (lit "A|1234567") (Some (lit "123-4567")) None ];
     emergency_contacts := [];
     locations := [] |}.

(** A name that starts with U+00DF. *)
Definition sharpS : ExtractionResult :=
  {| production_info := noInfo;
     contacts := [ person [223%N; 120%N] None None ];
     emergency_contacts := [];
     locations := [] |}.

(** A role that spells a member every object inherits. *)
Definition builder : ExtractionResult :=
  {| production_info := noInfo;
     contacts := [ person (lit "Al Bo") None (Some (lit "Constructor")) ];
     emergency_contacts := [];
     locations := [] |}.

(** A platform none of whose tools is installed or answers. *)
Definition bare : Platform :=
  {| bufferFromBase64 := fun _ => [];
     bufferToBase64 := fun _ => [];
     bufferToUtf8 := fun _ => [];
     decodeURIComponent := fun s => inr s;
     extractRawText := fun _ => inl OtherValue;
     xlsxRead := fun _ => inl OtherValue;
     mkdir := None;
     writeFile := fun _ => None;
     pdfinfo := inl OtherValue;
     pdftotext := inl OtherValue;
     pdftoppm := fun _ => Some OtherValue;
     readdir := fun _ => inl OtherValue;
     readFile := fun _ => inl OtherValue |}.


(** A PDF with a text layer of a hundred and twenty letters. *)
Definition typeset : Platform :=
  {| bufferFromBase64 := fun _ => [37%N; 80%N; 68%N; 70%N];
     bufferToBase64 := fun _ => [];
     bufferToUtf8 := fun _ => [];
     decodeURIComponent := fun s => inr s;
     extractRawText := fun _ => inl OtherValue;
     xlsxRead := fun _ => inl OtherValue;
     mkdir := None;
     writeFile := fun _ => None;
     pdfinfo := inr (lit "2");
     pdftotext := inr (repeat 97%N 120);
     pdftoppm := fun _ => None;
     readdir := fun _ => inr [lit "input.pdf"];
     readFile := fun _ => inl OtherValue |}.

Definition pdfUrl : str := lit "data:application/pdf;base64,JVBERg==".

(** The renderer is not installed: the shell reports it. *)
Definition noRenderer : Platform :=
  {| bufferFromBase64 := fun _ => [37%N; 80%N; 68%N; 70%N];
     bufferToBase64 := fun _ => [];
     bufferToUtf8 := fun _ => [];
     decodeURIComponent := fun s => inr s;
     extractRawText := fun _ => inl OtherValue;
     xlsxRead := fun _ => inl OtherValue;
     mkdir := None;
     writeFile := fun _ => None;
     pdfinfo := inr [];
     pdftotext := inl (ErrorObject (lit "Command failed: /bin/sh: 1: pdftotext: not found"));
     pdftoppm := fun _ =>
       Some (ErrorObject (lit "Command failed: /bin/sh: 1: pdftoppm: not found"));
     readdir := fun _ => inr [lit "input.pdf"];
     readFile := fun _ => inl OtherValue |}.

End Samples.

(** Further sample inputs. *)
Module Cases.
Import Js Types Document.

(** The record of a run before its first contact. *)
Definition fresh : NormalizationService.Run :=
  {| NormalizationService.run_stats := Spec.unchangedStats 1;
     NormalizationService.run_issues := [] |}.

Definition samLee : Contact :=
  Samples.person (lit "sam lee") (Some (lit "5551234567")) (Some (lit "gaffer")).

(** A phone of five digits, and one written with the country code. *)
Definition shortPhone : Contact :=
  Samples.person (lit "Sam Lee") (Some (lit "555-01")) None.

Definition countryCode : Contact :=
  Samples.person (lit "Sam Lee") (Some (lit "1 (555) 123-4567")) None.

(** One contact with a name of one letter, a phone of three digits and an
    email without a domain. *)
Definition flawed : ExtractionResult :=
  {| production_info := Samples.noInfo;
     contacts :=
       [ {| name := lit "x"; role := None; department := None;
            phone := Some (lit "555"); email := Some (lit "Sam@");
            notes := None; confidence := None |} ];
     emergency_contacts := [];
     locations := [] |}.

Definition flawedRun : NormalizationService.NormalizationResult :=
  {| NormalizationService.data :=
       {| production_info := Samples.noInfo;
          contacts :=
            [ {| name := lit "X"; role := None; department := None;
                 phone := Some (lit "555"); email := Some (lit "sam@");
                 notes := None; confidence := None |} ];
          emergency_contacts := [];
          locations := [] |};
     NormalizationService.stats :=
       {| NormalizationService.phonesNormalized := 0;
          NormalizationService.namesNormalized := 1;
          NormalizationService.rolesNormalized := 0;
          NormalizationService.departmentsInferred := 0;
          NormalizationService.duplicatesRemoved := 0;
          NormalizationService.totalContacts := 1 |};
     NormalizationService.issues :=
       [ {| NormalizationService.type := warning;
            NormalizationService.field := lit "name";
            NormalizationService.contactName := Some (lit "x");
            NormalizationService.message :=
              lit "Invalid or incomplete name: " ++ NormalizationService.quote
              ++ lit "X" ++ NormalizationService.quote |};
         Notions.phoneWarning (lit "X") (lit "555");
         {| NormalizationService.type := warning;
            NormalizationService.field := lit "email";
            NormalizationService.contactName := Some (lit "X");
            NormalizationService.message :=
              lit "Invalid email format: " ++ NormalizationService.quote
              ++ lit "sam@" ++ NormalizationService.quote |} ] |}.

(** What the callback makes of [samLee]. *)
Definition samLeeDone : Contact :=
  {| name := lit "Sam Lee"; role := Some (lit "Gaffer");
     department := Some (lit "Grip & Electric");
     phone := Some (lit "(555) 123-4567");
     email := None; notes := None; confidence := None |}.

Definition samLeeRun : NormalizationService.Run :=
  {| NormalizationService.run_stats :=
       {| NormalizationService.phonesNormalized := 1;
          NormalizationService.namesNormalized := 1;
          NormalizationService.rolesNormalized := 1;
          NormalizationService.departmentsInferred := 1;
          NormalizationService.duplicatesRemoved := 0;
          NormalizationService.totalContacts := 1 |};
     NormalizationService.run_issues := [] |}.

(** Text pasted into the form, and the document the text processor makes
    of it. *)
Definition pasted : str := lit "Gaffer: Sam Lee 555-0101".

Definition pastedDocument : ProcessedDocument :=
  {| type := text;
     textContent := Some pasted;
     images := None;
     metadata :=
       {| originalFilename := lit "notes.txt";
          mimeType := lit "text/plain";
          size := 24;
          pageCount := None |};
     strategy := direct_text;
     requiresVision := false |}.

(** A Word file of the old format, as the browser reads it, and what
    [fileToDataUrl] makes of it. *)
Definition legacyDoc : FileUtils.File :=
  {| FileUtils.name := lit "Callsheet.DOC";
     FileUtils.type := [];
     FileUtils.readAsDataURL :=
       Some (lit "data:application/octet-stream;base64,0M8R4KGx");
     FileUtils.readText := None |}.

Definition legacyUrl : FileUtils.FileDataUrl :=
  {| FileUtils.dataUrl := lit "data:application/msword;base64,0M8R4KGx";
     FileUtils.fileType := FileUtils.word |}.


End Cases.

(* ================================================================== *)
(** * Properties *)
(* ================================================================== *)

Import Js Types Document.

(** ** Document router *)

Lemma trim_nil : trim [] = [].
Proof. reflexivity. Qed.

Lemma long_trim_not_nil (t : str) (n : N) :
  (0 < n)%N -> N.ltb (len (trim t)) n = false -> t <> [].
Proof.
  intros Hn H ->. rewrite trim_nil in H. unfold len in H. simpl in H.
  apply N.ltb_ge in H. lia.
Qed.

Lemma app_notice_not_nil (a b : str) : b <> [] -> a ++ b <> [].
Proof. intros Hb H. apply app_eq_nil in H. tauto. Qed.

Lemma not_nil_cons (A : Type) (l : list A) : l <> [] -> exists x r, l = x :: r.
Proof. destruct l as [|x r]; [congruence | eauto]. Qed.

Lemma text_result_wellFormed (ty : DocumentType) (t : str)
  (m : DocumentMetadata) (s : Strategy) :
  t <> [] ->
  Spec.wellFormed
    {| type := ty; textContent := Some t; images := None; metadata := m;
       strategy := s; requiresVision := false |}.
Proof.
  intros Ht. left. repeat split.
  destruct (not_nil_cons Ht) as (u & r & ->). exists u, r. reflexivity.
Qed.

Lemma image_result_wellFormed (ty : DocumentType) (l : list str)
  (m : DocumentMetadata) (s : Strategy) :
  l <> [] ->
  Spec.wellFormed
    {| type := ty; textContent := None; images := Some l; metadata := m;
       strategy := s; requiresVision := true |}.
Proof.
  intros Hl. right. repeat split.
  destruct (not_nil_cons Hl) as (u & r & ->). exists u, r. reflexivity.
Qed.

Lemma pdf_wellFormed io dataUrl filename :
  success (PdfProcessor.process io dataUrl filename) = true ->
  exists d, document (PdfProcessor.process io dataUrl filename) = Some d
            /\ Spec.wellFormed d.
Proof.
  unfold PdfProcessor.process, PdfProcessor.onError.
  destruct (mkdir io).
  { destruct (_ || _); discriminate. }
  destruct (startsWith dataUrl _); [|discriminate].
  destruct (captureRest _); [|discriminate].
  destruct (writeFile io _).
  { destruct (_ || _); discriminate. }
  destruct (N.leb _ _) eqn:Hlen.
  - intros _. eexists; split; [reflexivity|].
    apply text_result_wellFormed.
    apply (@long_trim_not_nil _ PdfProcessor.MIN_TEXT_LENGTH_THRESHOLD).
    + reflexivity.
    + apply N.ltb_ge. apply N.leb_le in Hlen. exact Hlen.
  - destruct (length _ =? 0) eqn:Himg; [discriminate|].
    intros _. eexists; split; [reflexivity|].
    apply image_result_wellFormed.
    intros E. rewrite E in Himg. discriminate.
Qed.

Lemma word_wellFormed io dataUrl filename :
  success (WordProcessor.process io dataUrl filename) = true ->
  exists d, document (WordProcessor.process io dataUrl filename) = Some d
            /\ Spec.wellFormed d.
Proof.
  unfold WordProcessor.process.
  destruct (matchBase64 _ _); [|discriminate].
  destruct (extractRawText io _) as [t|value]; [discriminate|].
  set (textContent := match orElse value (Some []) with
                      | Some v => v | None => [] end).
  destruct (N.ltb (len (trim textContent)) _) eqn:Hlen; [discriminate|].
  intros _. eexists; split; [reflexivity|].
  apply text_result_wellFormed.
  destruct (N.ltb _ (len textContent)).
  - apply app_notice_not_nil. discriminate.
  - apply (long_trim_not_nil (n := WordProcessor.MIN_TEXT_LENGTH)); [reflexivity|exact Hlen].
Qed.

Lemma excel_wellFormed io dataUrl filename :
  success (ExcelProcessor.process io dataUrl filename) = true ->
  exists d, document (ExcelProcessor.process io dataUrl filename) = Some d
            /\ Spec.wellFormed d.
Proof.
  unfold ExcelProcessor.process.
  destruct (matchBase64 _ _); [|discriminate].
  destruct (xlsxRead io _) as [t|sheets]; [discriminate|].
  destruct sheets as [|sheet sheets]; [discriminate|].
  set (textContent := join _ _).
  destruct (N.ltb (len (trim textContent)) _) eqn:Hlen; [discriminate|].
  intros _. eexists; split; [reflexivity|].
  apply text_result_wellFormed.
  destruct (N.ltb _ (len textContent)).
  - apply app_notice_not_nil. discriminate.
  - apply (long_trim_not_nil (n := ExcelProcessor.MIN_TEXT_LENGTH)); [reflexivity|exact Hlen].
Qed.

Lemma image_wellFormed io dataUrl filename :
  success (ImageProcessor.process io dataUrl filename) = true ->
  exists d, document (ImageProcessor.process io dataUrl filename) = Some d
            /\ Spec.wellFormed d.
Proof.
  unfold ImageProcessor.process.
  destruct (ImageProcessor.matchMime dataUrl); [|discriminate].
  destruct (negb _); [discriminate|].
  destruct (N.ltb _ _); [discriminate|].
  intros _. eexists; split; [reflexivity|].
  apply image_result_wellFormed. discriminate.
Qed.

Lemma smartTruncate_not_nil (t : str) (n : N) :
  N.ltb n (len t) = true -> TextProcessor.smartTruncate t n <> [].
Proof.
  intros H. unfold TextProcessor.smartTruncate.
  apply N.ltb_lt in H.
  destruct (N.leb (len t) n) eqn:E.
  - apply N.leb_le in E. lia.
  - apply app_notice_not_nil. discriminate.
Qed.

Lemma text_wellFormed io dataUrl filename :
  success (TextProcessor.process io dataUrl filename) = true ->
  exists d, document (TextProcessor.process io dataUrl filename) = Some d
            /\ Spec.wellFormed d.
Proof.
  unfold TextProcessor.process.
  match goal with |- context [match ?x with inl _ => _ | inr _ => _ end] =>
    destruct x as [t|textContent] end; [discriminate|].
  destruct (N.ltb (len (trim textContent)) _) eqn:Hlen; [discriminate|].
  intros _. eexists; split; [reflexivity|].
  apply text_result_wellFormed.
  destruct (N.ltb _ (len textContent)) eqn:Hmax.
  - apply smartTruncate_not_nil. exact Hmax.
  - apply (long_trim_not_nil (n := TextProcessor.MIN_TEXT_LENGTH)); [reflexivity|exact Hlen].
Qed.

(** C9.  Every successful result of one of the five adapters carries a
    document in which exactly one of [textContent] / [images] is present and
    not empty, and [requiresVision] is true exactly when it is [images]. *)
Theorem C9_successful_document_wellFormed :
  forall p io dataUrl filename,
    In p DocumentProcessingService.processors ->
    success (process p io dataUrl filename) = true ->
    exists d, document (process p io dataUrl filename) = Some d
              /\ Spec.wellFormed d.
Proof.
  intros p io dataUrl filename Hp.
  unfold DocumentProcessingService.processors in Hp. simpl in Hp.
  destruct Hp as [<-|[<-|[<-|[<-|[<-|[]]]]]]; simpl.
  - apply pdf_wellFormed.
  - apply word_wellFormed.
  - apply excel_wellFormed.
  - apply image_wellFormed.
  - apply text_wellFormed.
Qed.

Lemma C9_witness :
  In TextProcessor.processor DocumentProcessingService.processors
  /\ success (process TextProcessor.processor Samples.bare
                (lit "CALL SHEET - Day 1 of 3") (lit "sheet.txt")) = true
  /\ exists d,
       document (process TextProcessor.processor Samples.bare
                   (lit "CALL SHEET - Day 1 of 3") (lit "sheet.txt")) = Some d
       /\ Spec.wellFormed d.
Proof.
  assert (Hin : In TextProcessor.processor DocumentProcessingService.processors)
    by (simpl; tauto).
  assert (Hok : success (process TextProcessor.processor Samples.bare
                  (lit "CALL SHEET - Day 1 of 3") (lit "sheet.txt")) = true)
    by reflexivity.
  split; [exact Hin|]. split; [exact Hok|].
  exact (@C9_successful_document_wellFormed TextProcessor.processor
           Samples.bare (lit "CALL SHEET - Day 1 of 3") (lit "sheet.txt")
           Hin Hok).
Defined.

(** C7.  [detectType] answers one of the four types by priority (PDF marker
    or hint, then image marker or hint, then text marker, text hint or no
    [data:] prefix, else unknown), and [process] hands the input to the first
    of PDF, Word, Excel, Image, Text whose [canProcess] accepts it, returning
    that adapter's result as it is, or a failure when none accepts. *)
Theorem C7_detectType_and_dispatch :
  forall io content filename hint,
    let t := DocumentProcessingService.detectType content hint in
    (t = pdf \/ t = image \/ t = text \/ t = unknown)
    /\ (t = pdf <-> Spec.pdfMarked content hint = true)
    /\ (t = image <->
        Spec.pdfMarked content hint = false
        /\ Spec.imageMarked content hint = true)
    /\ (t = text <->
        Spec.pdfMarked content hint = false
        /\ Spec.imageMarked content hint = false
        /\ Spec.textMarked content hint = true)
    /\ (t = unknown <->
        Spec.pdfMarked content hint = false
        /\ Spec.imageMarked content hint = false
        /\ Spec.textMarked content hint = false)
    /\ DocumentProcessingService.processors =
         [ PdfProcessor.processor; WordProcessor.processor;
           ExcelProcessor.processor; ImageProcessor.processor;
           TextProcessor.processor ]
    /\ DocumentProcessingService.process io content filename hint =
         (if PdfProcessor.canProcess content hint
          then PdfProcessor.process io content filename
          else if WordProcessor.canProcess content hint
          then WordProcessor.process io content filename
          else if ExcelProcessor.canProcess content hint
          then ExcelProcessor.process io content filename
          else if ImageProcessor.canProcess content hint
          then ImageProcessor.process io content filename
          else if TextProcessor.canProcess content hint
          then TextProcessor.process io content filename
          else DocumentProcessingService.noProcessor)
    /\ success DocumentProcessingService.noProcessor = false.
Proof.
  intros io content filename hint t. subst t.
  unfold DocumentProcessingService.detectType.
  fold (Spec.pdfMarked content hint).
  fold (Spec.imageMarked content hint).
  fold (Spec.textMarked content hint).
  destruct (Spec.pdfMarked content hint);
    destruct (Spec.imageMarked content hint);
    destruct (Spec.textMarked content hint);
    (repeat split; try reflexivity; try tauto; try discriminate;
     try (intros; intuition discriminate)).
Qed.

(** ** PDF adapter *)









(** With the renderer missing, its failure is caught inside
    [convertToImages]; [process] reports a corrupt file, and the branch of
    its [catch] clause that names the missing tools is not reached. *)
Remark pdf_missing_renderer_reported_as_corrupt :
  error (PdfProcessor.process Samples.noRenderer Samples.pdfUrl (lit "a.pdf"))
  = Some (lit "Failed to convert PDF to images. The file may be corrupted.").
Proof. vm_compute. reflexivity. Qed.

(** ** Normalization service: the scenarios *)

(** C1.  The two records of Dave O'Neil come out as one, with the phone
    formatted, the role expanded, the department inferred, and one duplicate
    counted. *)
Theorem C1_end_to_end_scenario :
  exists r,
    NormalizationService.normalize NormalizationService.DEFAULT_CONFIG
      Samples.daveTwice = NormalizationService.Returns r
    /\ contacts (NormalizationService.data r) = [Samples.dave]
    /\ NormalizationService.duplicatesRemoved (NormalizationService.stats r) = 1.
Proof.
  set (out := NormalizationService.normalize _ _).
  vm_compute in out. subst out.
  eexists. split; [reflexivity|]. split; reflexivity.
Qed.

(** The lookup in the role table answers for [constructor] with a function
    of the runtime; the callback stores it as the role, and the run leaves
    the data model. *)
Remark inherited_member_escapes :
  RoleNormalizer.normalizeRole (Some (lit "Constructor"))
  = RoleNormalizer.RObject
  /\ NormalizationService.normalize NormalizationService.DEFAULT_CONFIG
       Samples.builder = NormalizationService.RoleEscapes.
Proof. split; vm_compute; reflexivity. Qed.

(** C6 (amended).  On an extraction without contacts [normalize] returns:
    the counters are all zero, [totalContacts] included, and the list of
    issues is empty, for the service has no structural check.  The warning
    about the empty contacts array is the one issue [validateExtraction]
    reports for such an input, and its severity is [warning]. *)
Theorem C6_empty_contacts :
  forall config e,
    contacts e = [] ->
    (exists r,
       NormalizationService.normalize config e = NormalizationService.Returns r
       /\ NormalizationService.stats r =
            {| NormalizationService.phonesNormalized := 0;
               NormalizationService.namesNormalized := 0;
               NormalizationService.rolesNormalized := 0;
               NormalizationService.departmentsInferred := 0;
               NormalizationService.duplicatesRemoved := 0;
               NormalizationService.totalContacts := 0 |}
       /\ NormalizationService.issues r = []
       /\ contacts (NormalizationService.data r) = [])
    /\ (exists i,
          validateExtraction e = [i]
          /\ v_field i = lit "contacts"
          /\ v_severity i = warning).
Proof.
  intros config e He. split.
  - unfold NormalizationService.normalize. rewrite He. simpl.
    destruct (NormalizationService.deduplicate config); simpl;
      eexists; repeat split; reflexivity.
  - unfold validateExtraction. rewrite He. simpl.
    eexists. repeat split; reflexivity.
Qed.

Lemma C6_witness :
  contacts Samples.emptyExtraction = []
  /\ exists r,
       NormalizationService.normalize NormalizationService.DEFAULT_CONFIG
         Samples.emptyExtraction = NormalizationService.Returns r
       /\ NormalizationService.totalContacts (NormalizationService.stats r) = 0
       /\ NormalizationService.issues r = [].
Proof.
  split; [reflexivity|].
  destruct (@C6_empty_contacts NormalizationService.DEFAULT_CONFIG
              Samples.emptyExtraction eq_refl) as [(r & Hr & Hs & Hi & _) _].
  exists r. split; [exact Hr|]. split; [|exact Hi].
  rewrite Hs. reflexivity.
Defined.

(** C6, as stated, fails: for the empty extraction the issues [normalize]
    returns hold no warning, being empty. *)
Lemma C6_counterexample :
  exists r,
    NormalizationService.normalize NormalizationService.DEFAULT_CONFIG
      Samples.emptyExtraction = NormalizationService.Returns r
    /\ ~ (exists i, In i (NormalizationService.issues r)
                    /\ NormalizationService.type i = warning).
Proof.
  eexists. split; [reflexivity|].
  simpl. intros (i & [] & _).
Qed.

(** ** Phone normalizer *)

Lemma filter_filter_implied (A : Type) (f g : A -> bool) (l : list A) :
  (forall x, f x = true -> g x = true) ->
  filter f (filter g l) = filter f l.
Proof.
  intros Hfg. induction l as [|x l IH]; simpl; [reflexivity|].
  destruct (g x) eqn:Hg; simpl.
  - now rewrite IH.
  - destruct (f x) eqn:Hf; [|exact IH].
    apply Hfg in Hf. congruence.
Qed.

Lemma digits_after_plus (s : str) :
  filter isDigit (filter (fun c => isDigit c || N.eqb c 43) s)
  = Spec.digitsOf s.
Proof.
  apply filter_filter_implied. intros x Hx. now rewrite Hx.
Qed.

(** The branches of [normalize] on the digits of its input. *)
Lemma phone_by_digits (d : str) :
  (if length d =? 0 then None
   else if length d =? 10 then Some (PhoneNormalizer.formatUS d)
   else if (length d =? 11) && startsWith d (lit "1")
   then Some (PhoneNormalizer.formatUS (substringFrom 1 d))
   else if 11 <? length d then Some (lit "+" ++ d)
   else if length d =? 7
   then Some (substring 0 3 d ++ lit "-" ++ substringFrom 3 d)
   else Some d)
  = match d with
    | [] => None
    | _ => Some (Spec.formatted d)
    end.
Proof.
  destruct d as [|o d]; [reflexivity|].
  do 10 (destruct d as [|? d]; [reflexivity|]).
  destruct d as [|? d].
  - cbn -[N.eqb]. rewrite (N.eqb_sym 49 o).
    destruct (N.eqb o 49); reflexivity.
  - reflexivity.
Qed.

Lemma phone_normalize_amended (s : str) :
  PhoneNormalizer.normalize (Some s) = Spec.phoneAsAmended s.
Proof.
  destruct s as [|u s]; [reflexivity|].
  unfold PhoneNormalizer.normalize, Spec.phoneAsAmended.
  cbv zeta. rewrite digits_after_plus.
  exact (phone_by_digits (Spec.digitsOf (u :: s))).
Qed.

Lemma phone_isValid_count (s : str) :
  PhoneNormalizer.isValid (Some s) = true
  <-> 7 <= length (Spec.digitsOf s) <= 15.
Proof.
  destruct s as [|u s].
  - simpl. split; [discriminate|lia].
  - unfold PhoneNormalizer.isValid. fold (Spec.digitsOf (u :: s)).
    rewrite andb_true_iff, !Nat.leb_le. tauto.
Qed.

Lemma phone_without_digits (s : str) :
  Spec.digitsOf s = [] -> PhoneNormalizer.normalize (Some s) = None.
Proof.
  intros H. rewrite phone_normalize_amended.
  unfold Spec.phoneAsAmended. now rewrite H.
Qed.

(** C3 (amended).  For every non-null input with at least one digit,
    [normalize] keeps the digits only and formats them by their count: 10
    digits as "(AAA) EEE-SSSS"; 11 digits with a leading 1 likewise without
    the 1; more than 11 as "+" and the digits; 7 as "EEE-SSSS"; otherwise the
    digits as they are.  With no digit the answer is [null].  [isValid]
    accepts exactly the phones with 7 to 15 digits. *)
Theorem C3_phone_normalize :
  (forall s, PhoneNormalizer.normalize (Some s) = Spec.phoneAsAmended s)
  /\ (forall s, PhoneNormalizer.isValid (Some s) = true
                <-> 7 <= length (Spec.digitsOf s) <= 15)
  /\ PhoneNormalizer.isValid None = false
  /\ PhoneNormalizer.normalize (Some (lit "555-123-4567"))
     = Some (lit "(555) 123-4567")
  /\ PhoneNormalizer.normalize (Some (lit "15551234567"))
     = Some (lit "(555) 123-4567")
  /\ PhoneNormalizer.normalize (Some (lit "+442012345678"))
     = Some (lit "+442012345678").
Proof.
  split; [exact phone_normalize_amended|].
  split; [exact phone_isValid_count|].
  repeat split; reflexivity.
Qed.

(** C3, as stated for every non-null input, fails where the input has no
    digit: the count is 0, the stated answer is the empty digit string, and
    [normalize] answers [null]. *)
Lemma C3_counterexample :
  length (Spec.digitsOf (lit "ext. TBD")) = 0
  /\ Spec.phoneAsStated (lit "ext. TBD") = Some []
  /\ PhoneNormalizer.normalize (Some (lit "ext. TBD")) = None
  /\ PhoneNormalizer.normalize (Some (lit "ext. TBD"))
     <> Spec.phoneAsStated (lit "ext. TBD").
Proof. repeat split; try reflexivity. discriminate. Qed.

(** C10.  A non-null phone without a digit normalizes to [null]; with phone
    normalization on, the contact callback then erases the phone and counts
    it as normalized without pushing an issue, and the emergency-contact and
    location callbacks erase it as well; the run on the sample shows all
    three erased and no issue reported. *)
Theorem C10_digitless_phone_erased_silently :
  forall s,
    Spec.digitsOf s = [] ->
    PhoneNormalizer.normalize (Some s) = None
    /\ (s <> [] ->
        forall config,
          NormalizationService.normalizePhones config = true ->
          (forall c run,
             phone c = Some s ->
             NormalizationService.phoneStep config (c, run)
             = (NormalizationService.withPhone c None,
                NormalizationService.bump NormalizationService.countPhone run)
             /\ NormalizationService.run_issues
                  (snd (NormalizationService.phoneStep config (c, run)))
                = NormalizationService.run_issues run)
          /\ (forall ec,
                ec_phone ec = Some s ->
                ec_phone (NormalizationService.normalizeEmergency config ec)
                = None)
          /\ (forall loc,
                loc_phone loc = Some s ->
                loc_phone (NormalizationService.normalizeLocation config loc)
                = None))
    /\ exists r,
         NormalizationService.normalize NormalizationService.DEFAULT_CONFIG
           Samples.toBeDetermined = NormalizationService.Returns r
         /\ map phone (contacts (NormalizationService.data r)) = [None]
         /\ map ec_phone (emergency_contacts (NormalizationService.data r))
            = [None]
         /\ map loc_phone (locations (NormalizationService.data r)) = [None]
         /\ NormalizationService.issues r = [].
Proof.
  intros s Hs. split; [exact (phone_without_digits s Hs)|]. split.
  - intros Hne config Hcfg.
    destruct s as [|u s]; [congruence|].
    assert (Hnone : PhoneNormalizer.normalize (Some (u :: s)) = None)
      by exact (phone_without_digits (u :: s) Hs).
    split; [|split].
    + intros c run Hc.
      assert (E : NormalizationService.phoneStep config (c, run)
                  = (NormalizationService.withPhone c None,
                     NormalizationService.bump
                       NormalizationService.countPhone run)).
      { unfold NormalizationService.phoneStep.
        rewrite Hcfg, Hc. cbn [truthy andb]. rewrite Hnone.
        reflexivity. }
      split; [exact E|]. rewrite E. reflexivity.
    + intros ec Hec. unfold NormalizationService.normalizeEmergency.
      rewrite Hcfg, Hec, Hnone. reflexivity.
    + intros loc Hloc. unfold NormalizationService.normalizeLocation.
      rewrite Hcfg, Hloc, Hnone. reflexivity.
  - set (out := NormalizationService.normalize _ _).
    vm_compute in out. subst out.
    eexists. split; [reflexivity|]. repeat split; reflexivity.
Qed.

Lemma C10_witness :
  Spec.digitsOf (lit "ext. TBD") = []
  /\ PhoneNormalizer.normalize (Some (lit "ext. TBD")) = None.
Proof.
  split; [reflexivity|].
  exact (proj1 (@C10_digitless_phone_erased_silently (lit "ext. TBD") eq_refl)).
Defined.

(** ** Deduplicator *)

Lemma eqb_eq (a b : str) : eqb a b = true <-> a = b.
Proof.
  revert b. induction a as [|x a IH]; intros [|y b]; simpl;
    try (split; [discriminate|congruence]); [tauto|].
  rewrite andb_true_iff, N.eqb_eq, IH.
  split; [intros [-> ->]; reflexivity | intros H; inversion H; auto].
Qed.

Lemma eqb_refl (a : str) : eqb a a = true.
Proof. now apply eqb_eq. Qed.

Lemma eqb_neq (a b : str) : eqb a b = false <-> a <> b.
Proof.
  rewrite <- eqb_eq. destruct (eqb a b); split; congruence.
Qed.

Lemma eqb_sym (a b : str) : eqb a b = eqb b a.
Proof.
  destruct (eqb a b) eqn:E; symmetry.
  - apply eqb_eq. apply eqb_eq in E. congruence.
  - apply eqb_neq. apply eqb_neq in E. congruence.
Qed.


Lemma mem_In (k : str) (l : list str) : Spec.mem k l = true <-> In k l.
Proof.
  unfold Spec.mem. rewrite existsb_exists. split.
  - intros (x & Hx & E). apply eqb_eq in E. now subst.
  - intros H. exists k. split; [exact H|apply eqb_refl].
Qed.

Lemma mem_false (k : str) (l : list str) : Spec.mem k l = false <-> ~ In k l.
Proof.
  rewrite <- mem_In. destruct (Spec.mem k l); split; congruence.
Qed.

Lemma flat_map_ext_In (A B : Type) (f g : A -> list B) (l : list A) :
  (forall x, In x l -> f x = g x) -> flat_map f l = flat_map g l.
Proof.
  induction l as [|a l IH]; simpl; intros H; [reflexivity|].
  rewrite (H a) by tauto. f_equal. apply IH. intros x Hx. apply H. tauto.
Qed.

Section KeyFacts.
Variable key : Contact -> str.

Lemma firstSeen_In seen cs k :
  In k (Spec.firstSeen key seen cs) <-> In k (map key cs) /\ ~ In k seen.
Proof.
  revert seen. induction cs as [|c cs IH]; intros seen; simpl.
  - tauto.
  - destruct (Spec.mem (key c) seen) eqn:E.
    + apply mem_In in E. rewrite IH. split.
      * intros [H1 H2]. tauto.
      * intros [[H1|H1] H2]; [subst; tauto|tauto].
    + apply mem_false in E. simpl. rewrite IH. simpl. split.
      * intros [H|[H1 H2]]; [subst; tauto|tauto].
      * intros [[H1|H1] H2]; [tauto|].
        destruct (list_eq_dec N.eq_dec (key c) k); tauto.
Qed.

Lemma firstSeen_NoDup seen cs : NoDup (Spec.firstSeen key seen cs).
Proof.
  revert seen. induction cs as [|c cs IH]; intros seen; simpl.
  - constructor.
  - destruct (Spec.mem (key c) seen); [apply IH|].
    constructor; [|apply IH].
    rewrite firstSeen_In. simpl. tauto.
Qed.

Lemma firstSeen_snoc seen cs c :
  Spec.firstSeen key seen (cs ++ [c])
  = Spec.firstSeen key seen cs
    ++ (if Spec.mem (key c) (seen ++ map key cs) then [] else [key c]).
Proof.
  revert seen. induction cs as [|a cs IH]; intros seen; simpl.
  - rewrite app_nil_r. destruct (Spec.mem (key c) seen); reflexivity.
  - destruct (Spec.mem (key a) seen) eqn:E.
    + rewrite IH. f_equal.
      assert (H : Spec.mem (key c) (seen ++ map key cs)
                  = Spec.mem (key c) (seen ++ key a :: map key cs)).
      { apply mem_In in E.
        destruct (Spec.mem (key c) (seen ++ map key cs)) eqn:E1;
          symmetry.
        - apply mem_In. apply mem_In in E1.
          rewrite in_app_iff in *. simpl. tauto.
        - apply mem_false. apply mem_false in E1.
          rewrite in_app_iff in *. simpl.
          intros [H|[H|H]]; [tauto| |tauto].
          rewrite <- H in *. tauto. }
      now rewrite H.
    + simpl. rewrite IH. f_equal. f_equal.
      assert (H : Spec.mem (key c) ((key a :: seen) ++ map key cs)
                  = Spec.mem (key c) (seen ++ key a :: map key cs)).
      { destruct (Spec.mem (key c) ((key a :: seen) ++ map key cs)) eqn:E1;
          symmetry.
        - apply mem_In. apply mem_In in E1.
          simpl in E1. rewrite in_app_iff in *. simpl. tauto.
        - apply mem_false. apply mem_false in E1.
          simpl in E1. rewrite in_app_iff in *. simpl. tauto. }
      now rewrite H.
Qed.

Lemma group_snoc k cs c :
  Spec.group key k (cs ++ [c])
  = Spec.group key k cs ++ (if eqb (key c) k then [c] else []).
Proof. unfold Spec.group. now rewrite filter_app. Qed.


End KeyFacts.

Section GroupingFacts.
Variable key : Contact -> str.
Variable merge : Contact -> Contact -> Contact.

Lemma mergeGroup_snoc g v c :
  Spec.mergeGroup merge g = [v] ->
  Spec.mergeGroup merge (g ++ [c]) = [merge v c].
Proof.
  destruct g as [|a g]; simpl; [discriminate|].
  intros H. inversion H. now rewrite fold_left_app.
Qed.

(** Every record of [grouped] is a group's first record with the later
    ones merged in; a property of all records that merging keeps holds of
    it. *)
Lemma grouped_Forall (P : Contact -> Prop) cs :
  (forall a b, P a -> P b -> P (merge a b)) ->
  Forall P cs -> Forall P (Spec.grouped key merge cs).
Proof.
  intros Hm Hcs. unfold Spec.grouped.
  apply Forall_flat_map. apply Forall_forall. intros k _.
  assert (Hg : Forall P (Spec.group key k cs)).
  { unfold Spec.group. apply Forall_forall. intros x Hx.
    apply filter_In in Hx. rewrite Forall_forall in Hcs. now apply Hcs. }
  destruct (Spec.group key k cs) as [|a g]; simpl; [constructor|].
  constructor; [|constructor].
  inversion Hg as [|? ? Ha Hrest]; subst. clear Hg.
  revert a Ha. induction g as [|b g IH]; simpl; intros a Ha; [exact Ha|].
  inversion Hrest; subst. apply IH; auto.
Qed.

End GroupingFacts.

Lemma mapGet_None m k :
  Deduplicator.mapGet m k = None <-> ~ In k (map fst m).
Proof.
  induction m as [|[k0 v] m IH]; simpl; [tauto|].
  destruct (eqb k0 k) eqn:E.
  - apply eqb_eq in E. split; [discriminate|tauto].
  - apply eqb_neq in E. rewrite IH. tauto.
Qed.

Lemma mapGet_mapSet m k v k' :
  Deduplicator.mapGet (Deduplicator.mapSet m k v) k'
  = if eqb k k' then Some v else Deduplicator.mapGet m k'.
Proof.
  induction m as [|[k0 v0] m IH]; simpl.
  - reflexivity.
  - destruct (eqb k0 k) eqn:E; simpl.
    + apply eqb_eq in E. subst k0. destruct (eqb k k'); reflexivity.
    + rewrite IH. destruct (eqb k0 k') eqn:E'; [|reflexivity].
      apply eqb_eq in E'. subst k0. now rewrite eqb_sym, E.
Qed.

Lemma mapSet_keys m k v :
  map fst (Deduplicator.mapSet m k v)
  = map fst m ++ (if Spec.mem k (map fst m) then [] else [k]).
Proof.
  induction m as [|[k0 v0] m IH]; simpl; [reflexivity|].
  unfold Spec.mem. simpl. rewrite (eqb_sym k k0).
  destruct (eqb k0 k) eqn:E; simpl.
  - now rewrite app_nil_r.
  - rewrite IH. reflexivity.
Qed.

Lemma mapValues_by_keys m :
  NoDup (map fst m) ->
  Deduplicator.mapValues m
  = flat_map (fun k => match Deduplicator.mapGet m k with
                       | Some v => [v]
                       | None => []
                       end) (map fst m).
Proof.
  unfold Deduplicator.mapValues.
  induction m as [|[k v] m IH]; simpl; intros Hnd; [reflexivity|].
  inversion Hnd as [|? ? Hnotin Hnd']; subst.
  rewrite eqb_refl. simpl. f_equal. rewrite (IH Hnd').
  apply flat_map_ext_In. intros k' Hk'.
  destruct (eqb k k') eqn:E; [|reflexivity].
  apply eqb_eq in E. subst. contradiction.
Qed.

Lemma dedup_step_invariant pre st c :
  Spec.dedupInvariant pre st ->
  Spec.dedupInvariant (pre ++ [c]) (Deduplicator.step st c).
Proof.
  destruct st as [m n]. unfold Spec.dedupInvariant. cbn [fst snd].
  intros (Hkeys & Hvals & Hcount).
  set (k0 := Deduplicator.generateKey c).
  assert (Hmem : Spec.mem k0 (map fst m)
                 = Spec.mem k0 ([] ++ map Deduplicator.generateKey pre)).
  { simpl. destruct (Spec.mem k0 (map fst m)) eqn:E; symmetry.
    - apply mem_In. apply mem_In in E. rewrite Hkeys in E.
      apply firstSeen_In in E. tauto.
    - apply mem_false. apply mem_false in E. rewrite Hkeys in E.
      rewrite firstSeen_In in E. simpl in E. tauto. }
  assert (Hstep :
    exists v,
      Deduplicator.step (m, n) c
      = (Deduplicator.mapSet m k0 v,
         if Spec.mem k0 (map fst m) then S n else n)
      /\ Spec.mergeGroup Deduplicator.mergeContacts
           (Spec.group Deduplicator.generateKey k0 (pre ++ [c])) = [v]).
  { unfold Deduplicator.step. fold k0.
    specialize (Hvals k0) as Hv. rewrite group_snoc. fold k0.
    rewrite eqb_refl.
    destruct (Deduplicator.mapGet m k0) as [existing|] eqn:G.
    - exists (Deduplicator.mergeContacts existing c). split.
      + f_equal. destruct (Spec.mem k0 (map fst m)) eqn:E; [reflexivity|].
        apply mem_false in E. apply mapGet_None in E. congruence.
      + now apply mergeGroup_snoc.
    - exists c. split.
      + f_equal. destruct (Spec.mem k0 (map fst m)) eqn:E; [|reflexivity].
        apply mem_In in E. apply mapGet_None in G. contradiction.
      + destruct (Spec.group Deduplicator.generateKey k0 pre); [reflexivity|].
        discriminate. }
  destruct Hstep as (v & -> & Hv). cbn [fst snd].
  split; [|split].
  - rewrite mapSet_keys, Hmem, firstSeen_snoc, Hkeys. reflexivity.
  - intros k. rewrite mapGet_mapSet.
    destruct (eqb k0 k) eqn:E.
    + apply eqb_eq in E. subst k. exact Hv.
    + rewrite group_snoc. fold k0. rewrite E, app_nil_r. apply Hvals.
  - assert (Hlen : length (Deduplicator.mapSet m k0 v)
                   = length (map fst (Deduplicator.mapSet m k0 v)))
      by now rewrite length_map.
    rewrite Hlen, mapSet_keys, !length_app, length_map.
    destruct (Spec.mem k0 (map fst m)); simpl; lia.
Qed.

Lemma dedup_loop_invariant rest pre st :
  Spec.dedupInvariant pre st ->
  Spec.dedupInvariant (pre ++ rest) (fold_left Deduplicator.step rest st).
Proof.
  revert pre st. induction rest as [|c rest IH]; intros pre st H; simpl.
  - now rewrite app_nil_r.
  - replace (pre ++ c :: rest) with ((pre ++ [c]) ++ rest)
      by (rewrite <- app_assoc; reflexivity).
    apply IH. now apply dedup_step_invariant.
Qed.

(** The loop of [deduplicate] computes the grouping by key. *)
Lemma deduplicate_grouped cs :
  Deduplicator.contacts (Deduplicator.deduplicate cs)
  = Spec.grouped Deduplicator.generateKey Deduplicator.mergeContacts cs
  /\ Deduplicator.removedCount (Deduplicator.deduplicate cs)
       + length (Spec.firstSeen Deduplicator.generateKey [] cs)
     = length cs.
Proof.
  assert (Hinv : Spec.dedupInvariant cs
                   (fold_left Deduplicator.step cs ([], 0))).
  { apply (dedup_loop_invariant cs (pre := []) (st := ([], 0))).
    unfold Spec.dedupInvariant. simpl. repeat split. }
  assert (Hgoal :
    let (mergedMap, removedCount) :=
      fold_left Deduplicator.step cs ([], 0) in
    Deduplicator.mapValues mergedMap
    = Spec.grouped Deduplicator.generateKey Deduplicator.mergeContacts cs
    /\ removedCount
         + length (Spec.firstSeen Deduplicator.generateKey [] cs)
       = length cs).
  { destruct (fold_left Deduplicator.step cs ([], 0)) as [m n].
    destruct Hinv as (Hkeys & Hvals & Hcount). simpl in *.
    split.
    - rewrite mapValues_by_keys
        by (rewrite Hkeys; apply firstSeen_NoDup).
      unfold Spec.grouped. rewrite Hkeys.
      apply flat_map_ext_In. intros k _. symmetry. apply Hvals.
    - rewrite <- Hkeys, length_map. exact Hcount. }
  unfold Deduplicator.deduplicate.
  destruct cs as [|c cs]; [split; reflexivity|].
  destruct (fold_left Deduplicator.step (c :: cs) ([], 0)) as [m n].
  exact Hgoal.
Qed.

Lemma generateKey_amended c :
  Deduplicator.generateKey c = Spec.keyAsAmended c.
Proof.
  unfold Deduplicator.generateKey, Spec.keyAsAmended, Spec.phoneKey,
    Spec.nameKey, Spec.digitsOf.
  destruct (7 <=? _); [reflexivity|].
  destruct (email c) as [e|]; [|reflexivity].
  destruct (trim (toLowerCase e)); reflexivity.
Qed.






(** ** Name normalizer *)

(** A property of ASCII units can be checked unit by unit. *)
Lemma ascii_cases (p : N -> bool) :
  forallb p (map N.of_nat (seq 0 128)) = true ->
  forall c, (c < 128)%N -> p c = true.
Proof.
  intros H c Hc. rewrite forallb_forall in H. apply H.
  apply in_map_iff. exists (N.to_nat c). split; [lia|].
  apply in_seq. lia.
Qed.

Lemma ascii_case_mapping c :
  (c < 128)%N ->
  upper_unit c = [Spec.upper1 c]
  /\ (Spec.upper1 c < 128)%N
  /\ (lower_unit c < 128)%N
  /\ lower_unit (Spec.upper1 c) = lower_unit c
  /\ lower_unit (lower_unit c) = lower_unit c
  /\ Spec.upper1 (Spec.upper1 c) = Spec.upper1 c
  /\ isWhiteSpace (Spec.upper1 c) = isWhiteSpace c
  /\ isWhiteSpace (lower_unit c) = isWhiteSpace c
  /\ N.eqb (Spec.upper1 c) 45 = N.eqb c 45
  /\ N.eqb (lower_unit c) 45 = N.eqb c 45.
Proof.
  intros Hc.
  pose (p := fun c =>
    eqb (upper_unit c) [Spec.upper1 c]
    && N.ltb (Spec.upper1 c) 128
    && N.ltb (lower_unit c) 128
    && N.eqb (lower_unit (Spec.upper1 c)) (lower_unit c)
    && N.eqb (lower_unit (lower_unit c)) (lower_unit c)
    && N.eqb (Spec.upper1 (Spec.upper1 c)) (Spec.upper1 c)
    && Bool.eqb (isWhiteSpace (Spec.upper1 c)) (isWhiteSpace c)
    && Bool.eqb (isWhiteSpace (lower_unit c)) (isWhiteSpace c)
    && Bool.eqb (N.eqb (Spec.upper1 c) 45) (N.eqb c 45)
    && Bool.eqb (N.eqb (lower_unit c) 45) (N.eqb c 45)).
  assert (H : p c = true) by (apply ascii_cases; [vm_compute; reflexivity|exact Hc]).
  unfold p in H.
  repeat (apply andb_true_iff in H; destruct H as [H ?]).
  repeat split;
    first [ now apply eqb_eq | now apply N.ltb_lt | now apply N.eqb_eq
          | now apply Bool.eqb_prop ].
Qed.

Lemma all_ascii_cons c w : all_ascii (c :: w) <-> (c < 128)%N /\ all_ascii w.
Proof.
  unfold all_ascii. split; [intros H; inversion H; auto|].
  intros [? ?]. now constructor.
Qed.

Lemma all_ascii_app a b : all_ascii (a ++ b) <-> all_ascii a /\ all_ascii b.
Proof. unfold all_ascii. apply Forall_app. Qed.

Lemma toLowerCase_ascii w : all_ascii w -> all_ascii (toLowerCase w).
Proof.
  unfold all_ascii, toLowerCase. intros H. apply Forall_map.
  eapply Forall_impl; [|exact H]. intros c Hc.
  now apply ascii_case_mapping.
Qed.

Lemma toLowerCase_idem w :
  all_ascii w -> toLowerCase (toLowerCase w) = toLowerCase w.
Proof.
  unfold toLowerCase. induction 1 as [|c w Hc _ IH]; simpl; [reflexivity|].
  rewrite IH. f_equal. now apply ascii_case_mapping.
Qed.

Lemma capitalize_ascii w :
  all_ascii w -> NameNormalizer.capitalize w = Spec.capitalized w.
Proof.
  destruct w as [|c r]; [reflexivity|].
  intros H. apply all_ascii_cons in H. destruct H as [Hc _].
  unfold NameNormalizer.capitalize, Spec.capitalized, toUpperCase,
    toLowerCase, charAt0, slice1.
  simpl. rewrite app_nil_r.
  destruct (ascii_case_mapping Hc) as (-> & _). reflexivity.
Qed.

Lemma capitalized_ascii w : all_ascii w -> all_ascii (Spec.capitalized w).
Proof.
  destruct w as [|c r]; [intros _; constructor|].
  intros H. apply all_ascii_cons in H. destruct H as [Hc Hr].
  simpl. apply all_ascii_cons. split.
  - now apply ascii_case_mapping.
  - now apply toLowerCase_ascii.
Qed.

Lemma capitalized_lower w :
  all_ascii w -> toLowerCase (Spec.capitalized w) = toLowerCase w.
Proof.
  destruct w as [|c r]; [reflexivity|].
  intros H. apply all_ascii_cons in H. destruct H as [Hc Hr].
  unfold toLowerCase. simpl. f_equal.
  - now apply ascii_case_mapping.
  - now apply toLowerCase_idem.
Qed.

Lemma capitalized_idem w :
  all_ascii w -> Spec.capitalized (Spec.capitalized w) = Spec.capitalized w.
Proof.
  destruct w as [|c r]; [reflexivity|].
  intros H. apply all_ascii_cons in H. destruct H as [Hc Hr].
  simpl. f_equal.
  - now apply ascii_case_mapping.
  - now apply toLowerCase_idem.
Qed.

Lemma capitalize_idem w :
  all_ascii w ->
  NameNormalizer.capitalize (NameNormalizer.capitalize w)
  = NameNormalizer.capitalize w.
Proof.
  intros H. rewrite (capitalize_ascii H).
  rewrite capitalize_ascii by now apply capitalized_ascii.
  now apply capitalized_idem.
Qed.

Lemma capitalized_length w : length (Spec.capitalized w) = length w.
Proof. destruct w; simpl; [reflexivity|]. now rewrite length_map. Qed.

Lemma toLowerCase_no_space w :
  all_ascii w ->
  Forall (fun c => isWhiteSpace c = false) w ->
  Forall (fun c => isWhiteSpace c = false) (toLowerCase w).
Proof.
  unfold toLowerCase. induction 1 as [|c w Hc _ IH]; intros H; simpl.
  - constructor.
  - inversion H; subst. constructor; [|now apply IH].
    destruct (ascii_case_mapping Hc) as (_ & _ & _ & _ & _ & _ & _ & -> & _).
    assumption.
Qed.

Lemma capitalized_no_space w :
  all_ascii w ->
  Forall (fun c => isWhiteSpace c = false) w ->
  Forall (fun c => isWhiteSpace c = false) (Spec.capitalized w).
Proof.
  destruct w as [|c r]; [intros _ _; constructor|].
  intros H Hw. apply all_ascii_cons in H. destruct H as [Hc Hr].
  inversion Hw; subst. simpl. constructor.
  - destruct (ascii_case_mapping Hc) as (_ & _ & _ & _ & _ & _ & -> & _).
    assumption.
  - now apply toLowerCase_no_space.
Qed.

Lemma toLowerCase_hyphen w :
  all_ascii w ->
  existsb (N.eqb 45) (toLowerCase w) = existsb (N.eqb 45) w.
Proof.
  unfold toLowerCase. induction 1 as [|c w Hc _ IH]; [reflexivity|].
  cbn [map existsb]. rewrite IH.
  rewrite (N.eqb_sym 45 (lower_unit c)), (N.eqb_sym 45 c).
  destruct (ascii_case_mapping Hc) as (_ & _ & _ & _ & _ & _ & _ & _ & _ & ->).
  reflexivity.
Qed.

Lemma capitalized_hyphen w :
  all_ascii w ->
  existsb (N.eqb 45) (Spec.capitalized w) = existsb (N.eqb 45) w.
Proof.
  destruct w as [|c r]; [reflexivity|].
  intros H. apply all_ascii_cons in H. destruct H as [Hc Hr].
  unfold Spec.capitalized. cbn [existsb].
  fold (toLowerCase r). rewrite (toLowerCase_hyphen Hr).
  rewrite (N.eqb_sym 45 (Spec.upper1 c)), (N.eqb_sym 45 c).
  destruct (ascii_case_mapping Hc) as (_ & _ & _ & _ & _ & _ & _ & _ & -> & _).
  reflexivity.
Qed.

(** *** Splitting and joining *)

Lemma split_not_nil sep s : split sep s <> [].
Proof.
  destruct s as [|c r]; simpl; [discriminate|].
  destruct (N.eqb c sep); [discriminate|].
  destruct (split sep r); discriminate.
Qed.

Lemma join_cons sep w v rest :
  join sep (w :: v :: rest) = w ++ sep ++ join sep (v :: rest).
Proof. reflexivity. Qed.

Lemma join_split sep s : join [sep] (split sep s) = s.
Proof.
  induction s as [|c r IH]; simpl; [reflexivity|].
  destruct (N.eqb c sep) eqn:E.
  - apply N.eqb_eq in E. subst c.
    destruct (split sep r) as [|w ws] eqn:Es;
      [now apply split_not_nil in Es|].
    rewrite join_cons. cbn [app]. now rewrite IH.
  - destruct (split sep r) as [|w ws] eqn:Es;
      [now apply split_not_nil in Es|].
    destruct ws as [|v ws].
    + cbn [join] in *. now rewrite IH.
    + rewrite join_cons in *. rewrite <- app_comm_cons. now rewrite IH.
Qed.

Lemma split_free sep s :
  Forall (Forall (fun c => N.eqb c sep = false)) (split sep s).
Proof.
  induction s as [|c r IH]; simpl.
  - repeat constructor.
  - destruct (N.eqb c sep) eqn:E.
    + constructor; [constructor|exact IH].
    + destruct (split sep r) as [|w ws]; [repeat constructor; exact E|].
      inversion IH; subst. constructor; [|assumption].
      constructor; assumption.
Qed.

Lemma split_Forall (P : N -> Prop) sep s :
  Forall P s -> Forall (Forall P) (split sep s).
Proof.
  induction 1 as [|c r Hc _ IH]; simpl.
  - repeat constructor.
  - destruct (N.eqb c sep).
    + constructor; [constructor|exact IH].
    + destruct (split sep r) as [|w ws]; [repeat constructor; exact Hc|].
      inversion IH; subst. constructor; [|assumption].
      constructor; assumption.
Qed.

Lemma split_app_free sep w s :
  Forall (fun c => N.eqb c sep = false) w ->
  split sep (w ++ s)
  = match split sep s with
    | v :: vs => (w ++ v) :: vs
    | [] => [w]
    end.
Proof.
  induction 1 as [|c w Hc _ IH]; simpl.
  - destruct (split sep s) eqn:E; [now apply split_not_nil in E|reflexivity].
  - rewrite Hc, IH. destruct (split sep s); reflexivity.
Qed.

Lemma split_join sep parts :
  parts <> [] ->
  Forall (Forall (fun c => N.eqb c sep = false)) parts ->
  split sep (join [sep] parts) = parts.
Proof.
  induction parts as [|w rest IH]; [congruence|].
  intros _ H. inversion H as [|? ? Hw Hrest]; subst.
  destruct rest as [|v rest].
  - simpl. rewrite <- (app_nil_r w) at 1.
    rewrite (@split_app_free sep w [] Hw). cbn [split].
    now rewrite app_nil_r.
  - rewrite join_cons. rewrite (@split_app_free sep w _ Hw).
    change ([sep] ++ join [sep] (v :: rest)) with (sep :: join [sep] (v :: rest)).
    cbn [split]. rewrite N.eqb_refl.
    rewrite IH by (congruence || assumption).
    now rewrite app_nil_r.
Qed.

Lemma toLowerCase_join sep parts :
  toLowerCase (join sep parts)
  = join (toLowerCase sep) (map toLowerCase parts).
Proof.
  unfold toLowerCase.
  induction parts as [|w rest IH]; [reflexivity|].
  destruct rest as [|v rest]; [reflexivity|].
  rewrite join_cons. cbn [map]. rewrite join_cons.
  rewrite !map_app. now rewrite IH.
Qed.

Lemma includes_unit s x : includes s [x] = existsb (N.eqb x) s.
Proof.
  induction s as [|y s IH]; [reflexivity|].
  cbn [includes existsb]. rewrite IH.
  replace (startsWith (y :: s) [x]) with (N.eqb x y); [reflexivity|].
  cbn [startsWith]. destruct s; now rewrite andb_true_r.
Qed.

(** *** One word *)

Lemma join_Forall (P : N -> Prop) sep parts :
  Forall P sep -> Forall (Forall P) parts -> Forall P (join sep parts).
Proof.
  intros Hsep. induction 1 as [|w rest Hw Hrest IH]; [constructor|].
  destruct rest as [|v rest]; [exact Hw|].
  rewrite join_cons. apply Forall_app. split; [exact Hw|].
  apply Forall_app. split; [exact Hsep|exact IH].
Qed.

Lemma Forall_drop (A : Type) (P : A -> Prop) (n : nat) (l : list A) :
  Forall P l -> Forall P (skipn n l).
Proof.
  revert l. induction n as [|n IH]; intros l H; [exact H|].
  destruct l as [|x l]; [constructor|].
  inversion H; subst. cbn [skipn]. now apply IH.
Qed.

Lemma applyPrefixes_select prefixes w lw :
  NameNormalizer.applyPrefixes prefixes w lw
  = option_map
      (fun p => Spec.shownPrefix p
                ++ NameNormalizer.capitalize (substringFrom (length p) w))
      (Spec.selectPrefix prefixes lw).
Proof.
  induction prefixes as [|p more IH]; [reflexivity|].
  cbn [NameNormalizer.applyPrefixes Spec.selectPrefix].
  destruct (startsWith lw p && (length p <? length lw)); [|exact IH].
  unfold Spec.shownPrefix. cbn [option_map].
  destruct (eqb p (lit "o'")); reflexivity.
Qed.

Lemma selectPrefix_Some prefixes lw p :
  Spec.selectPrefix prefixes lw = Some p ->
  In p prefixes /\ startsWith lw p = true /\ length p < length lw.
Proof.
  induction prefixes as [|q more IH]; [discriminate|].
  cbn [Spec.selectPrefix].
  destruct (startsWith lw q && (length q <? length lw)) eqn:E.
  - intros H. inversion H; subst.
    apply andb_true_iff in E. destruct E as [E1 E2].
    apply Nat.ltb_lt in E2. simpl. tauto.
  - intros H. destruct (IH H) as (? & ? & ?). simpl. tauto.
Qed.

Lemma startsWith_split s p :
  startsWith s p = true -> s = p ++ skipn (length p) s.
Proof.
  revert s. induction p as [|x p IH]; intros s H; [reflexivity|].
  destruct s as [|y s]; [discriminate|].
  cbn [startsWith] in H. apply andb_true_iff in H. destruct H as [E H].
  apply N.eqb_eq in E. subst y. cbn [length skipn app].
  f_equal. now apply IH.
Qed.

Lemma special_prefix_shown p :
  In p NameNormalizer.specialPrefixes ->
  all_ascii (Spec.shownPrefix p)
  /\ toLowerCase (Spec.shownPrefix p) = p
  /\ length (Spec.shownPrefix p) = length p
  /\ Forall (fun c => isWhiteSpace c = false) (Spec.shownPrefix p).
Proof.
  intros [<-|[<-|[<-|[]]]]; vm_compute;
    (split; [repeat constructor|]);
    (split; [reflexivity|]); (split; [reflexivity|]);
    repeat constructor.
Qed.

Lemma normalizeWord_unfold i w :
  w <> [] ->
  NameNormalizer.normalizeWord i w
  = match Spec.selectPrefix NameNormalizer.specialPrefixes (toLowerCase w) with
    | Some p =>
        Spec.shownPrefix p
        ++ NameNormalizer.capitalize (substringFrom (length p) w)
    | None =>
        if (0 <? i)
           && existsb (eqb (toLowerCase w)) NameNormalizer.lowercaseWords
        then toLowerCase w
        else if existsb (N.eqb 45) w
        then join [45%N] (map NameNormalizer.capitalize (split 45 w))
        else NameNormalizer.capitalize w
    end.
Proof.
  intros Hw. destruct w as [|c r]; [congruence|].
  unfold NameNormalizer.normalizeWord.
  rewrite applyPrefixes_select.
  destruct (Spec.selectPrefix _ _); [reflexivity|].
  cbn [option_map]. change (lit "-") with [45%N].
  now rewrite includes_unit.
Qed.

Lemma lower_same_length (a b : str) :
  toLowerCase a = toLowerCase b -> length a = length b.
Proof.
  intros H. apply (f_equal (@length N)) in H.
  unfold toLowerCase in H. now rewrite !length_map in H.
Qed.

Lemma capitalized_free w :
  all_ascii w ->
  Forall (fun c => N.eqb c 45 = false) w ->
  Forall (fun c => N.eqb c 45 = false) (Spec.capitalized w).
Proof.
  destruct w as [|c r]; [intros _ _; constructor|].
  intros H Hw. apply all_ascii_cons in H. destruct H as [Hc Hr].
  inversion Hw as [|? ? Hc45 Hr45]; subst.
  unfold Spec.capitalized. constructor.
  - destruct (ascii_case_mapping Hc) as (_ & _ & _ & _ & _ & _ & _ & _ & -> & _).
    exact Hc45.
  - clear Hw Hc Hc45. induction Hr45 as [|d r Hd _ IH]; [constructor|].
    apply all_ascii_cons in Hr. destruct Hr as [Hd' Hr].
    cbn [map]. constructor; [|now apply IH].
    destruct (ascii_case_mapping Hd') as (_ & _ & _ & _ & _ & _ & _ & _ & _ & ->).
    exact Hd.
Qed.

Lemma map_capitalize_ascii segs :
  Forall all_ascii segs ->
  map NameNormalizer.capitalize segs = map Spec.capitalized segs.
Proof.
  induction 1 as [|w segs Hw _ IH]; [reflexivity|].
  cbn [map]. now rewrite IH, capitalize_ascii.
Qed.

(** What [normalizeWord] does to an ASCII word: the result is ASCII, has
    the same lower-case form, keeps being free of white space, and is left
    alone by a second pass. *)
Lemma normalizeWord_settled i w :
  all_ascii w -> w <> [] ->
  all_ascii (NameNormalizer.normalizeWord i w)
  /\ toLowerCase (NameNormalizer.normalizeWord i w) = toLowerCase w
  /\ (Forall (fun c => isWhiteSpace c = false) w ->
      Forall (fun c => isWhiteSpace c = false)
             (NameNormalizer.normalizeWord i w))
  /\ NameNormalizer.normalizeWord i (NameNormalizer.normalizeWord i w)
     = NameNormalizer.normalizeWord i w.
Proof.
  intros Ha Hne.
  assert (Hidem : forall w',
            all_ascii w' -> toLowerCase w' = toLowerCase w ->
            w' <> []
            /\ existsb (N.eqb 45) w' = existsb (N.eqb 45) w).
  { intros w' Ha' Hl. split.
    - apply lower_same_length in Hl. destruct w', w; simpl in *; congruence.
    - rewrite <- (toLowerCase_hyphen Ha'), Hl. now apply toLowerCase_hyphen. }
  rewrite (normalizeWord_unfold i Hne).
  destruct (Spec.selectPrefix NameNormalizer.specialPrefixes (toLowerCase w))
    as [p|] eqn:Esel.
  - (* a special prefix *)
    destruct (selectPrefix_Some _ _ Esel) as (Hin & Hstart & Hlen).
    destruct (special_prefix_shown Hin) as (HDa & HDl & HDn & HDs).
    set (rest := substringFrom (length p) w).
    assert (Hra : all_ascii rest)
      by (unfold rest, substringFrom, all_ascii; now apply Forall_drop).
    rewrite (capitalize_ascii Hra).
    set (w' := Spec.shownPrefix p ++ Spec.capitalized rest).
    assert (Ha' : all_ascii w').
    { apply all_ascii_app. split; [exact HDa|now apply capitalized_ascii]. }
    assert (Hl' : toLowerCase w' = toLowerCase w).
    { assert (Hw : toLowerCase w = p ++ toLowerCase rest).
      { rewrite (startsWith_split _ _ Hstart) at 1.
        f_equal. unfold rest, substringFrom, toLowerCase.
        now rewrite skipn_map. }
      rewrite Hw. unfold w', toLowerCase. rewrite map_app.
      fold (toLowerCase (Spec.shownPrefix p)).
      fold (toLowerCase (Spec.capitalized rest)).
      fold (toLowerCase rest).
      now rewrite HDl, (capitalized_lower Hra). }
    split; [exact Ha'|]. split; [exact Hl'|]. split.
    + intros Hs. apply Forall_app. split; [exact HDs|].
      apply (capitalized_no_space Hra).
      unfold rest, substringFrom. now apply Forall_drop.
    + destruct (Hidem w' Ha' Hl') as [Hne' _].
      rewrite (normalizeWord_unfold i Hne'), Hl', Esel.
      unfold w' at 1. unfold substringFrom.
      rewrite skipn_app, <- HDn, skipn_all, Nat.sub_diag. cbn [skipn app].
      rewrite capitalize_ascii by now apply capitalized_ascii.
      now rewrite (capitalized_idem Hra).
  - destruct ((0 <? i)
              && existsb (eqb (toLowerCase w)) NameNormalizer.lowercaseWords)
      eqn:Epart.
    + (* a particle after the first word *)
      assert (Ha' : all_ascii (toLowerCase w)) by now apply toLowerCase_ascii.
      assert (Hl' : toLowerCase (toLowerCase w) = toLowerCase w)
        by now apply toLowerCase_idem.
      split; [exact Ha'|]. split; [exact Hl'|]. split.
      * intros Hs. now apply toLowerCase_no_space.
      * destruct (Hidem _ Ha' Hl') as [Hne' _].
        now rewrite (normalizeWord_unfold i Hne'), Hl', Esel, Epart.
    + destruct (existsb (N.eqb 45) w) eqn:Ehyph.
      * (* hyphenated *)
        assert (Hsa : Forall all_ascii (split 45 w))
          by (apply split_Forall; exact Ha).
        rewrite (map_capitalize_ascii Hsa).
        set (w' := join [45%N] (map Spec.capitalized (split 45 w))).
        assert (Hca : Forall all_ascii (map Spec.capitalized (split 45 w))).
        { apply Forall_map. eapply Forall_impl; [|exact Hsa].
          intros s. apply capitalized_ascii. }
        assert (Ha' : all_ascii w').
        { apply join_Forall; [repeat constructor|exact Hca]. }
        assert (Hl' : toLowerCase w' = toLowerCase w).
        { unfold w'. rewrite toLowerCase_join, map_map.
          rewrite <- (join_split 45 w) at 2. rewrite toLowerCase_join.
          f_equal. apply map_ext_in. intros s Hs.
          apply capitalized_lower.
          rewrite Forall_forall in Hsa. now apply Hsa. }
        split; [exact Ha'|]. split; [exact Hl'|]. split.
        -- intros Hs. apply join_Forall; [repeat constructor|].
           apply Forall_map.
           assert (Hss := split_Forall 45 Hs).
           rewrite Forall_forall in *. intros s Hin.
           apply capitalized_no_space; [now apply Hsa|now apply Hss].
        -- destruct (Hidem w' Ha' Hl') as [Hne' Hh'].
           rewrite (normalizeWord_unfold i Hne'), Hl', Esel, Epart, Hh'.
           unfold w' at 1. rewrite split_join.
           ++ rewrite (map_capitalize_ascii Hca), map_map.
              unfold w'. f_equal. apply map_ext_in. intros s Hs.
              apply capitalized_idem.
              rewrite Forall_forall in Hsa. now apply Hsa.
           ++ intros E. apply map_eq_nil in E. now apply split_not_nil in E.
           ++ apply Forall_map.
              assert (Hf := split_free 45 w).
              rewrite Forall_forall in *. intros s Hin.
              apply capitalized_free; [now apply Hsa|now apply Hf].
      * (* plain *)
        rewrite (capitalize_ascii Ha).
        assert (Ha' : all_ascii (Spec.capitalized w))
          by now apply capitalized_ascii.
        assert (Hl' : toLowerCase (Spec.capitalized w) = toLowerCase w)
          by now apply capitalized_lower.
        split; [exact Ha'|]. split; [exact Hl'|]. split.
        -- intros Hs. now apply capitalized_no_space.
        -- destruct (Hidem _ Ha' Hl') as [Hne' Hh'].
           rewrite (normalizeWord_unfold i Hne'), Hl', Esel, Epart, Hh'.
           rewrite (capitalize_ascii Ha'). now apply capitalized_idem.
Qed.

(** *** Trimming and collapsing *)

Unset Implicit Arguments.

Lemma trimStart_suffix s : exists pre, s = pre ++ trimStart s.
Proof.
  induction s as [|c r IH]; [exists []; reflexivity|].
  cbn [trimStart]. destruct (isWhiteSpace c).
  - destruct IH as [pre Hpre]. exists (c :: pre). cbn [app]. now f_equal.
  - exists []. reflexivity.
Qed.

Lemma trimStart_head s c r :
  trimStart s = c :: r -> isWhiteSpace c = false.
Proof.
  induction s as [|d s IH]; [discriminate|].
  cbn [trimStart]. destruct (isWhiteSpace d) eqn:E; [exact IH|].
  intros H. inversion H; subst. exact E.
Qed.

Lemma trimStart_id c r :
  isWhiteSpace c = false -> trimStart (c :: r) = c :: r.
Proof. intros H. cbn [trimStart]. now rewrite H. Qed.

Lemma endsInText_snoc x c : Spec.endsInText (x ++ [c]) = negb (isWhiteSpace c).
Proof.
  induction x as [|d x IH]; [reflexivity|].
  cbn [app]. destruct (x ++ [c]) eqn:E.
  - destruct x; discriminate.
  - exact IH.
Qed.

Lemma endsInText_app a r :
  r <> [] -> Spec.endsInText (a ++ r) = Spec.endsInText r.
Proof.
  intros Hr. destruct (exists_last Hr) as (x & c & ->).
  rewrite app_assoc, !endsInText_snoc. reflexivity.
Qed.

Lemma endsInText_last s :
  s <> [] -> Spec.endsInText s = true ->
  exists x c, s = x ++ [c] /\ isWhiteSpace c = false.
Proof.
  intros Hs H. destruct (exists_last Hs) as (x & c & ->).
  rewrite endsInText_snoc in H. exists x, c. split; [reflexivity|].
  now destruct (isWhiteSpace c).
Qed.

Lemma trimEnd_id s : Spec.endsInText s = true -> trimEnd s = s.
Proof.
  intros H. destruct s as [|d s]; [reflexivity|].
  destruct (endsInText_last (d :: s)) as (x & c & E & Hc);
    [discriminate|exact H|].
  rewrite E. unfold trimEnd. rewrite rev_app_distr. cbn [rev app].
  rewrite (trimStart_id _ _ Hc). cbn [rev]. now rewrite rev_involutive.
Qed.

Lemma trimEnd_ends s : Spec.endsInText (trimEnd s) = true.
Proof.
  unfold trimEnd. destruct (trimStart (rev s)) as [|c r] eqn:E; [reflexivity|].
  cbn [rev]. rewrite endsInText_snoc.
  now rewrite (trimStart_head _ _ _ E).
Qed.

Lemma trimEnd_prefix s : exists suf, s = trimEnd s ++ suf.
Proof.
  unfold trimEnd. destruct (trimStart_suffix (rev s)) as [pre Hpre].
  exists (rev pre). rewrite <- rev_app_distr, <- Hpre.
  now rewrite rev_involutive.
Qed.

Lemma trim_shape s :
  Spec.endsInText (trim s) = true
  /\ (forall c r, trim s = c :: r -> isWhiteSpace c = false).
Proof.
  unfold trim. split; [apply trimEnd_ends|].
  intros c r H. destruct (trimEnd_prefix (trimStart s)) as [suf Hsuf].
  rewrite H in Hsuf. cbn [app] in Hsuf.
  now apply (trimStart_head s c (r ++ suf)).
Qed.

Lemma trim_id s :
  Spec.endsInText s = true ->
  (forall c r, s = c :: r -> isWhiteSpace c = false) ->
  trim s = s.
Proof.
  intros He Hh. unfold trim.
  destruct s as [|c r]; [reflexivity|].
  rewrite (trimStart_id _ _ (Hh c r eq_refl)). now apply trimEnd_id.
Qed.

Lemma trim_ascii s : all_ascii s -> all_ascii (trim s).
Proof.
  intros H. unfold trim.
  destruct (trimStart_suffix s) as [pre Hpre].
  destruct (trimEnd_prefix (trimStart s)) as [suf Hsuf].
  rewrite Hpre in H. apply all_ascii_app in H. destruct H as [_ H].
  rewrite Hsuf in H. apply all_ascii_app in H. tauto.
Qed.

Lemma collapseFrom_ascii b s : all_ascii s -> all_ascii (collapseFrom b s).
Proof.
  intros H. revert b. induction H as [|c s Hc _ IH]; intros b; [constructor|].
  cbn [collapseFrom]. destruct (isWhiteSpace c).
  - destruct b; [apply IH|]. apply all_ascii_cons. split; [reflexivity|apply IH].
  - apply all_ascii_cons. split; [exact Hc|apply IH].
Qed.

Lemma space_is_white c : isWhiteSpace c = false -> N.eqb c 32 = false.
Proof.
  intros H. destruct (N.eqb c 32) eqn:E; [|reflexivity].
  apply N.eqb_eq in E. subst c. discriminate.
Qed.

(** The words of a collapsed text that ends in text. *)
Lemma split_collapse s :
  Spec.endsInText s = true ->
  forall b,
    match s with
    | [] => True
    | c :: _ =>
        if isWhiteSpace c && negb b
        then exists W, split 32 (collapseFrom b s) = [] :: W
                       /\ Forall Spec.isWord W
        else Forall Spec.isWord (split 32 (collapseFrom b s))
    end.
Proof.
  induction s as [|c r IH]; intros He b; [exact I|].
  assert (Her : r <> [] -> Spec.endsInText r = true).
  { intros Hr. destruct r; [congruence|exact He]. }
  cbn [collapseFrom]. destruct (isWhiteSpace c) eqn:Ec.
  - assert (Hr : r <> []).
    { intros ->. cbn in He. rewrite Ec in He. discriminate. }
    specialize (IH (Her Hr) true).
    destruct r as [|d r']; [congruence|].
    rewrite andb_false_r in IH.
    destruct b; cbn [andb negb].
    + exact IH.
    + cbn [split]. rewrite N.eqb_refl. eexists. split; [reflexivity|exact IH].
  - cbn [andb split]. rewrite (space_is_white _ Ec).
    destruct r as [|d r'].
    + cbn. repeat constructor; [discriminate|exact Ec].
    + specialize (IH (Her ltac:(discriminate)) false).
      cbn [negb] in IH. rewrite andb_true_r in IH.
      destruct (isWhiteSpace d).
      * destruct IH as (W & -> & HW).
        constructor; [|exact HW].
        split; [discriminate|]. repeat constructor. exact Ec.
      * destruct (split 32 (collapseFrom false (d :: r'))) as [|w ws];
          [repeat constructor; [discriminate|exact Ec]|].
        inversion IH as [|? ? [Hw1 Hw2] Hws]; subst.
        constructor; [|exact Hws].
        split; [discriminate|]. constructor; assumption.
Qed.

Lemma word_text w s b :
  Forall (fun c => isWhiteSpace c = false) w ->
  collapseFrom b (w ++ s)
  = match w with
    | [] => collapseFrom b s
    | _ => w ++ collapseFrom false s
    end.
Proof.
  intros H. revert b. induction H as [|c w Hc _ IH]; intros b; [reflexivity|].
  cbn [app collapseFrom]. rewrite Hc. rewrite IH.
  destruct w; reflexivity.
Qed.

Lemma join_words_first ws :
  Forall Spec.isWord ws -> ws <> [] ->
  exists c r, join [32%N] ws = c :: r /\ isWhiteSpace c = false.
Proof.
  intros H Hne. destruct ws as [|w rest]; [congruence|].
  inversion H as [|? ? [Hw Hs] _]; subst.
  destruct w as [|c w]; [congruence|]. inversion Hs; subst.
  destruct rest as [|v rest]; [exists c, w; split; auto|].
  rewrite join_cons. cbn [app]. eexists _, _. split; [reflexivity|assumption].
Qed.

Lemma collapse_join_words ws :
  Forall Spec.isWord ws ->
  forall b, collapseFrom b (join [32%N] ws) = join [32%N] ws.
Proof.
  induction 1 as [|w rest [Hw Hs] Hrest IH]; intros b; [reflexivity|].
  destruct rest as [|v rest].
  - cbn [join]. rewrite <- (app_nil_r w) at 1.
    rewrite (word_text w [] b Hs). destruct w; [congruence|].
    cbn [collapseFrom]. now rewrite app_nil_r.
  - rewrite join_cons. rewrite (word_text w _ b Hs).
    destruct w as [|c w]; [congruence|].
    f_equal. change ([32%N] ++ join [32%N] (v :: rest))
      with (32%N :: join [32%N] (v :: rest)).
    cbn [collapseFrom]. change (isWhiteSpace 32) with true. cbn iota.
    now rewrite IH.
Qed.

Lemma word_ends w :
  Forall (fun c => isWhiteSpace c = false) w -> Spec.endsInText w = true.
Proof.
  intros H. destruct w as [|c w]; [reflexivity|].
  destruct (@exists_last _ (c :: w)) as (x & d & E); [discriminate|].
  rewrite E in *. rewrite endsInText_snoc.
  apply Forall_app in H. destruct H as [_ H]. inversion H; subst.
  now rewrite H2.
Qed.

Lemma join_words_ends ws :
  Forall Spec.isWord ws -> Spec.endsInText (join [32%N] ws) = true.
Proof.
  induction 1 as [|w rest [Hw Hs] Hrest IH]; [reflexivity|].
  destruct rest as [|v rest]; [now apply word_ends|].
  rewrite join_cons, app_assoc.
  destruct (join_words_first (v :: rest)) as (c & r & E & _);
    [exact Hrest|discriminate|].
  rewrite endsInText_app by (rewrite E; discriminate). exact IH.
Qed.

Lemma split_join_words ws :
  Forall Spec.isWord ws -> ws <> [] ->
  split 32 (join [32%N] ws) = ws.
Proof.
  intros H Hne. apply split_join; [exact Hne|].
  eapply Forall_impl; [|exact H]. intros w [_ Hs].
  eapply Forall_impl; [|exact Hs]. intros c. apply space_is_white.
Qed.

(** *** The whole name *)



Lemma name_words name :
  collapseSpaces (trim name) <> [] ->
  Forall Spec.isWord (split 32 (collapseSpaces (trim name))).
Proof.
  intros Hn. destruct (trim_shape name) as [He Hh].
  assert (H := split_collapse (trim name) He false).
  destruct (trim name) as [|c r] eqn:E; [now elim Hn|].
  rewrite (Hh c r eq_refl) in H. exact H.
Qed.

Lemma join_words_fixed ws :
  Forall Spec.isWord ws -> ws <> [] ->
  join [32%N] ws <> []
  /\ collapseSpaces (trim (join [32%N] ws)) = join [32%N] ws
  /\ split 32 (join [32%N] ws) = ws.
Proof.
  intros H Hne.
  destruct (join_words_first ws H Hne) as (c & r & E & Hc).
  split; [rewrite E; discriminate|].
  split; [|now apply split_join_words].
  rewrite trim_id.
  - now apply collapse_join_words.
  - now apply join_words_ends.
  - intros c' r' E'. rewrite E in E'. inversion E'; subst. exact Hc.
Qed.






(** ** Running the service twice *)

Lemma filter_all (A : Type) (f : A -> bool) (l : list A) :
  Forall (fun x => f x = true) l -> filter f l = l.
Proof.
  induction 1 as [|x l Hx _ IH]; [reflexivity|].
  cbn [filter]. now rewrite Hx, IH.
Qed.

Lemma digitsOf_digits s : Forall (fun c => isDigit c = true) (Spec.digitsOf s).
Proof.
  unfold Spec.digitsOf. apply Forall_forall. intros c Hc.
  now apply filter_In in Hc.
Qed.

(** The digits of a formatted phone are the digits it was formatted from,
    without the leading 1 that the 11-digit format drops; formatting them
    again gives the same text. *)
Lemma formatted_fixed d :
  Forall (fun c => isDigit c = true) d ->
  Spec.formatted (Spec.digitsOf (Spec.formatted d)) = Spec.formatted d
  /\ (d <> [] -> Spec.digitsOf (Spec.formatted d) <> []).
Proof.
  intros H.
  assert (Hgen : forall l, Forall (fun c => isDigit c = true) l ->
                   Spec.digitsOf l = l /\ Spec.digitsOf (43%N :: l) = l).
  { intros l Hl. unfold Spec.digitsOf. cbn [filter].
    change (isDigit 43) with false. cbn iota.
    split; now apply filter_all. }
  destruct d as [|a d]; [split; [reflexivity|congruence]|].
  inversion H as [|? ? Ha H1]; subst.
  do 6 (destruct d as [|? d];
        [ match goal with
          | |- context [Spec.formatted ?l] =>
              change (Spec.formatted l) with l
          end;
          destruct (Hgen _ H) as [-> _]; split; [reflexivity|discriminate]|]).
  destruct d as [|? d].
  { (* seven digits *)
    repeat match goal with
           | Hf : Forall _ (_ :: _) |- _ => inversion Hf; subst; clear Hf
           end.
    unfold Spec.digitsOf, Spec.formatted. cbn [filter].
    repeat match goal with
           | Hd : isDigit _ = true |- _ => rewrite Hd; clear Hd
           end.
    change (isDigit 45) with false. cbn iota.
    split; [reflexivity|discriminate]. }
  do 2 (destruct d as [|? d];
        [ match goal with
          | |- context [Spec.formatted ?l] =>
              change (Spec.formatted l) with l
          end;
          destruct (Hgen _ H) as [-> _]; split; [reflexivity|discriminate]|]).
  destruct d as [|? d].
  { (* ten digits *)
    repeat match goal with
           | Hf : Forall _ (_ :: _) |- _ => inversion Hf; subst; clear Hf
           end.
    unfold Spec.digitsOf, Spec.formatted. cbn [filter].
    repeat match goal with
           | Hd : isDigit _ = true |- _ => rewrite Hd; clear Hd
           end.
    change (isDigit 45) with false. change (isDigit 40) with false.
    change (isDigit 41) with false. change (isDigit 32) with false.
    cbn iota. split; [reflexivity|discriminate]. }
  destruct d as [|? d].
  { (* eleven digits *)
    destruct (N.eqb a 49) eqn:Ea.
    - match goal with
      | |- context [Spec.formatted (a :: ?x1 :: ?x2 :: ?x3 :: ?x4 :: ?x5
                                      :: ?x6 :: ?x7 :: ?x8 :: ?x9 :: ?x10 :: [])] =>
          replace (Spec.formatted [a; x1; x2; x3; x4; x5; x6; x7; x8; x9; x10])
            with [40%N; x1; x2; x3; 41%N; 32%N; x4; x5; x6; 45%N; x7; x8; x9; x10]
            by (unfold Spec.formatted; now rewrite Ea)
      end.
      repeat match goal with
             | Hf : Forall _ (_ :: _) |- _ => inversion Hf; subst; clear Hf
             end.
      unfold Spec.digitsOf. cbn [filter].
      repeat match goal with
             | Hd : isDigit _ = true |- _ => rewrite Hd; clear Hd
             end.
      change (isDigit 45) with false. change (isDigit 40) with false.
      change (isDigit 41) with false. change (isDigit 32) with false.
      cbn iota. split; [reflexivity|discriminate].
    - match goal with
      | |- context [Spec.formatted ?l] =>
          replace (Spec.formatted l) with l
            by (unfold Spec.formatted; now rewrite Ea)
      end.
      destruct (Hgen _ H) as [-> _].
      split; [unfold Spec.formatted; now rewrite Ea|discriminate]. }
  (* more than eleven *)
  match goal with
  | |- context [Spec.formatted ?l] =>
      change (Spec.formatted l) with (43%N :: l)
  end.
  destruct (Hgen _ H) as [_ ->]. split; [reflexivity|discriminate].
Qed.

Lemma phone_normalize_fixed s q :
  PhoneNormalizer.normalize (Some s) = Some q ->
  PhoneNormalizer.normalize (Some q) = Some q.
Proof.
  rewrite !phone_normalize_amended. unfold Spec.phoneAsAmended.
  destruct (Spec.digitsOf s) as [|a d] eqn:E; [discriminate|].
  intros H.
  assert (Hq : Spec.formatted (a :: d) = q)
    by (injection H; intros HH; exact HH).
  clear H. subst q.
  assert (Hd : Forall (fun c => isDigit c = true) (a :: d))
    by (rewrite <- E; apply digitsOf_digits).
  destruct (formatted_fixed (a :: d) Hd) as [Hfix Hne].
  destruct (Spec.digitsOf (Spec.formatted (a :: d))) eqn:E';
    [now elim Hne|].
  now rewrite Hfix.
Qed.


Lemma opt_eqb_eq a b : opt_eqb a b = true -> a = b.
Proof.
  destruct a as [x|], b as [y|]; try discriminate; [|reflexivity].
  cbn [opt_eqb]. intros H. apply eqb_eq in H. now subst.
Qed.



Lemma withName_same c : NormalizationService.withName c (name c) = c.
Proof. now destruct c. Qed.

Lemma withPhone_same c : NormalizationService.withPhone c (phone c) = c.
Proof. now destruct c. Qed.

Lemma withRole_same c : NormalizationService.withRole c (role c) = c.
Proof. now destruct c. Qed.

Lemma withDepartment_same c :
  NormalizationService.withDepartment c (department c) = c.
Proof. now destruct c. Qed.

Lemma withEmail_same c : NormalizationService.withEmail c (email c) = c.
Proof. now destruct c. Qed.


(** *** What each step of the callback leaves behind *)







(** *** A settled contact goes through the callback unchanged *)

Lemma push_stats i r :
  NormalizationService.run_stats (NormalizationService.push i r)
  = NormalizationService.run_stats r.
Proof. reflexivity. Qed.









(** *** Merging keeps contacts settled *)

Lemma truthy_orElse a b :
  truthy (orElse a b) = truthy a || truthy b.
Proof. unfold orElse. now destruct (truthy a) eqn:E; rewrite ?E. Qed.

Lemma orElse_cases a b :
  (truthy a = true /\ orElse a b = a) \/ (truthy a = false /\ orElse a b = b).
Proof. unfold orElse. destruct (truthy a); tauto. Qed.












(** The keys of a run's contacts can coincide: a merged record takes its
    phone from a later record and then falls under the key of a third, so a
    second run removes one more duplicate. *)
Remark second_run_can_merge_again :
  exists r1 r2,
    NormalizationService.normalize NormalizationService.DEFAULT_CONFIG
      Samples.keysMeet = NormalizationService.Returns r1
    /\ NormalizationService.normalize NormalizationService.DEFAULT_CONFIG
         (NormalizationService.data r1) = NormalizationService.Returns r2
    /\ length (contacts (NormalizationService.data r1)) = 2
    /\ NormalizationService.duplicatesRemoved (NormalizationService.stats r2)
       = 1.
Proof.
  set (run1 := NormalizationService.normalize _ Samples.keysMeet).
  vm_compute in run1.
  match eval unfold run1 in run1 with
  | NormalizationService.Returns ?r => exists r
  end.
  set (run2 := NormalizationService.normalize _ _).
  vm_compute in run2.
  match eval unfold run2 in run2 with
  | NormalizationService.Returns ?r => exists r
  end.
  subst run1 run2.
  split; [reflexivity|]. split; [vm_compute; reflexivity|].
  split; reflexivity.
Qed.

(** Outside ASCII a second run can change a name again: U+00DF is
    capitalized to "SS", and "SSx" to "Ssx". *)
Remark second_run_outside_ascii :
  exists r1 r2,
    NormalizationService.normalize NormalizationService.DEFAULT_CONFIG
      Samples.sharpS = NormalizationService.Returns r1
    /\ NormalizationService.normalize NormalizationService.DEFAULT_CONFIG
         (NormalizationService.data r1) = NormalizationService.Returns r2
    /\ map name (contacts (NormalizationService.data r1)) = [lit "SSx"]
    /\ map name (contacts (NormalizationService.data r2)) = [lit "Ssx"]
    /\ NormalizationService.namesNormalized (NormalizationService.stats r2)
       = 1.
Proof.
  set (run1 := NormalizationService.normalize _ Samples.sharpS).
  vm_compute in run1.
  match eval unfold run1 in run1 with
  | NormalizationService.Returns ?r => exists r
  end.
  set (run2 := NormalizationService.normalize _ _).
  vm_compute in run2.
  match eval unfold run2 in run2 with
  | NormalizationService.Returns ?r => exists r
  end.
  subst run1 run2.
  split; [reflexivity|]. split; [vm_compute; reflexivity|].
  repeat split; reflexivity.
Qed.

(* ================================================================== *)
(** * Further properties of the code *)
(* ================================================================== *)

(** ** Phone numbers *)

(** The digits of a formatted phone: those it was made of, without the
    leading 1 of an eleven-digit number. *)
Lemma digitsOf_formatted d :
  Forall (fun c => isDigit c = true) d ->
  Spec.digitsOf (Spec.formatted d)
  = if (length d =? 11) && N.eqb (hd 0%N d) 49 then tl d else d.
Proof.
  intros H.
  assert (Hgen : forall l, Forall (fun c => isDigit c = true) l ->
                   Spec.digitsOf l = l /\ Spec.digitsOf (43%N :: l) = l).
  { intros l Hl. unfold Spec.digitsOf. cbn [filter].
    change (isDigit 43) with false. cbn iota.
    split; now apply filter_all. }
  destruct d as [|a d]; [reflexivity|].
  do 6 (destruct d as [|? d];
        [ match goal with
          | |- context [Spec.formatted ?l] =>
              change (Spec.formatted l) with l
          end;
          now destruct (Hgen _ H) as [-> _]|]).
  destruct d as [|? d].
  { repeat match goal with
           | Hf : Forall _ (_ :: _) |- _ => inversion Hf; subst; clear Hf
           end.
    unfold Spec.digitsOf, Spec.formatted. cbn [filter].
    repeat match goal with
           | Hd : isDigit _ = true |- _ => rewrite Hd; clear Hd
           end.
    change (isDigit 45) with false. reflexivity. }
  do 2 (destruct d as [|? d];
        [ match goal with
          | |- context [Spec.formatted ?l] =>
              change (Spec.formatted l) with l
          end;
          now destruct (Hgen _ H) as [-> _]|]).
  destruct d as [|? d].
  { repeat match goal with
           | Hf : Forall _ (_ :: _) |- _ => inversion Hf; subst; clear Hf
           end.
    unfold Spec.digitsOf, Spec.formatted. cbn [filter].
    repeat match goal with
           | Hd : isDigit _ = true |- _ => rewrite Hd; clear Hd
           end.
    change (isDigit 45) with false. change (isDigit 40) with false.
    change (isDigit 41) with false. change (isDigit 32) with false.
    reflexivity. }
  destruct d as [|? d].
  { cbn [length hd tl Nat.eqb andb].
    destruct (N.eqb a 49) eqn:Ea.
    - match goal with
      | |- context [Spec.formatted (a :: ?x1 :: ?x2 :: ?x3 :: ?x4 :: ?x5
                                      :: ?x6 :: ?x7 :: ?x8 :: ?x9 :: ?x10 :: [])] =>
          replace (Spec.formatted [a; x1; x2; x3; x4; x5; x6; x7; x8; x9; x10])
            with [40%N; x1; x2; x3; 41%N; 32%N; x4; x5; x6; 45%N; x7; x8; x9; x10]
            by (unfold Spec.formatted; now rewrite Ea)
      end.
      repeat match goal with
             | Hf : Forall _ (_ :: _) |- _ => inversion Hf; subst; clear Hf
             end.
      unfold Spec.digitsOf. cbn [filter].
      repeat match goal with
             | Hd : isDigit _ = true |- _ => rewrite Hd; clear Hd
             end.
      change (isDigit 45) with false. change (isDigit 40) with false.
      change (isDigit 41) with false. change (isDigit 32) with false.
      reflexivity.
    - match goal with
      | |- context [Spec.formatted ?l] =>
          replace (Spec.formatted l) with l
            by (unfold Spec.formatted; now rewrite Ea)
      end.
      now destruct (Hgen _ H) as [-> _]. }
  match goal with
  | |- context [Spec.formatted ?l] =>
      change (Spec.formatted l) with (43%N :: l)
  end.
  now destruct (Hgen _ H) as [_ ->].
Qed.

(** X1.  [PhoneNormalizer.normalize] is idempotent: normalizing a phone
    twice gives what normalizing it once gives, for every input, [null]
    included. *)
Theorem X1_phone_normalize_idempotent :
  forall p,
    PhoneNormalizer.normalize (PhoneNormalizer.normalize p)
    = PhoneNormalizer.normalize p.
Proof.
  intros [s|]; [|reflexivity].
  destruct (PhoneNormalizer.normalize (Some s)) as [q|] eqn:E; [|reflexivity].
  exact (phone_normalize_fixed s q E).
Qed.

Lemma isValid_normalize :
  forall p,
    PhoneNormalizer.isValid (PhoneNormalizer.normalize p)
    = PhoneNormalizer.isValid p.
Proof.
  intros [s|]; [|reflexivity].
  rewrite phone_normalize_amended. unfold Spec.phoneAsAmended.
  assert (Hv : forall t, PhoneNormalizer.isValid (Some t)
                         = (7 <=? length (Spec.digitsOf t))
                           && (length (Spec.digitsOf t) <=? 15)).
  { intros [|c t]; reflexivity. }
  rewrite (Hv s).
  destruct (Spec.digitsOf s) as [|a d] eqn:E; [reflexivity|].
  rewrite Hv, digitsOf_formatted by (rewrite <- E; apply digitsOf_digits).
  destruct (length (a :: d) =? 11) eqn:L; cbn [andb]; [|reflexivity].
  apply Nat.eqb_eq in L.
  destruct (N.eqb (hd 0%N (a :: d)) 49); [|reflexivity].
  cbn [tl]. cbn [length] in L |- *. 
  assert (length d = 10) by lia. rewrite H. reflexivity.
Qed.

(** X2.  Normalization keeps a phone as valid or as invalid as it was:
    [isValid] answers the same before and after [normalize].  The formats
    add no digit, and the one digit they drop, the leading 1 of eleven,
    leaves ten. *)
Theorem X2_phone_normalize_keeps_validity :
  forall p,
    PhoneNormalizer.isValid (PhoneNormalizer.normalize p)
    = PhoneNormalizer.isValid p.
Proof. exact isValid_normalize. Qed.

(** ** The phone step of the service *)

Lemma isValid_by_digits t :
  PhoneNormalizer.isValid (Some t)
  = (7 <=? length (Spec.digitsOf t)) && (length (Spec.digitsOf t) <=? 15).
Proof. destruct t; reflexivity. Qed.

(** X3.  With phone normalization on, the phone step of the service warns
    about a phone exactly when it holds 1 to 6 digits or more than 15; the
    warning quotes the normalized phone.  A phone without a digit, and one
    of 7 to 15 digits, raises none. *)
Theorem X3_phone_step_warns_by_digit_count :
  forall config c r s,
    NormalizationService.normalizePhones config = true ->
    phone c = Some s -> s <> [] ->
    let n := length (Spec.digitsOf s) in
    NormalizationService.run_issues
      (snd (NormalizationService.phoneStep config (c, r)))
    = NormalizationService.run_issues r
      ++ (if (1 <=? n) && ((n <? 7) || (15 <? n))
          then [Notions.phoneWarning (name c) (Spec.formatted (Spec.digitsOf s))]
          else []).
Proof.
  intros config c r s Hcfg Hp Hs n.
  unfold NormalizationService.phoneStep.
  rewrite Hcfg, Hp.
  destruct s as [|u s']; [congruence|].
  remember (u :: s') as s eqn:Es.
  assert (Ht : truthy (Some s) = true) by (subst s; reflexivity).
  rewrite Ht. cbn [andb].
  rewrite phone_normalize_amended. unfold Spec.phoneAsAmended.
  fold n.
  destruct (Spec.digitsOf s) as [|a d] eqn:E.
  - (* no digit: the phone is erased *)
    subst n. cbn [length Nat.leb andb].
    assert (Hne : opt_eqb None (Some s) = false) by reflexivity.
    rewrite Hne. cbn [negb]. cbn [phone NormalizationService.withPhone truthy andb snd].
    now rewrite app_nil_r.
  - assert (Hd : Forall (fun c => isDigit c = true) (a :: d))
      by (rewrite <- E; apply digitsOf_digits).
    assert (Hf : exists v w, Spec.formatted (a :: d) = v :: w).
    { destruct (@formatted_fixed (a :: d) Hd) as [_ Hne].
      destruct (Spec.formatted (a :: d)) as [|v w] eqn:Ef.
      - exfalso. apply Hne; [discriminate|reflexivity].
      - eauto. }
    destruct Hf as (v & w & Ef).
    assert (Hvalid : PhoneNormalizer.isValid (Some (Spec.formatted (a :: d)))
                     = (7 <=? n) && (n <=? 15)).
    { pose proof (isValid_normalize (Some s)) as K.
      rewrite phone_normalize_amended in K. unfold Spec.phoneAsAmended in K.
      rewrite E in K. rewrite K, isValid_by_digits. rewrite E. reflexivity. }
    assert (Hn : 1 <= n) by (subst n; cbn [length]; lia).
    assert (Hsel : (1 <=? n) && ((n <? 7) || (15 <? n))
                   = negb ((7 <=? n) && (n <=? 15))).
    { destruct (Nat.leb_spec 1 n); [|lia].
      destruct (Nat.ltb_spec n 7), (Nat.ltb_spec 15 n),
        (Nat.leb_spec 7 n), (Nat.leb_spec n 15); try lia; reflexivity. }
    rewrite Hsel, <- Hvalid.
    destruct (negb (opt_eqb (Some (Spec.formatted (a :: d))) (Some s))) eqn:Ec.
    + cbn [phone NormalizationService.withPhone name].
      rewrite Ef. cbn [truthy andb]. rewrite <- Ef.
      destruct (negb (PhoneNormalizer.isValid (Some (Spec.formatted (a :: d)))));
        cbn [snd NormalizationService.push NormalizationService.run_issues];
        [reflexivity|now rewrite app_nil_r].
    + apply negb_false_iff in Ec. apply opt_eqb_eq in Ec.
      assert (Ec' : Spec.formatted (a :: d) = s) by congruence.
      rewrite Hp, <- Ec'.
      rewrite Ef. cbn [truthy andb]. rewrite <- Ef.
      destruct (negb (PhoneNormalizer.isValid (Some (Spec.formatted (a :: d)))));
        cbn [snd NormalizationService.push NormalizationService.run_issues];
        [reflexivity|now rewrite app_nil_r].
Qed.

Lemma X3_witness :
  NormalizationService.normalizePhones NormalizationService.DEFAULT_CONFIG = true
  /\ phone Cases.shortPhone = Some (lit "555-01")
  /\ lit "555-01" <> []
  /\ NormalizationService.run_issues
       (snd (NormalizationService.phoneStep NormalizationService.DEFAULT_CONFIG
               (Cases.shortPhone, Cases.fresh)))
     = [Notions.phoneWarning (lit "Sam Lee") (lit "55501")].
Proof.
  assert (H3 : lit "555-01" <> []) by discriminate.
  split; [reflexivity|]. split; [reflexivity|]. split; [exact H3|].
  exact (X3_phone_step_warns_by_digit_count NormalizationService.DEFAULT_CONFIG
           Cases.shortPhone Cases.fresh (lit "555-01") eq_refl eq_refl H3).
Defined.

(** The contact the phone step hands on. *)
Lemma phoneStep_fst config c r :
  fst (NormalizationService.phoneStep config (c, r))
  = if NormalizationService.normalizePhones config && truthy (phone c)
    then NormalizationService.withPhone c (PhoneNormalizer.normalize (phone c))
    else c.
Proof.
  unfold NormalizationService.phoneStep.
  destruct (NormalizationService.normalizePhones config && truthy (phone c));
    [|reflexivity].
  destruct (negb (opt_eqb (PhoneNormalizer.normalize (phone c)) (phone c)))
    eqn:Ec.
  - match goal with
    | |- context [if ?b then _ else _] => destruct b
    end; reflexivity.
  - apply negb_false_iff, opt_eqb_eq in Ec. rewrite Ec, withPhone_same.
    match goal with
    | |- context [if ?b then _ else _] => destruct b
    end; reflexivity.
Qed.

(** X4.  Normalizing the phone of a contact leaves its dedup key as it is,
    except for a phone of eleven digits with a leading 1: there the key
    loses the 1, so that the record meets the ones written without the
    country code. *)
Theorem X4_phone_step_dedup_key :
  forall config c r,
    NormalizationService.normalizePhones config = true ->
    let d := Spec.phoneKey c in
    let c' := fst (NormalizationService.phoneStep config (c, r)) in
    Spec.phoneKey c'
    = (if (length d =? 11) && N.eqb (hd 0%N d) 49 then tl d else d)
    /\ ((length d =? 11) && N.eqb (hd 0%N d) 49 = false ->
        Deduplicator.generateKey c' = Deduplicator.generateKey c)
    /\ ((length d =? 11) && N.eqb (hd 0%N d) 49 = true ->
        Deduplicator.generateKey c' = Spec.nameKey c ++ lit "|" ++ tl d).
Proof.
  intros config c r Hcfg d c'.
  assert (Hk : Spec.phoneKey c'
               = if (length d =? 11) && N.eqb (hd 0%N d) 49 then tl d else d).
  { subst c' d. rewrite phoneStep_fst, Hcfg. cbn [andb].
    unfold Spec.phoneKey.
    destruct (phone c) as [[|u s]|] eqn:Hp; cbn [truthy];
      try (rewrite Hp; reflexivity).
    cbn [phone NormalizationService.withPhone].
    rewrite phone_normalize_amended. unfold Spec.phoneAsAmended.
    destruct (Spec.digitsOf (u :: s)) as [|a t] eqn:E; [reflexivity|].
    apply digitsOf_formatted. rewrite <- E. apply digitsOf_digits. }
  assert (Hrest : name c' = name c /\ email c' = email c).
  { subst c'. rewrite phoneStep_fst.
    destruct (NormalizationService.normalizePhones config && truthy (phone c));
      split; reflexivity. }
  destruct Hrest as [Hn He].
  split; [exact Hk|].
  rewrite !generateKey_amended. unfold Spec.keyAsAmended, Spec.nameKey.
  rewrite Hk, Hn, He. fold d.
  split; intros Hsel; rewrite Hsel; [reflexivity|].
  apply andb_prop in Hsel as [L _]. apply Nat.eqb_eq in L.
  destruct d as [|o t]; [discriminate|]. cbn [tl length] in *.
  assert (Lt : length t = 10) by lia. rewrite Lt. reflexivity.
Qed.

Lemma X4_witness :
  NormalizationService.normalizePhones NormalizationService.DEFAULT_CONFIG = true
  /\ Deduplicator.generateKey Cases.countryCode = lit "sam lee|15551234567"
  /\ Deduplicator.generateKey
       (fst (NormalizationService.phoneStep NormalizationService.DEFAULT_CONFIG
               (Cases.countryCode, Cases.fresh)))
     = lit "sam lee|5551234567".
Proof.
  split; [reflexivity|]. split; [reflexivity|].
  exact (proj2 (proj2 (X4_phone_step_dedup_key
                         NormalizationService.DEFAULT_CONFIG
                         Cases.countryCode Cases.fresh eq_refl)) eq_refl).
Defined.

(** ** Names *)

Lemma toLowerCase_white c :
  (c < 128)%N -> isWhiteSpace (lower_unit c) = isWhiteSpace c.
Proof. intros H. apply (@ascii_case_mapping c H). Qed.

Lemma toLowerCase_trimStart s :
  all_ascii s -> toLowerCase (trimStart s) = trimStart (toLowerCase s).
Proof.
  induction s as [|c r IH]; intros H; [reflexivity|].
  apply all_ascii_cons in H as [Hc Hr].
  cbn [trimStart toLowerCase map]. rewrite (toLowerCase_white c Hc).
  destruct (isWhiteSpace c); [exact (IH Hr)|reflexivity].
Qed.

Lemma all_ascii_rev s : all_ascii s -> all_ascii (rev s).
Proof. apply Forall_rev. Qed.

Lemma toLowerCase_trim s :
  all_ascii s -> toLowerCase (trim s) = trim (toLowerCase s).
Proof.
  intros H. unfold trim, trimEnd.
  rewrite <- (toLowerCase_trimStart s H).
  assert (Ht : all_ascii (trimStart s)).
  { destruct (trimStart_suffix s) as [pre E]. rewrite E in H.
    now apply all_ascii_app in H. }
  unfold toLowerCase at 1. rewrite map_rev.
  change (map lower_unit (trimStart (rev (trimStart s))))
    with (toLowerCase (trimStart (rev (trimStart s)))).
  rewrite toLowerCase_trimStart by now apply all_ascii_rev.
  unfold toLowerCase. now rewrite map_rev.
Qed.

Lemma toLowerCase_collapseFrom b s :
  all_ascii s -> toLowerCase (collapseFrom b s) = collapseFrom b (toLowerCase s).
Proof.
  revert b. induction s as [|c r IH]; intros b H; [reflexivity|].
  apply all_ascii_cons in H as [Hc Hr].
  cbn [collapseFrom toLowerCase map]. rewrite (toLowerCase_white c Hc).
  destruct (isWhiteSpace c).
  - destruct b; cbn [map]; [exact (IH true Hr)|].
    f_equal. exact (IH true Hr).
  - cbn [map]. f_equal. exact (IH false Hr).
Qed.

(** Trimming and collapsing a text that is trimmed and collapsed changes
    nothing. *)
Lemma collapse_trim_idem s :
  collapseSpaces (trim (collapseSpaces (trim s))) = collapseSpaces (trim s).
Proof.
  destruct (collapseSpaces (trim s)) as [|c r] eqn:E; [reflexivity|].
  assert (Hne : collapseSpaces (trim s) <> []) by (rewrite E; discriminate).
  pose proof (@name_words s Hne) as Hw.
  rewrite <- E.
  rewrite <- (@join_split 32 (collapseSpaces (trim s))).
  apply join_words_fixed; [exact Hw|apply split_not_nil].
Qed.

(** The words of a normalized name, in lower case, are the words of the
    name in lower case. *)
Lemma mapIndexFrom_lower ws :
  Forall all_ascii ws -> Forall Spec.isWord ws ->
  forall i,
    map toLowerCase (NameNormalizer.mapIndexFrom i NameNormalizer.normalizeWord ws)
    = map toLowerCase ws.
Proof.
  induction ws as [|w ws IH]; intros Ha Hw i; [reflexivity|].
  inversion Ha; subst. inversion Hw as [|? ? [Hne _] ?]; subst.
  cbn [NameNormalizer.mapIndexFrom map]. f_equal.
  - now apply normalizeWord_settled.
  - now apply IH.
Qed.

Lemma name_normalize_lower s n :
  all_ascii s ->
  NameNormalizer.normalize (Some s) = Some n ->
  toLowerCase n = toLowerCase (collapseSpaces (trim s)).
Proof.
  intros Ha H. unfold NameNormalizer.normalize in H.
  destruct s as [|c0 s0]; [discriminate|].
  remember (c0 :: s0) as s eqn:Es. clear Es.
  destruct (length (collapseSpaces (trim s)) =? 0) eqn:L; [discriminate|].
  assert (Hne : collapseSpaces (trim s) <> []).
  { intros E. rewrite E in L. discriminate. }
  injection H as <-.
  change (lit " ") with [32%N].
  rewrite toLowerCase_join.
  rewrite mapIndexFrom_lower.
  - rewrite <- toLowerCase_join.
    now rewrite join_split.
  - apply (@split_Forall (fun c => (c < 128)%N)).
    apply collapseFrom_ascii. now apply trim_ascii.
  - now apply name_words.
Qed.

(** X5.  On an ASCII name [NameNormalizer.normalize] changes letter case
    and white space only: in lower case its answer is the name trimmed and
    with every run of white space collapsed, in lower case; it has that
    many units. *)
Theorem X5_name_normalize_changes_case_only :
  forall s n,
    all_ascii s ->
    NameNormalizer.normalize (Some s) = Some n ->
    toLowerCase n = toLowerCase (collapseSpaces (trim s))
    /\ length n = length (collapseSpaces (trim s)).
Proof.
  intros s n Ha H.
  pose proof (name_normalize_lower s n Ha H) as E.
  split; [exact E|]. now apply lower_same_length.
Qed.

Lemma X5_witness :
  all_ascii (lit "  jean-claude   van damme ")
  /\ toLowerCase (lit "Jean-Claude van Damme")
     = toLowerCase (collapseSpaces (trim (lit "  jean-claude   van damme ")))
  /\ length (lit "Jean-Claude van Damme")
     = length (collapseSpaces (trim (lit "  jean-claude   van damme "))).
Proof.
  assert (Ha : all_ascii (lit "  jean-claude   van damme ")).
  { unfold all_ascii. repeat (constructor; [reflexivity|]). constructor. }
  split; [exact Ha|].
  apply (X5_name_normalize_changes_case_only
           (lit "  jean-claude   van damme ") (lit "Jean-Claude van Damme") Ha).
  reflexivity.
Defined.

Lemma nameKey_normalized s n :
  all_ascii s ->
  NameNormalizer.normalize (Some s) = Some n ->
  collapseSpaces (trim (toLowerCase n)) = collapseSpaces (trim (toLowerCase s)).
Proof.
  intros Ha H. rewrite (name_normalize_lower s n Ha H).
  unfold collapseSpaces at 2.
  rewrite toLowerCase_collapseFrom by now apply trim_ascii.
  rewrite toLowerCase_trim by exact Ha.
  apply collapse_trim_idem.
Qed.

(** X6.  Normalizing the ASCII name of a contact leaves its dedup key as it
    is: the records that merge are the same whether names are normalized or
    not. *)
Theorem X6_name_step_keeps_dedup_key :
  forall config originalName c r,
    all_ascii (name c) ->
    Deduplicator.generateKey
      (fst (NormalizationService.nameStep config originalName (c, r)))
    = Deduplicator.generateKey c.
Proof.
  intros config o c r Ha.
  unfold NormalizationService.nameStep.
  destruct (NormalizationService.normalizeNames config); [|reflexivity].
  destruct (NameNormalizer.normalize (Some (name c))) as [n|] eqn:E.
  - destruct (truthy (Some n) && negb (eqb n (name c))).
    + match goal with
      | |- context [if ?b then _ else _] => destruct b
      end; cbn [fst]; unfold Deduplicator.generateKey;
        cbn [name phone email NormalizationService.withName];
        now rewrite (nameKey_normalized (name c) n Ha E).
    + match goal with
      | |- context [if ?b then _ else _] => destruct b
      end; reflexivity.
  - match goal with
    | |- context [if ?b then _ else _] => destruct b
    end; reflexivity.
Qed.

Lemma X6_witness :
  all_ascii (name (Samples.person (lit "dave  o'neil") None None))
  /\ Deduplicator.generateKey
       (fst (NormalizationService.nameStep NormalizationService.DEFAULT_CONFIG
               (lit "dave  o'neil")
               (Samples.person (lit "dave  o'neil") None None,
                {| NormalizationService.run_stats := Spec.unchangedStats 1;
                   NormalizationService.run_issues := [] |})))
     = Deduplicator.generateKey (Samples.person (lit "dave  o'neil") None None).
Proof.
  assert (Ha : all_ascii (name (Samples.person (lit "dave  o'neil") None None))).
  { unfold all_ascii. cbn. repeat (constructor; [reflexivity|]). constructor. }
  split; [exact Ha|].
  exact (X6_name_step_keeps_dedup_key NormalizationService.DEFAULT_CONFIG
           (lit "dave  o'neil")
           (Samples.person (lit "dave  o'neil") None None)
           {| NormalizationService.run_stats := Spec.unchangedStats 1;
              NormalizationService.run_issues := [] |} Ha).
Defined.

(** ** Roles *)

Lemma upper_unit_not_nil c : upper_unit c <> [].
Proof.
  unfold upper_unit.
  repeat match goal with
         | |- context [if ?b then _ else _] => destruct b
         end; discriminate.
Qed.

Lemma ownProperty_In table key v :
  RoleNormalizer.ownProperty table key = Some v -> In v (map snd table).
Proof.
  induction table as [|[k w] more IH]; cbn [RoleNormalizer.ownProperty];
    [discriminate|].
  destruct (eqb k key); intros H.
  - injection H as <-. now left.
  - right. now apply IH.
Qed.

Lemma partialMatch_In entries l v :
  RoleNormalizer.partialMatch entries l = Some v -> In v (map snd entries).
Proof.
  induction entries as [|[k w] more IH]; cbn [RoleNormalizer.partialMatch];
    [discriminate|].
  destruct (eqb l k || includes l k); intros H.
  - injection H as <-. now left.
  - right. now apply IH.
Qed.

Lemma role_names_not_nil :
  Forall (fun v : str => v <> []) (map snd RoleNormalizer.ROLE_MAPPINGS).
Proof. repeat (constructor; [discriminate|]). constructor. Qed.

Lemma join_first_not_nil sep w rest : w <> [] -> join sep (w :: rest) <> [].
Proof.
  intros H. destruct rest; cbn [join]; [exact H|].
  destruct w; [congruence|discriminate].
Qed.

Lemma toTitleCase_not_nil c r :
  isWhiteSpace c = false -> RoleNormalizer.toTitleCase (c :: r) <> [].
Proof.
  intros Hc. unfold RoleNormalizer.toTitleCase.
  cbn [split]. rewrite (@space_is_white c Hc).
  destruct (split 32 r) as [|w ws] eqn:E; cbn [map];
    apply join_first_not_nil; cbn [charAt0 firstn toUpperCase flat_map];
    rewrite app_nil_r; intros H; apply app_eq_nil in H as [H _];
    exact (upper_unit_not_nil c H).
Qed.

(** X7.  [normalizeRole] answers [null] exactly for [null], the empty
    string and a role of white space only; and a string it answers is never
    empty. *)
Theorem X7_normalizeRole_null_iff_blank :
  forall role,
    (RoleNormalizer.normalizeRole role = RoleNormalizer.RNull
     <-> match role with
         | None => True
         | Some s => trim s = []
         end)
    /\ (forall s, RoleNormalizer.normalizeRole role = RoleNormalizer.RString s
                  -> s <> []).
Proof.
  intros [s|]; [|split; [now split|discriminate]].
  unfold RoleNormalizer.normalizeRole.
  destruct s as [|c0 s0]; [split; [now split|discriminate]|].
  destruct (trim (c0 :: s0)) as [|c r] eqn:Et; [split; [now split|discriminate]|].
  assert (Hc : isWhiteSpace c = false).
  { destruct (trim_shape (c0 :: s0)) as [_ H]. exact (H c r Et). }
  split.
  - split; [|discriminate].
    destruct (RoleNormalizer.getProperty (toLowerCase (c :: r)));
      [discriminate|discriminate|].
    destruct (RoleNormalizer.partialMatch _ _); discriminate.
  - intros s.
    unfold RoleNormalizer.getProperty.
    destruct (RoleNormalizer.ownProperty _ _) as [full|] eqn:Eo.
    + intros H. injection H as <-.
      apply ownProperty_In in Eo.
      exact (proj1 (Forall_forall _ _) role_names_not_nil _ Eo).
    + destruct (existsb _ RoleNormalizer.inheritedKeys); [discriminate|].
      destruct (RoleNormalizer.partialMatch _ _) as [full|] eqn:Ep;
        intros H; injection H as <-.
      * apply partialMatch_In in Ep.
        exact (proj1 (Forall_forall _ _) role_names_not_nil _ Ep).
      * now apply toTitleCase_not_nil.
Qed.










(** ** Counters and issues of the service *)

Lemma deduplicate_conserves cs :
  Deduplicator.removedCount (Deduplicator.deduplicate cs)
  + length (Deduplicator.contacts (Deduplicator.deduplicate cs))
  = length cs.
Proof.
  destruct cs as [|c cs]; [reflexivity|].
  unfold Deduplicator.deduplicate.
  assert (H0 : Spec.dedupInvariant [] ([], 0)).
  { repeat split. }
  pose proof (@dedup_loop_invariant (c :: cs) [] ([], 0) H0) as H.
  cbn [app] in H.
  destruct (fold_left Deduplicator.step (c :: cs) ([], 0)) as [m n].
  destruct H as (_ & _ & H). cbn [fst snd] in H.
  cbn [Deduplicator.contacts Deduplicator.removedCount].
  unfold Deduplicator.mapValues. now rewrite length_map.
Qed.


Lemma grew_refl s : Notions.grewByAtMost 0 s s.
Proof. unfold Notions.grewByAtMost. repeat split; lia. Qed.

Lemma grew_trans j k s1 s2 s3 :
  Notions.grewByAtMost j s1 s2 -> Notions.grewByAtMost k s2 s3 ->
  Notions.grewByAtMost (j + k) s1 s3.
Proof.
  unfold Notions.grewByAtMost.
  intros (A1 & A2 & A3 & A4 & A5 & A6) (B1 & B2 & B3 & B4 & B5 & B6).
  repeat split; try lia; congruence.
Qed.

Lemma stepEffect_refl r : Notions.stepEffect 0 r r.
Proof. exists []. rewrite app_nil_r. repeat split; auto. Qed.

Lemma stepEffect_trans j k r1 r2 r3 :
  Notions.stepEffect j r1 r2 -> Notions.stepEffect k r2 r3 -> Notions.stepEffect (j + k) r1 r3.
Proof.
  intros (n1 & E1 & F1 & L1) (n2 & E2 & F2 & L2).
  exists (n1 ++ n2). rewrite E2, E1, app_assoc. split; [reflexivity|].
  split; [now apply Forall_app|]. rewrite length_app. lia.
Qed.

Lemma stepEffect_weaken j k r r' : j <= k -> Notions.stepEffect j r r' -> Notions.stepEffect k r r'.
Proof. intros H (n & E & F & L). exists n. repeat split; auto; lia. Qed.

Lemma stepEffect_push i r :
  Notions.contactWarning i -> Notions.stepEffect 1 r (NormalizationService.push i r).
Proof.
  intros H. exists [i]. cbn. repeat split; auto.
Qed.

Lemma stepEffect_bump f r : Notions.stepEffect 0 r (NormalizationService.bump f r).
Proof. exists []. cbn. rewrite app_nil_r. repeat split; auto. Qed.

Ltac split_ifs :=
  repeat match goal with
         | |- context [if ?b then _ else _] => destruct b
         end.

Ltac warn_tac :=
  first
    [ apply stepEffect_refl
    | apply stepEffect_bump
    | apply stepEffect_weaken with (j := 0); [lia|apply stepEffect_refl]
    | apply stepEffect_weaken with (j := 0); [lia|apply stepEffect_bump]
    | apply stepEffect_push; unfold Notions.contactWarning; cbn;
      repeat split; auto; discriminate
    | eapply stepEffect_trans with (j := 0) (k := 1);
      [apply stepEffect_bump
      |apply stepEffect_push; unfold Notions.contactWarning; cbn;
       repeat split; auto; discriminate] ].

Lemma nameStep_run config o c r :
  let r' := snd (NormalizationService.nameStep config o (c, r)) in
  (exists b : bool,
     NormalizationService.run_stats r'
     = if b then NormalizationService.countName (NormalizationService.run_stats r)
       else NormalizationService.run_stats r)
  /\ Notions.stepEffect 1 r r'.
Proof.
  cbv zeta. unfold NormalizationService.nameStep.
  destruct (NormalizationService.normalizeNames config);
    [|cbn [snd]; split; [now exists false|warn_tac]].
  destruct (NameNormalizer.normalize (Some (name c))) as [n|].
  - destruct (truthy (Some n) && negb (eqb n (name c))).
    + split_ifs; cbn [snd]; (split; [now exists true|warn_tac]).
    + split_ifs; cbn [snd]; (split; [now exists false|warn_tac]).
  - split_ifs; cbn [snd]; (split; [now exists false|warn_tac]).
Qed.

Lemma phoneStep_run config c r :
  let r' := snd (NormalizationService.phoneStep config (c, r)) in
  (exists b : bool,
     NormalizationService.run_stats r'
     = if b then NormalizationService.countPhone (NormalizationService.run_stats r)
       else NormalizationService.run_stats r)
  /\ Notions.stepEffect 1 r r'.
Proof.
  cbv zeta. unfold NormalizationService.phoneStep.
  destruct (NormalizationService.normalizePhones config && truthy (phone c));
    [|cbn [snd]; split; [now exists false|warn_tac]].
  destruct (negb (opt_eqb (PhoneNormalizer.normalize (phone c)) (phone c))).
  - split_ifs; cbn [snd]; (split; [now exists true|warn_tac]).
  - split_ifs; cbn [snd]; (split; [now exists false|warn_tac]).
Qed.

Lemma roleStep_run config c r c' r' :
  NormalizationService.roleStep config (c, r)
  = NormalizationService.Returns (c', r') ->
  (exists b : bool,
     NormalizationService.run_stats r'
     = if b then NormalizationService.countRole (NormalizationService.run_stats r)
       else NormalizationService.run_stats r)
  /\ Notions.stepEffect 0 r r'.
Proof.
  unfold NormalizationService.roleStep.
  destruct (NormalizationService.normalizeRoles config && truthy (role c)).
  - destruct (RoleNormalizer.normalizeRole (role c)); [| |discriminate].
    + intros H. injection H as <- <-. split; [now exists false|warn_tac].
    + destruct (truthy (Some s) && negb (opt_eqb (Some s) (role c)));
        intros H; injection H as <- <-.
      * split; [now exists true|warn_tac].
      * split; [now exists false|warn_tac].
  - intros H. injection H as <- <-. split; [now exists false|warn_tac].
Qed.

Lemma departmentStep_run config c r :
  let r' := snd (NormalizationService.departmentStep config (c, r)) in
  (exists b : bool,
     NormalizationService.run_stats r'
     = if b
       then NormalizationService.countDepartment (NormalizationService.run_stats r)
       else NormalizationService.run_stats r)
  /\ Notions.stepEffect 0 r r'.
Proof.
  cbv zeta. unfold NormalizationService.departmentStep.
  destruct (NormalizationService.inferDepartments config);
    [|cbn [snd]; split; [now exists false|warn_tac]].
  split_ifs; cbn [snd].
  - split; [now exists true|warn_tac].
  - split; [now exists false|warn_tac].
Qed.

Lemma emailStep_run c r :
  let r' := snd (NormalizationService.emailStep (c, r)) in
  NormalizationService.run_stats r' = NormalizationService.run_stats r
  /\ Notions.stepEffect 1 r r'.
Proof.
  cbv zeta. unfold NormalizationService.emailStep.
  destruct (email c) as [[|u e]|]; cbn [snd]; try (split; [reflexivity|warn_tac]).
  split_ifs; cbn [snd]; (split; [reflexivity|warn_tac]).
Qed.

(** One contact: each change counter rises by one at most, and at most
    three warnings are pushed. *)
Lemma normalizeContact_run config c r c' r' :
  NormalizationService.normalizeContact config c r
  = NormalizationService.Returns (c', r') ->
  Notions.grewByAtMost 1 (NormalizationService.run_stats r)
    (NormalizationService.run_stats r')
  /\ Notions.stepEffect 3 r r'.
Proof.
  unfold NormalizationService.normalizeContact.
  destruct (NormalizationService.nameStep config (name c) (c, r))
    as [c1 r1] eqn:E1.
  pose proof (nameStep_run config (name c) c r) as [[b1 S1] W1].
  rewrite E1 in S1, W1. cbn [snd] in S1, W1.
  destruct (NormalizationService.phoneStep config (c1, r1))
    as [c2 r2] eqn:E2.
  pose proof (phoneStep_run config c1 r1) as [[b2 S2] W2].
  rewrite E2 in S2, W2. cbn [snd] in S2, W2.
  destruct (NormalizationService.roleStep config (c2, r2))
    as [[c3 r3]|] eqn:E3; [|discriminate].
  pose proof (roleStep_run config c2 r2 c3 r3 E3) as [[b3 S3] W3].
  destruct (NormalizationService.departmentStep config (c3, r3))
    as [c4 r4] eqn:E4.
  pose proof (departmentStep_run config c3 r3) as [[b4 S4] W4].
  rewrite E4 in S4, W4. cbn [snd] in S4, W4.
  pose proof (emailStep_run c4 r4) as [S5 W5].
  intros H.
  assert (H' : NormalizationService.emailStep (c4, r4) = (c', r'))
    by (injection H; intros HH; exact HH).
  rewrite H' in S5, W5. cbn [snd] in S5, W5.
  split.
  - rewrite S5, S4, S3, S2, S1.
    unfold Notions.grewByAtMost.
    destruct b1, b2, b3, b4; cbn; repeat split; lia.
  - apply stepEffect_weaken with (j := ((1 + 1) + 0 + 0) + 1); [lia|].
    eapply stepEffect_trans; [|exact W5].
    eapply stepEffect_trans; [|exact W4].
    eapply stepEffect_trans; [|exact W3].
    eapply stepEffect_trans; [exact W1|exact W2].
Qed.

Lemma mapContacts_run config l :
  forall r l' r',
    NormalizationService.mapContacts config l r
    = NormalizationService.Returns (l', r') ->
    length l' = length l
    /\ Notions.grewByAtMost (length l) (NormalizationService.run_stats r)
         (NormalizationService.run_stats r')
    /\ Notions.stepEffect (3 * length l) r r'.
Proof.
  induction l as [|c l IH]; intros r l' r' H;
    cbn [NormalizationService.mapContacts] in H.
  - injection H as <- <-. split; [reflexivity|].
    split; [apply grew_refl|apply stepEffect_refl].
  - destruct (NormalizationService.normalizeContact config c r)
      as [[c1 r1]|] eqn:E1; [|discriminate].
    destruct (NormalizationService.mapContacts config l r1)
      as [[l2 r2]|] eqn:E2; [|discriminate].
    injection H as <- <-.
    destruct (normalizeContact_run config c r c1 r1 E1) as [G1 W1].
    destruct (IH r1 l2 r2 E2) as (L2 & G2 & W2).
    cbn [length]. split; [now rewrite L2|].
    split.
    + change (S (length l)) with (1 + length l).
      eapply grew_trans; eassumption.
    + apply stepEffect_weaken with (j := 3 + 3 * length l); [lia|].
      eapply stepEffect_trans; eassumption.
Qed.

(** What a run that returns is made of. *)
Lemma normalize_unfold config e r :
  NormalizationService.normalize config e = NormalizationService.Returns r ->
  exists l' r',
    NormalizationService.mapContacts config (contacts e)
      {| NormalizationService.run_stats :=
           {| NormalizationService.phonesNormalized := 0;
              NormalizationService.namesNormalized := 0;
              NormalizationService.rolesNormalized := 0;
              NormalizationService.departmentsInferred := 0;
              NormalizationService.duplicatesRemoved := 0;
              NormalizationService.totalContacts := length (contacts e) |};
         NormalizationService.run_issues := [] |}
    = NormalizationService.Returns (l', r')
    /\ NormalizationService.issues r = NormalizationService.run_issues r'
    /\ contacts (NormalizationService.data r)
       = (if NormalizationService.deduplicate config
          then Deduplicator.contacts (Deduplicator.deduplicate l')
          else l')
    /\ NormalizationService.stats r
       = NormalizationService.setTotalContacts
           (if NormalizationService.deduplicate config
            then NormalizationService.setDuplicatesRemoved
                   (NormalizationService.run_stats r')
                   (Deduplicator.removedCount (Deduplicator.deduplicate l'))
            else NormalizationService.run_stats r')
           (length (contacts (NormalizationService.data r)))
    /\ production_info (NormalizationService.data r) = production_info e
    /\ emergency_contacts (NormalizationService.data r)
       = map (NormalizationService.normalizeEmergency config)
           (emergency_contacts e)
    /\ locations (NormalizationService.data r)
       = map (NormalizationService.normalizeLocation config) (locations e).
Proof.
  unfold NormalizationService.normalize.
  match goal with
  | |- context [NormalizationService.mapContacts config (contacts e) ?r0] =>
      destruct (NormalizationService.mapContacts config (contacts e) r0)
        as [[l' r']|]; [|discriminate]
  end.
  intros H. exists l', r'. split; [reflexivity|].
  destruct (NormalizationService.deduplicate config);
    injection H as <-; repeat split.
Qed.

(** X9.  The counters of a run that returns add up: [totalContacts] is the
    number of contacts handed back, together with [duplicatesRemoved] it is
    the number of contacts handed in, and none of the four change counters
    exceeds that number. *)
Theorem X9_normalize_stats_add_up :
  forall config e r,
    NormalizationService.normalize config e = NormalizationService.Returns r ->
    let s := NormalizationService.stats r in
    let n := length (contacts e) in
    NormalizationService.totalContacts s
    = length (contacts (NormalizationService.data r))
    /\ NormalizationService.totalContacts s
       + NormalizationService.duplicatesRemoved s = n
    /\ NormalizationService.phonesNormalized s <= n
    /\ NormalizationService.namesNormalized s <= n
    /\ NormalizationService.rolesNormalized s <= n
    /\ NormalizationService.departmentsInferred s <= n.
Proof.
  intros config e r H s n. subst s n.
  destruct (normalize_unfold config e r H)
    as (l' & r' & Em & _ & Ec & Es & _).
  destruct (mapContacts_run config (contacts e) _ l' r' Em) as (L & G & _).
  unfold Notions.grewByAtMost in G. cbn in G.
  destruct G as (G1 & G2 & G3 & G4 & G5 & G6).
  rewrite Es, Ec.
  pose proof (deduplicate_conserves l') as D.
  destruct (NormalizationService.deduplicate config); cbn; repeat split; lia.
Qed.

Lemma X9_witness :
  NormalizationService.normalize NormalizationService.DEFAULT_CONFIG
    Samples.crew = NormalizationService.Returns Samples.crewRun
  /\ NormalizationService.totalContacts
       (NormalizationService.stats Samples.crewRun)
     + NormalizationService.duplicatesRemoved
         (NormalizationService.stats Samples.crewRun)
     = length (contacts Samples.crew).
Proof.
  assert (H : NormalizationService.normalize NormalizationService.DEFAULT_CONFIG
                Samples.crew = NormalizationService.Returns Samples.crewRun)
    by (vm_compute; reflexivity).
  split; [exact H|].
  exact (proj1 (proj2 (X9_normalize_stats_add_up
                         NormalizationService.DEFAULT_CONFIG Samples.crew
                         Samples.crewRun H))).
Defined.

(** X10.  Every issue a run reports is a warning about the name, the phone
    or the email of a contact it names, and there are at most three for
    each contact handed in: roles, departments, notes, emergency contacts
    and locations raise none. *)
Theorem X10_normalize_issues_are_contact_warnings :
  forall config e r,
    NormalizationService.normalize config e = NormalizationService.Returns r ->
    Forall Notions.contactWarning (NormalizationService.issues r)
    /\ length (NormalizationService.issues r) <= 3 * length (contacts e).
Proof.
  intros config e r H.
  destruct (normalize_unfold config e r H)
    as (l' & r' & Em & Ei & _).
  destruct (mapContacts_run config (contacts e) _ l' r' Em)
    as (_ & _ & new & En & Fn & Ln).
  cbn in En. rewrite Ei, En. split; assumption.
Qed.

Lemma X10_witness :
  NormalizationService.normalize NormalizationService.DEFAULT_CONFIG
    Cases.flawed = NormalizationService.Returns Cases.flawedRun
  /\ Forall Notions.contactWarning (NormalizationService.issues Cases.flawedRun)
  /\ length (NormalizationService.issues Cases.flawedRun)
     <= 3 * length (contacts Cases.flawed).
Proof.
  assert (H : NormalizationService.normalize NormalizationService.DEFAULT_CONFIG
                Cases.flawed = NormalizationService.Returns Cases.flawedRun)
    by (vm_compute; reflexivity).
  split; [exact H|].
  exact (X10_normalize_issues_are_contact_warnings
           NormalizationService.DEFAULT_CONFIG Cases.flawed Cases.flawedRun H).
Defined.

(** ** What the callback leaves alone *)

Lemma nameStep_fst config o c r :
  exists n,
    fst (NormalizationService.nameStep config o (c, r))
    = NormalizationService.withName c n
    /\ (NormalizationService.normalizeNames config = false -> n = name c).
Proof.
  unfold NormalizationService.nameStep.
  destruct (NormalizationService.normalizeNames config).
  - destruct (NameNormalizer.normalize (Some (name c))) as [n|].
    + destruct (truthy (Some n) && negb (eqb n (name c))).
      * exists n. split_ifs; split; (reflexivity || discriminate).
      * exists (name c). rewrite withName_same.
        split_ifs; split; (reflexivity || discriminate).
    + exists (name c). rewrite withName_same.
      split_ifs; split; (reflexivity || discriminate).
  - exists (name c). rewrite withName_same. now split.
Qed.

Lemma roleStep_fst config c r c' r' :
  NormalizationService.roleStep config (c, r)
  = NormalizationService.Returns (c', r') ->
  exists ro,
    c' = NormalizationService.withRole c ro
    /\ (NormalizationService.normalizeRoles config = false
        \/ truthy (role c) = false -> ro = role c).
Proof.
  unfold NormalizationService.roleStep.
  destruct (NormalizationService.normalizeRoles config); cbn [andb].
  - destruct (truthy (role c)).
    + destruct (RoleNormalizer.normalizeRole (role c)); [| |discriminate].
      * intros H. injection H as <- <-. exists (role c).
        rewrite withRole_same. split; [reflexivity|intros [?|?]; discriminate].
      * destruct (truthy (Some s) && negb (opt_eqb (Some s) (role c)));
          intros H; injection H as <- <-.
        -- exists (Some s). split; [reflexivity|intros [?|?]; discriminate].
        -- exists (role c). rewrite withRole_same.
           split; [reflexivity|intros [?|?]; discriminate].
    + intros H. injection H as <- <-. exists (role c).
      rewrite withRole_same. now split.
  - intros H. injection H as <- <-. exists (role c).
    rewrite withRole_same. now split.
Qed.

Lemma departmentStep_fst config c r :
  exists d,
    fst (NormalizationService.departmentStep config (c, r))
    = NormalizationService.withDepartment c d
    /\ (NormalizationService.inferDepartments config = false
        \/ truthy (department c) = true -> d = department c).
Proof.
  unfold NormalizationService.departmentStep.
  destruct (NormalizationService.inferDepartments config).
  - destruct (truthy (department c)) eqn:Ed.
    + rewrite andb_false_r. exists (department c).
      rewrite withDepartment_same. now split.
    + rewrite andb_true_r.
      destruct (truthy (RoleNormalizer.inferDepartment (role c) (department c))).
      * eexists. split; [reflexivity|intros [?|?]; discriminate].
      * exists (department c). rewrite withDepartment_same. now split.
  - exists (department c). rewrite withDepartment_same. now split.
Qed.

Lemma emailStep_fst c r :
  fst (NormalizationService.emailStep (c, r))
  = NormalizationService.withEmail c
      (match email c with
       | Some (u :: e) => Some (trim (toLowerCase (u :: e)))
       | other => other
       end).
Proof.
  unfold NormalizationService.emailStep.
  destruct (email c) as [[|u e]|] eqn:E; cbn [fst];
    try (rewrite <- E; now rewrite withEmail_same).
  split_ifs; reflexivity.
Qed.

(** X11.  What the callback of the service does to one contact, field by
    field: notes and confidence stay; the email, when there is one, is put
    in lower case and trimmed whatever the configuration; the name stays
    when names are not normalized; the phone stays when phones are not
    normalized or there is none; the role stays when roles are not
    normalized or there is none; the department stays when departments are
    not inferred or there is one. *)
Theorem X11_callback_leaves_alone :
  forall config c r c' r',
    NormalizationService.normalizeContact config c r
    = NormalizationService.Returns (c', r') ->
    notes c' = notes c
    /\ confidence c' = confidence c
    /\ email c' = match email c with
                  | Some (u :: e) => Some (trim (toLowerCase (u :: e)))
                  | other => other
                  end
    /\ (NormalizationService.normalizeNames config = false ->
        name c' = name c)
    /\ (NormalizationService.normalizePhones config = false
        \/ truthy (phone c) = false -> phone c' = phone c)
    /\ (NormalizationService.normalizeRoles config = false
        \/ truthy (role c) = false -> role c' = role c)
    /\ (NormalizationService.inferDepartments config = false
        \/ truthy (department c) = true -> department c' = department c).
Proof.
  intros config c r c' r'.
  unfold NormalizationService.normalizeContact.
  destruct (NormalizationService.nameStep config (name c) (c, r))
    as [c1 r1] eqn:E1.
  destruct (nameStep_fst config (name c) c r) as (n & F1 & N1).
  rewrite E1 in F1. cbn [fst] in F1.
  destruct (NormalizationService.phoneStep config (c1, r1))
    as [c2 r2] eqn:E2.
  pose proof (phoneStep_fst config c1 r1) as F2.
  rewrite E2 in F2. cbn [fst] in F2.
  destruct (NormalizationService.roleStep config (c2, r2))
    as [[c3 r3]|] eqn:E3; [|discriminate].
  destruct (roleStep_fst config c2 r2 c3 r3 E3) as (ro & F3 & N3).
  destruct (NormalizationService.departmentStep config (c3, r3))
    as [c4 r4] eqn:E4.
  destruct (departmentStep_fst config c3 r3) as (d & F4 & N4).
  rewrite E4 in F4. cbn [fst] in F4.
  pose proof (emailStep_fst c4 r4) as F5.
  intros H.
  assert (H' : NormalizationService.emailStep (c4, r4) = (c', r'))
    by (injection H; intros HH; exact HH).
  rewrite H' in F5. cbn [fst] in F5.
  assert (P2 : name c2 = name c1 /\ role c2 = role c1
               /\ department c2 = department c1 /\ email c2 = email c1
               /\ notes c2 = notes c1 /\ confidence c2 = confidence c1
               /\ (NormalizationService.normalizePhones config = false
                   \/ truthy (phone c1) = false -> phone c2 = phone c1)).
  { rewrite F2.
    destruct (NormalizationService.normalizePhones config);
      destruct (truthy (phone c1)); cbn [andb];
      repeat split; try reflexivity; intros [?|?]; discriminate. }
  destruct P2 as (A1 & A2 & A3 & A4 & A5 & A6 & A7).
  subst c' c4 c3 c1.
  cbn [name role department phone email notes confidence
       NormalizationService.withName NormalizationService.withRole
       NormalizationService.withDepartment NormalizationService.withEmail] in *.
  rewrite A4, A5, A6.
  repeat split; try reflexivity.
  - intros Hn. now rewrite A1, (N1 Hn).
  - exact A7.
  - intros Hr. rewrite N3; [exact A2|]. now rewrite A2.
  - intros Hd. rewrite N4; [exact A3|]. now rewrite A3.
Qed.

Lemma X11_witness :
  NormalizationService.normalizeContact NormalizationService.DEFAULT_CONFIG
    Cases.samLee Cases.fresh
  = NormalizationService.Returns (Cases.samLeeDone, Cases.samLeeRun)
  /\ notes Cases.samLeeDone = notes Cases.samLee
  /\ confidence Cases.samLeeDone = confidence Cases.samLee
  /\ email Cases.samLeeDone = email Cases.samLee.
Proof.
  assert (H : NormalizationService.normalizeContact
                NormalizationService.DEFAULT_CONFIG Cases.samLee Cases.fresh
              = NormalizationService.Returns (Cases.samLeeDone, Cases.samLeeRun))
    by (vm_compute; reflexivity).
  split; [exact H|].
  destruct (X11_callback_leaves_alone NormalizationService.DEFAULT_CONFIG
              Cases.samLee Cases.fresh Cases.samLeeDone Cases.samLeeRun H)
    as (A & B & C & _).
  split; [exact A|]. split; [exact B|exact C].
Defined.

(** ** Deduplicator *)




Lemma truthy_mergeNotes a b :
  truthy (Deduplicator.mergeNotes a b) = truthy a || truthy b.
Proof.
  unfold Deduplicator.mergeNotes.
  destruct a as [[|u x]|], b as [[|v y]|]; cbn [truthy negb andb orb];
    try reflexivity.
  destruct (opt_eqb (Some (u :: x)) (Some (v :: y))); reflexivity.
Qed.

Lemma covers_refl c : Notions.covers c c.
Proof. unfold Notions.covers. tauto. Qed.

Lemma covers_trans a b c :
  Notions.covers a b -> Notions.covers b c -> Notions.covers a c.
Proof. unfold Notions.covers. tauto. Qed.

Lemma merge_covers a b :
  Notions.covers (Deduplicator.mergeContacts a b) a
  /\ Notions.covers (Deduplicator.mergeContacts a b) b.
Proof.
  unfold Notions.covers, Deduplicator.mergeContacts.
  cbn [name role department phone email notes].
  rewrite !truthy_orElse, truthy_mergeNotes.
  split; (repeat split; try (intros ->; now rewrite ?orb_true_r));
    destruct (name a); auto; discriminate.
Qed.

Lemma fold_covers l :
  forall a,
    Notions.covers (fold_left Deduplicator.mergeContacts l a) a
    /\ Forall (Notions.covers (fold_left Deduplicator.mergeContacts l a)) l.
Proof.
  induction l as [|b l IH]; intros a; cbn [fold_left].
  - split; [apply covers_refl|constructor].
  - destruct (IH (Deduplicator.mergeContacts a b)) as [H1 H2].
    destruct (merge_covers a b) as [Ma Mb].
    split; [exact (covers_trans _ _ _ H1 Ma)|].
    constructor; [exact (covers_trans _ _ _ H1 Mb)|exact H2].
Qed.

Lemma merge_drawn cs a b :
  Notions.drawnFrom cs a -> Notions.drawnFrom cs b ->
  Notions.drawnFrom cs (Deduplicator.mergeContacts a b).
Proof.
  unfold Notions.drawnFrom, Deduplicator.mergeContacts.
  cbn [name role department phone email].
  intros (A1 & A2 & A3 & A4 & A5) (B1 & B2 & B3 & B4 & B5).
  repeat split;
    try (match goal with
         | |- In (orElse ?x ?y) _ =>
             destruct (orElse_cases x y) as [[_ ->]|[_ ->]]; assumption
         end).
  destruct (name a); assumption.
Qed.

(** X13.  [deduplicate] neither loses a field nor invents one: for every
    record handed in, the record handed back for its key has a value in
    every field in which that record has one; and name, role, department,
    phone and email of a record handed back are each taken from a record
    handed in. *)
Theorem X13_deduplicate_neither_loses_nor_invents :
  forall cs,
    (forall c, In c cs ->
       exists o, In o (Deduplicator.contacts (Deduplicator.deduplicate cs))
                 /\ Notions.covers o c)
    /\ Forall (Notions.drawnFrom cs)
         (Deduplicator.contacts (Deduplicator.deduplicate cs)).
Proof.
  intros cs. destruct (deduplicate_grouped cs) as [-> _].
  split.
  - intros c Hc. unfold Spec.grouped.
    set (k := Deduplicator.generateKey c).
    assert (Hk : In k (Spec.firstSeen Deduplicator.generateKey [] cs)).
    { apply firstSeen_In. split; [now apply in_map|intros []]. }
    assert (Hg : In c (Spec.group Deduplicator.generateKey k cs)).
    { unfold Spec.group. apply filter_In. split; [exact Hc|apply eqb_refl]. }
    destruct (Spec.group Deduplicator.generateKey k cs) as [|first later] eqn:Eg;
      [destruct Hg|].
    exists (fold_left Deduplicator.mergeContacts later first).
    split.
    + apply in_flat_map. exists k. split; [exact Hk|].
      fold k. rewrite Eg. now left.
    + destruct (fold_covers later first) as [H1 H2].
      destruct Hg as [<-|Hg]; [exact H1|].
      exact (proj1 (Forall_forall _ _) H2 _ Hg).
  - apply grouped_Forall.
    + apply merge_drawn.
    + apply Forall_forall. intros c Hc. unfold Notions.drawnFrom.
      repeat split; now apply in_map.
Qed.

(** ** Results of the processors *)

Lemma succeed_settled d : Notions.settledResult (succeed d).
Proof. left. cbn. eauto. Qed.

Lemma failure_settled u m : Notions.settledResult (failure (u :: m)).
Proof. right. cbn. eauto. Qed.

Ltac settle :=
  repeat match goal with
         | |- context [match ?x with _ => _ end] => destruct x
         end;
  first [apply succeed_settled | apply failure_settled].

Lemma pdf_settled io dataUrl filename :
  Notions.settledResult (PdfProcessor.process io dataUrl filename).
Proof.
  unfold PdfProcessor.process, PdfProcessor.onError. settle.
Qed.

Lemma word_settled io dataUrl filename :
  Notions.settledResult (WordProcessor.process io dataUrl filename).
Proof. unfold WordProcessor.process. settle. Qed.

Lemma excel_settled io dataUrl filename :
  Notions.settledResult (ExcelProcessor.process io dataUrl filename).
Proof. unfold ExcelProcessor.process. settle. Qed.

Lemma image_settled io dataUrl filename :
  Notions.settledResult (ImageProcessor.process io dataUrl filename).
Proof. unfold ImageProcessor.process. settle. Qed.

Lemma text_settled io dataUrl filename :
  Notions.settledResult (TextProcessor.process io dataUrl filename).
Proof. unfold TextProcessor.process. settle. Qed.

Lemma dispatch_settled :
  forall io content filename hint,
    Notions.settledResult
      (DocumentProcessingService.process io content filename hint).
Proof.
  intros io content filename hint.
  unfold DocumentProcessingService.process, DocumentProcessingService.processors.
  cbn [DocumentProcessingService.dispatch canProcess Document.process
       PdfProcessor.processor WordProcessor.processor ExcelProcessor.processor
       ImageProcessor.processor TextProcessor.processor].
  destruct (PdfProcessor.canProcess content hint); [apply pdf_settled|].
  destruct (WordProcessor.canProcess content hint); [apply word_settled|].
  destruct (ExcelProcessor.canProcess content hint); [apply excel_settled|].
  destruct (ImageProcessor.canProcess content hint); [apply image_settled|].
  destruct (TextProcessor.canProcess content hint); [apply text_settled|].
  apply failure_settled.
Qed.

(** X14.  Whatever the input and whatever the tools of the platform do, the
    document service answers with a success that carries a document and no
    error, or with a failure that carries an error message, not empty, and
    no document. *)
Theorem X14_process_result_settled :
  forall io content filename hint,
    Notions.settledResult
      (DocumentProcessingService.process io content filename hint).
Proof. exact dispatch_settled. Qed.

(** ** Plain text *)

Lemma startsWith_trans s p q :
  startsWith s p = true -> startsWith p q = true -> startsWith s q = true.
Proof.
  revert s p. induction q as [|x q IH]; intros s p H1 H2; [now destruct s|].
  destruct p as [|y p]; [discriminate|].
  destruct s as [|z s]; [discriminate|].
  cbn [startsWith] in *.
  apply andb_prop in H1 as [A1 B1]. apply andb_prop in H2 as [A2 B2].
  apply N.eqb_eq in A1, A2. subst. rewrite N.eqb_refl. cbn [andb].
  exact (IH _ _ B1 B2).
Qed.

Lemma not_data_url content p :
  startsWith content (lit "data:") = false ->
  startsWith p (lit "data:") = true ->
  startsWith content p = false.
Proof.
  intros H Hp. destruct (startsWith content p) eqn:E; [|reflexivity].
  rewrite (startsWith_trans _ _ _ E Hp) in H. discriminate.
Qed.

Lemma hintIs_among hint a b :
  hintIs hint a || hintIs hint b = Notions.hintAmong hint [a; b].
Proof.
  destruct hint as [h|]; [|reflexivity]. cbn.
  now rewrite orb_false_r.
Qed.

Lemma plain_text_dispatch :
  forall io content filename hint,
    startsWith content (lit "data:") = false ->
    DocumentProcessingService.process io content filename hint
    = if hintIs hint (lit "application/pdf")
      then match mkdir io with
           | Some thrown => PdfProcessor.onError thrown
           | None => failure (lit "Invalid PDF data URL format")
           end
      else if Notions.hintAmong hint Notions.WORD_TYPES
      then failure (lit "Invalid Word document data URL format")
      else if Notions.hintAmong hint Notions.EXCEL_TYPES
      then failure (lit "Invalid Excel document data URL format")
      else if Notions.hintAmong hint ImageProcessor.SUPPORTED_IMAGE_TYPES
      then failure (lit "Invalid image data URL format")
      else TextProcessor.process io content filename.
Proof.
  intros io content filename hint H.
  unfold DocumentProcessingService.process, DocumentProcessingService.processors.
  cbn [DocumentProcessingService.dispatch canProcess Document.process
       PdfProcessor.processor WordProcessor.processor ExcelProcessor.processor
       ImageProcessor.processor TextProcessor.processor].
  unfold PdfProcessor.canProcess, WordProcessor.canProcess,
    ExcelProcessor.canProcess, ImageProcessor.canProcess,
    TextProcessor.canProcess.
  rewrite (not_data_url content (lit "data:application/pdf") H eq_refl).
  rewrite (not_data_url content
             (lit "data:application/vnd.openxmlformats-officedocument.wordprocessingml")
             H eq_refl).
  rewrite (not_data_url content
             (lit "data:application/vnd.openxmlformats-officedocument.spreadsheetml")
             H eq_refl).
  rewrite (not_data_url content (lit "data:application/vnd.ms-excel") H eq_refl).
  rewrite (not_data_url content (lit "data:image/") H eq_refl).
  rewrite H. cbn [orb negb].
  rewrite !hintIs_among. fold Notions.WORD_TYPES Notions.EXCEL_TYPES.
  destruct (hintIs hint (lit "application/pdf")).
  { unfold PdfProcessor.process.
    destruct (mkdir io); [reflexivity|].
    now rewrite (not_data_url content (lit "data:application/pdf;base64,") H eq_refl). }
  destruct (Notions.hintAmong hint Notions.WORD_TYPES).
  { unfold WordProcessor.process, matchBase64.
    now rewrite H. }
  destruct (Notions.hintAmong hint Notions.EXCEL_TYPES).
  { unfold ExcelProcessor.process, matchBase64.
    now rewrite H. }
  assert (Hi : match hint with
               | Some (u :: m) =>
                   existsb (eqb (u :: m)) ImageProcessor.SUPPORTED_IMAGE_TYPES
               | _ => false
               end
               = Notions.hintAmong hint ImageProcessor.SUPPORTED_IMAGE_TYPES).
  { destruct hint as [[|u m]|]; reflexivity. }
  rewrite Hi.
  destruct (Notions.hintAmong hint ImageProcessor.SUPPORTED_IMAGE_TYPES);
    [|reflexivity].
  unfold ImageProcessor.process, ImageProcessor.matchMime.
  now rewrite (not_data_url content (lit "data:image/") H eq_refl).
Qed.

(** X15.  Content that is no data URL is routed by the hint alone: a hint
    that names PDF, Word, Excel or a supported image type sends it to that
    processor, where it fails as an invalid data URL; with any other hint,
    or none, the text processor takes it. *)
Theorem X15_plain_text_routing :
  forall io content filename hint,
    startsWith content (lit "data:") = false ->
    DocumentProcessingService.process io content filename hint
    = if hintIs hint (lit "application/pdf")
      then match mkdir io with
           | Some thrown => PdfProcessor.onError thrown
           | None => failure (lit "Invalid PDF data URL format")
           end
      else if Notions.hintAmong hint Notions.WORD_TYPES
      then failure (lit "Invalid Word document data URL format")
      else if Notions.hintAmong hint Notions.EXCEL_TYPES
      then failure (lit "Invalid Excel document data URL format")
      else if Notions.hintAmong hint ImageProcessor.SUPPORTED_IMAGE_TYPES
      then failure (lit "Invalid image data URL format")
      else TextProcessor.process io content filename.
Proof. exact plain_text_dispatch. Qed.

Lemma X15_witness :
  startsWith (lit "Gaffer: Sam Lee 555-0101") (lit "data:") = false
  /\ DocumentProcessingService.process Samples.bare
       (lit "Gaffer: Sam Lee 555-0101") (lit "notes.txt")
       (Some (lit "application/pdf"))
     = failure (lit "Invalid PDF data URL format").
Proof.
  split; [reflexivity|].
  exact (X15_plain_text_routing Samples.bare (lit "Gaffer: Sam Lee 555-0101")
           (lit "notes.txt") (Some (lit "application/pdf")) eq_refl).
Defined.

(** X16.  Text handed in as it is, with no hint, is accepted exactly when
    it has ten units or more after trimming, whatever the tools of the
    platform do; a text of at most 50,000 units is handed on unchanged, a
    longer one truncated, as a document of type [text] for direct text
    extraction whose size is the length of that text. *)
Theorem X16_pasted_text_accepted_by_length :
  forall io content filename,
    startsWith content (lit "data:") = false ->
    let r := DocumentProcessingService.process io content filename None in
    ((len (trim content) < 10)%N ->
     r = failure (lit "Text content too short. Please provide at least 10 characters."))
    /\ ((10 <= len (trim content))%N ->
        exists d,
          r = succeed d
          /\ type d = text /\ strategy d = direct_text
          /\ requiresVision d = false /\ images d = None
          /\ ((len content <= 50000)%N -> textContent d = Some content)
          /\ ((50000 < len content)%N ->
              textContent d
              = Some (TextProcessor.smartTruncate content 50000))
          /\ (forall t, textContent d = Some t -> size (metadata d) = len t)).
Proof.
  intros io content filename H r. subst r.
  rewrite (plain_text_dispatch io content filename None H).
  cbn [hintIs Notions.hintAmong].
  unfold TextProcessor.process.
  rewrite (not_data_url content (lit "data:text/") H eq_refl).
  split; intros Hlen.
  - apply N.ltb_lt in Hlen.
    unfold TextProcessor.MIN_TEXT_LENGTH. now rewrite Hlen.
  - apply N.ltb_ge in Hlen.
    unfold TextProcessor.MIN_TEXT_LENGTH. rewrite Hlen.
    eexists. split; [reflexivity|].
    cbn [type strategy requiresVision images textContent metadata size].
    repeat split.
    + intros K. apply N.ltb_ge in K.
      unfold TextProcessor.MAX_TEXT_LENGTH. now rewrite K.
    + intros K. apply N.ltb_lt in K.
      unfold TextProcessor.MAX_TEXT_LENGTH. now rewrite K.
    + intros t Ht. now injection Ht as <-.
Qed.

Lemma X16_witness :
  startsWith Cases.pasted (lit "data:") = false
  /\ (10 <= len (trim Cases.pasted))%N
  /\ exists d,
       DocumentProcessingService.process Samples.bare Cases.pasted
         (lit "notes.txt") None = succeed d
       /\ textContent d = Some Cases.pasted.
Proof.
  assert (H1 : startsWith Cases.pasted (lit "data:") = false) by reflexivity.
  assert (H2 : (10 <= len (trim Cases.pasted))%N) by (vm_compute; discriminate).
  split; [exact H1|]. split; [exact H2|].
  destruct (proj2 (X16_pasted_text_accepted_by_length Samples.bare Cases.pasted
                     (lit "notes.txt") H1) H2)
    as (d & Hd & _ & _ & _ & _ & Ht & _).
  exists d. split; [exact Hd|].
  apply Ht. vm_compute. discriminate.
Defined.

(** ** Spreadsheets *)

Lemma trimStart_nil s :
  trimStart s = [] -> Forall (fun x => isWhiteSpace x = true) s.
Proof.
  induction s as [|x s IH]; [constructor|]. cbn [trimStart].
  destruct (isWhiteSpace x) eqn:Ex; [|discriminate].
  intros K. constructor; [exact Ex|exact (IH K)].
Qed.

Lemma trim_head_not_nil c r : isWhiteSpace c = false -> trim (c :: r) <> [].
Proof.
  intros Hc. unfold trim. rewrite (trimStart_id c r Hc).
  unfold trimEnd. intros E.
  assert (E' : trimStart (rev (c :: r)) = []).
  { destruct (trimStart (rev (c :: r))) as [|x t]; [reflexivity|].
    cbn [rev] in E. apply app_eq_nil in E as [_ E]. discriminate. }
  apply trimStart_nil in E'.
  assert (Hin : In c (rev (c :: r))) by (apply in_rev; rewrite rev_involutive; now left).
  rewrite Forall_forall in E'. specialize (E' c Hin). congruence.
Qed.

Lemma fold_lines_head rows :
  forall lines h rest,
    lines = h :: rest ->
    exists rest',
      fold_left
        (fun (lines : list str) (row : list Cell) =>
           if forallb ExcelProcessor.emptyCell row then lines
           else lines ++ [join (lit " | ") (map ExcelProcessor.showCell row)])
        rows lines
      = h :: rest'.
Proof.
  induction rows as [|row rows IH]; intros lines h rest E; cbn [fold_left].
  - eauto.
  - destruct (forallb ExcelProcessor.emptyCell row).
    + exact (IH lines h rest E).
    + apply (IH _ h (rest ++ [join (lit " | ")
                                 (map ExcelProcessor.showCell row)])).
      now rewrite E.
Qed.

Lemma formatSheetAsText_not_blank sheetName data :
  trim (ExcelProcessor.formatSheetAsText sheetName data) <> [].
Proof.
  unfold ExcelProcessor.formatSheetAsText.
  destruct (fold_lines_head data
              [lit "=== Sheet: " ++ sheetName ++ lit " ==="; []]
              (lit "=== Sheet: " ++ sheetName ++ lit " ===") [[]] eq_refl)
    as (rest' & ->).
  destruct rest' as [|l rest']; cbn [join];
    apply trim_head_not_nil; reflexivity.
Qed.

(** X17.  A sheet that has rows always gives text, be it only its heading:
    the test for a blank sheet text never drops one, so the parts of the
    workbook text are those of the sheets with rows, in order. *)
Theorem X17_every_sheet_with_rows_is_kept :
  forall sheets,
    ExcelProcessor.sheetTexts sheets
    = map (fun sheet => ExcelProcessor.formatSheetAsText (fst sheet) (snd sheet))
        (filter (fun sheet => negb (length (snd sheet) =? 0)) sheets).
Proof.
  intros sheets. unfold ExcelProcessor.sheetTexts.
  assert (Hgen : forall acc : list str,
             fold_left
               (fun (textParts : list str) (sheet : str * list (list Cell)) =>
                  let (sheetName, data) := sheet in
                  if length data =? 0 then textParts
                  else
                    let sheetText :=
                      ExcelProcessor.formatSheetAsText sheetName data in
                    match trim sheetText with
                    | [] => textParts
                    | _ => textParts ++ [sheetText]
                    end)
               sheets acc
             = acc
               ++ map (fun sheet =>
                         ExcelProcessor.formatSheetAsText (fst sheet) (snd sheet))
                    (filter (fun sheet => negb (length (snd sheet) =? 0))
                       sheets)).
  { induction sheets as [|[n d] sheets IH]; intros acc;
      cbn [fold_left filter map].
    - now rewrite app_nil_r.
    - cbn [snd fst]. destruct (length d =? 0); cbn [negb].
      + apply IH.
      + cbv zeta.
        destruct (trim (ExcelProcessor.formatSheetAsText n d)) eqn:E.
        * now elim (formatSheetAsText_not_blank n d).
        * rewrite IH. cbn [map fst snd]. now rewrite <- app_assoc. }
  exact (Hgen []).
Qed.

(** ** Departments *)

Lemma includes_suffix s p x : includes s p = true -> includes (x :: s) p = true.
Proof.
  intros H. cbn [includes]. rewrite H. apply orb_true_r.
Qed.

Lemma includes_unfold s p :
  includes s p
  = startsWith s p || match s with [] => false | _ :: s' => includes s' p end.
Proof. destruct s; reflexivity. Qed.

(** Containment of texts is transitive. *)
Lemma includes_trans q :
  forall p s, includes s p = true -> includes p q = true -> includes s q = true.
Proof.
  assert (Hprefix : forall p s, startsWith s p = true -> includes p q = true ->
                                includes s q = true).
  { induction p as [|y p IH]; intros s Hs Hq.
    - rewrite includes_unfold in Hq. rewrite orb_false_r in Hq.
      destruct q; [|discriminate].
      rewrite includes_unfold. now destruct s.
    - destruct s as [|x s]; [discriminate|].
      cbn [startsWith] in Hs. apply andb_prop in Hs as [Hx Hs].
      apply N.eqb_eq in Hx. subst y.
      rewrite includes_unfold in Hq. apply orb_prop in Hq as [Hq|Hq].
      + rewrite includes_unfold.
        assert (Hsq : startsWith (x :: s) q = true).
        { apply (startsWith_trans _ (x :: p) _); [|exact Hq].
          cbn [startsWith]. now rewrite N.eqb_refl. }
        now rewrite Hsq.
      + apply includes_suffix. exact (IH s Hs Hq). }
  intros p s. induction s as [|x s IH]; intros Hs Hq.
  - rewrite includes_unfold in Hs. rewrite orb_false_r in Hs.
    exact (Hprefix p [] Hs Hq).
  - rewrite includes_unfold in Hs. apply orb_prop in Hs as [Hs|Hs].
    + exact (Hprefix p (x :: s) Hs Hq).
    + apply includes_suffix. exact (IH Hs Hq).
Qed.

Lemma firstKeyword_includes keywords l k :
  In k keywords -> includes l k = true ->
  RoleNormalizer.firstKeyword keywords l = true.
Proof.
  induction keywords as [|k0 ks IH]; intros Hin Hl; [destruct Hin|].
  cbn [RoleNormalizer.firstKeyword]. destruct Hin as [->|Hin].
  - now rewrite Hl.
  - rewrite (IH Hin Hl). apply orb_true_r.
Qed.

(** X18.  Departments are tried in the order of the table, and a keyword
    counts wherever it occurs in the role.  So a role in which a keyword of
    Camera occurs is filed under Camera whatever else it says, when no
    department was extracted; and since "ac" occurs in "actor" and
    "actress" and "dit" in "editor", every role that holds one of these
    words is filed under Camera: those keywords of Talent and Video never
    decide. *)
Theorem X18_camera_keywords_come_first :
  forall role word,
    role <> [] ->
    existsb (fun keyword => includes word keyword) Notions.cameraKeywords
    = true ->
    includes (toLowerCase role) word = true ->
    RoleNormalizer.inferDepartment (Some role) None = Some (lit "Camera").
Proof.
  intros role word Hr Hw Hl.
  unfold RoleNormalizer.inferDepartment. cbn [truthy andb].
  destruct role as [|c r]; [congruence|].
  apply existsb_exists in Hw as (k & Hk & Hwk).
  unfold Notions.cameraKeywords in Hk.
  pose proof (includes_trans k word (toLowerCase (c :: r)) Hl Hwk) as Hin.
  unfold RoleNormalizer.DEPARTMENT_KEYWORDS.
  cbn [RoleNormalizer.scanDepartments].
  now rewrite (firstKeyword_includes _ _ k Hk Hin).
Qed.

Lemma X18_witness :
  lit "Lead Actress" <> []
  /\ existsb (fun keyword => includes (lit "actress") keyword)
       Notions.cameraKeywords = true
  /\ includes (toLowerCase (lit "Lead Actress")) (lit "actress") = true
  /\ RoleNormalizer.inferDepartment (Some (lit "Lead Actress")) None
     = Some (lit "Camera").
Proof.
  assert (H1 : lit "Lead Actress" <> []) by discriminate.
  assert (H2 : existsb (fun keyword => includes (lit "actress") keyword)
                 Notions.cameraKeywords = true) by reflexivity.
  assert (H3 : includes (toLowerCase (lit "Lead Actress")) (lit "actress")
               = true) by reflexivity.
  split; [exact H1|]. split; [exact H2|]. split; [exact H3|].
  exact (X18_camera_keywords_come_first (lit "Lead Actress") (lit "actress")
           H1 H2 H3).
Defined.

(** ** The detected type and the processor that is taken *)

(** Two prefixes of one text: one is a prefix of the other. *)
Lemma prefixes_comparable s :
  forall p q,
    startsWith s p = true -> startsWith s q = true ->
    startsWith p q = true \/ startsWith q p = true.
Proof.
  induction s as [|x s IH]; intros p q Hp Hq.
  - destruct q; [left; now destruct p|]. now destruct p.
  - destruct p as [|y p]; [right; now destruct q|].
    destruct q as [|z q]; [left; reflexivity|].
    cbn [startsWith] in *.
    apply andb_prop in Hp as [A1 B1]. apply andb_prop in Hq as [A2 B2].
    apply N.eqb_eq in A1, A2. subst y z.
    destruct (IH p q B1 B2) as [H|H]; [left|right];
      now rewrite N.eqb_refl, H.
Qed.

Lemma other_prefix s p q :
  startsWith s p = true ->
  startsWith p q = false -> startsWith q p = false ->
  startsWith s q = false.
Proof.
  intros Hp H1 H2. destruct (startsWith s q) eqn:E; [|reflexivity].
  destruct (prefixes_comparable s p q Hp E); congruence.
Qed.

(** X19.  The type [detectType] reports and the processor that handles the
    document agree for PDF, and a document reported as text always finds a
    processor.  They part for Office documents: a Word or Excel data URL
    sent without a hint is reported as [unknown] and yet handled, by the
    Word or the Excel processor. *)
Theorem X19_detected_type_and_processor :
  forall io content filename hint,
    (DocumentProcessingService.detectType content hint = pdf ->
     DocumentProcessingService.process io content filename hint
     = PdfProcessor.process io content filename)
    /\ (DocumentProcessingService.detectType content hint = text ->
        TextProcessor.canProcess content hint = true)
    /\ (WordProcessor.canProcess content None = true ->
        DocumentProcessingService.detectType content None = unknown
        /\ DocumentProcessingService.process io content filename None
           = WordProcessor.process io content filename)
    /\ (ExcelProcessor.canProcess content None = true ->
        DocumentProcessingService.detectType content None = unknown
        /\ DocumentProcessingService.process io content filename None
           = ExcelProcessor.process io content filename).
Proof.
  intros io content filename hint.
  assert (Hd : forall h,
             DocumentProcessingService.process io content filename h
             = if PdfProcessor.canProcess content h
               then PdfProcessor.process io content filename
               else if WordProcessor.canProcess content h
               then WordProcessor.process io content filename
               else if ExcelProcessor.canProcess content h
               then ExcelProcessor.process io content filename
               else if ImageProcessor.canProcess content h
               then ImageProcessor.process io content filename
               else if TextProcessor.canProcess content h
               then TextProcessor.process io content filename
               else DocumentProcessingService.noProcessor) by reflexivity.
  split; [|split; [|split]].
  - unfold DocumentProcessingService.detectType. rewrite Hd.
    unfold PdfProcessor.canProcess.
    destruct (startsWith content (lit "data:application/pdf")
              || hintIs hint (lit "application/pdf")); [reflexivity|].
    repeat match goal with
           | |- context [if ?b then _ else _] => destruct b
           end; discriminate.
  - unfold DocumentProcessingService.detectType, TextProcessor.canProcess.
    destruct (startsWith content (lit "data:application/pdf")
              || hintIs hint (lit "application/pdf")); [discriminate|].
    destruct (startsWith content (lit "data:image/")
              || hintStartsWith hint (lit "image/")); [discriminate|].
    destruct (startsWith content (lit "data:")); cbn [negb];
      destruct (startsWith content (lit "data:text/")); cbn [orb];
      try reflexivity;
      destruct (hintStartsWith hint (lit "text/")); cbn [orb];
      (reflexivity || discriminate).
  - unfold WordProcessor.canProcess. cbn [hintIs]. rewrite !orb_false_r.
    intros Hw.
    pose proof (other_prefix _ _ (lit "data:application/pdf") Hw eq_refl eq_refl) as N1.
    pose proof (other_prefix _ _ (lit "data:image/") Hw eq_refl eq_refl) as N2.
    pose proof (other_prefix _ _ (lit "data:text/") Hw eq_refl eq_refl) as N3.
    pose proof (startsWith_trans _ _ (lit "data:") Hw eq_refl) as N4.
    split.
    + unfold DocumentProcessingService.detectType.
      cbn [hintIs hintStartsWith]. now rewrite N1, N2, N3, N4.
    + rewrite Hd. unfold PdfProcessor.canProcess, WordProcessor.canProcess.
      cbn [hintIs]. now rewrite N1, Hw.
  - unfold ExcelProcessor.canProcess. cbn [hintIs]. rewrite !orb_false_r.
    intros Hx.
    assert (Hcases : exists p,
               startsWith content p = true
               /\ startsWith p (lit "data:") = true
               /\ (forall q,
                      In q [lit "data:application/pdf"; lit "data:image/";
                            lit "data:text/";
                            lit "data:application/vnd.openxmlformats-officedocument.wordprocessingml"] ->
                      startsWith p q = false /\ startsWith q p = false)).
    { apply orb_prop in Hx as [Hx|Hx]; eexists; (split; [exact Hx|]);
        (split; [reflexivity|]);
        intros q [<-|[<-|[<-|[<-|[]]]]]; split; reflexivity. }
    destruct Hcases as (p & Hp & Hdata & Hq).
    assert (N : forall q,
               In q [lit "data:application/pdf"; lit "data:image/";
                     lit "data:text/";
                     lit "data:application/vnd.openxmlformats-officedocument.wordprocessingml"] ->
               startsWith content q = false).
    { intros q Hin. destruct (Hq q Hin) as [A B].
      exact (other_prefix _ _ q Hp A B). }
    pose proof (N _ (or_introl eq_refl)) as N1.
    pose proof (N _ (or_intror (or_introl eq_refl))) as N2.
    pose proof (N _ (or_intror (or_intror (or_introl eq_refl)))) as N3.
    pose proof (N _ (or_intror (or_intror (or_intror (or_introl eq_refl))))) as N5.
    pose proof (startsWith_trans _ _ (lit "data:") Hp Hdata) as N4.
    split.
    + unfold DocumentProcessingService.detectType.
      cbn [hintIs hintStartsWith]. now rewrite N1, N2, N3, N4.
    + rewrite Hd.
      unfold PdfProcessor.canProcess, WordProcessor.canProcess,
        ExcelProcessor.canProcess.
      cbn [hintIs]. rewrite N1, N5, !orb_false_r.
      cbn [orb]. now rewrite Hx.
Qed.

(** ** Lengths of the texts handed on *)

Lemma trimStart_length s : length (trimStart s) <= length s.
Proof.
  destruct (trimStart_suffix s) as [pre E].
  rewrite E at 2. rewrite length_app. lia.
Qed.

Lemma trim_length s : length (trim s) <= length s.
Proof.
  unfold trim, trimEnd. rewrite length_rev.
  pose proof (trimStart_length (rev (trimStart s))) as H.
  rewrite length_rev in H. pose proof (trimStart_length s). lia.
Qed.

Lemma lastIndexFrom_bound s needle from :
  forall i best,
    match best with Some b => (b <= from)%N | None => True end ->
    match TextProcessor.lastIndexFrom i from best s needle with
    | Some b => (b <= from)%N
    | None => True
    end.
Proof.
  induction s as [|c r IH]; intros i best Hb;
    cbn [TextProcessor.lastIndexFrom]; [exact Hb|].
  apply IH.
  destruct (N.leb i from && startsWith (c :: r) needle) eqn:E; [|exact Hb].
  apply andb_prop in E as [E _]. now apply N.leb_le in E.
Qed.

Lemma lastIndexOf_bound s needle from b :
  TextProcessor.lastIndexOf s needle from = Some b -> (b <= from)%N.
Proof.
  unfold TextProcessor.lastIndexOf. intros H.
  pose proof (lastIndexFrom_bound s needle from 0%N None I) as K.
  now rewrite H in K.
Qed.

Lemma tooEarly_false b t :
  TextProcessor.tooEarly b t = false ->
  exists v, b = Some v /\ (7 * t <= 10 * v)%N.
Proof.
  destruct b as [v|]; [|discriminate]. cbn [TextProcessor.tooEarly].
  intros H. apply N.ltb_ge in H. eauto.
Qed.

Lemma smartTruncate_window :
  forall text,
    (TextProcessor.MAX_TEXT_LENGTH < len text)%N ->
    exists breakPoint,
      (34930 <= breakPoint <= 49901)%N
      /\ TextProcessor.smartTruncate text TextProcessor.MAX_TEXT_LENGTH
         = trim (substring 0 (N.to_nat breakPoint) text)
           ++ TextProcessor.truncationNotice.
Proof.
  intros text Hlen. unfold TextProcessor.smartTruncate.
  assert (Hle : N.leb (len text) TextProcessor.MAX_TEXT_LENGTH = false)
    by now apply N.leb_gt.
  rewrite Hle.
  change (TextProcessor.MAX_TEXT_LENGTH - 100)%N with 49900%N.
  set (b1 := TextProcessor.lastIndexOf text (newline ++ newline) 49900).
  set (b2 := if TextProcessor.tooEarly b1 49900
             then TextProcessor.lastIndexOf text newline 49900 else b1).
  set (b3 := if TextProcessor.tooEarly b2 49900
             then option_map N.succ
                    (TextProcessor.lastIndexOf text (lit ". ") 49900)
             else b2).
  assert (H1 : forall v, b1 = Some v -> (v <= 49900)%N).
  { intros v. apply lastIndexOf_bound. }
  assert (H2 : forall v, b2 = Some v -> (v <= 49900)%N).
  { intros v. subst b2. destruct (TextProcessor.tooEarly b1 49900);
      [apply lastIndexOf_bound|apply H1]. }
  assert (H3 : forall v, b3 = Some v -> (v <= 49901)%N).
  { intros v. subst b3. destruct (TextProcessor.tooEarly b2 49900).
    - destruct (TextProcessor.lastIndexOf text (lit ". ") 49900) as [w|] eqn:E;
        [|discriminate].
      apply lastIndexOf_bound in E. cbn [option_map]. intros K.
      injection K as <-. lia.
    - intros K. specialize (H2 v K). lia. }
  destruct (TextProcessor.tooEarly b3 49900) eqn:E3.
  - exists 49900%N. split; [lia|reflexivity].
  - destruct (tooEarly_false b3 49900 E3) as (v & Ev & Hv).
    rewrite Ev. exists v. split; [|reflexivity].
    specialize (H3 v Ev). lia.
Qed.

(** X20.  [smartTruncate], called with the limit of 50,000, hands a text of
    at most 50,000 units back as it is; a longer one it cuts at a point
    between 34,930 and 49,901 and returns the text up to that point,
    trimmed, followed by the notice of truncation. *)
Theorem X20_smartTruncate_cuts_in_window :
  forall text,
    ((len text <= TextProcessor.MAX_TEXT_LENGTH)%N
     /\ TextProcessor.smartTruncate text TextProcessor.MAX_TEXT_LENGTH = text)
    \/ ((TextProcessor.MAX_TEXT_LENGTH < len text)%N
        /\ exists breakPoint,
             (34930 <= breakPoint <= 49901)%N
             /\ TextProcessor.smartTruncate text TextProcessor.MAX_TEXT_LENGTH
                = trim (substring 0 (N.to_nat breakPoint) text)
                  ++ TextProcessor.truncationNotice).
Proof.
  intros text.
  destruct (N.leb (len text) TextProcessor.MAX_TEXT_LENGTH) eqn:E.
  - left. split; [now apply N.leb_le|].
    unfold TextProcessor.smartTruncate. now rewrite E.
  - right. apply N.leb_gt in E. split; [exact E|].
    now apply smartTruncate_window.
Qed.

Lemma len_app (a b : list N) : len (a ++ b) = (len a + len b)%N.
Proof. unfold len. rewrite length_app. lia. Qed.

Lemma len_substring0 (n : nat) (s : str) :
  (len (substring 0 n s) <= N.of_nat n)%N.
Proof.
  unfold len, substring. cbn [skipn]. rewrite length_firstn. lia.
Qed.

Lemma len_trim s : (len (trim s) <= len s)%N.
Proof. unfold len. pose proof (trim_length s). lia. Qed.

(** X21.  No text of more than 50,056 units leaves the Word or the Excel
    processor, and none of more than 50,014 the text processor: a longer
    one is cut and given a notice, so that what is handed on may exceed the
    limit of 50,000 by the notice.  (The PDF processor hands on the text
    layer whole.) *)
Theorem X21_text_handed_on_is_bounded :
  forall io dataUrl filename d t,
    textContent d = Some t ->
    (document (WordProcessor.process io dataUrl filename) = Some d ->
     (len t <= 50056)%N)
    /\ (document (ExcelProcessor.process io dataUrl filename) = Some d ->
        (len t <= 50056)%N)
    /\ (document (TextProcessor.process io dataUrl filename) = Some d ->
        (len t <= 50014)%N).
Proof.
  intros io dataUrl filename d t Ht.
  assert (Hcut : forall s : str,
             (len (if N.ltb 50000 (len s)
                   then substring 0 (N.to_nat 50000) s
                        ++ WordProcessor.truncationNotice
                   else s) <= 50056)%N).
  { intros s. destruct (N.ltb 50000 (len s)) eqn:E.
    - rewrite len_app.
      pose proof (len_substring0 (N.to_nat 50000) s) as K.
      change (len WordProcessor.truncationNotice) with 56%N. lia.
    - apply N.ltb_ge in E. lia. }
  split; [|split].
  - unfold WordProcessor.process.
    destruct (matchBase64 (lit "data:") dataUrl) as [b64|]; [|discriminate].
    destruct (extractRawText io (bufferFromBase64 io b64)) as [?|value];
      [discriminate|].
    match goal with
    | |- context [N.ltb (len (trim ?x)) WordProcessor.MIN_TEXT_LENGTH] =>
        destruct (N.ltb (len (trim x)) WordProcessor.MIN_TEXT_LENGTH);
        [discriminate|]
    end.
    intros H; injection H as <-; cbn [textContent] in Ht;
      injection Ht as <-. apply Hcut.
  - unfold ExcelProcessor.process.
    destruct (matchBase64 (lit "data:") dataUrl) as [b64|]; [|discriminate].
    destruct (xlsxRead io (bufferFromBase64 io b64)) as [?|[|sh shs]];
      try discriminate.
    match goal with
    | |- context [N.ltb (len (trim ?x)) ExcelProcessor.MIN_TEXT_LENGTH] =>
        destruct (N.ltb (len (trim x)) ExcelProcessor.MIN_TEXT_LENGTH);
        [discriminate|]
    end.
    intros H; injection H as <-; cbn [textContent] in Ht;
      injection Ht as <-. apply Hcut.
  - unfold TextProcessor.process.
    match goal with
    | |- context [match ?x with inl _ => _ | inr _ => _ end] =>
        destruct x as [?|text]; [discriminate|]
    end.
    destruct (N.ltb (len (trim text)) TextProcessor.MIN_TEXT_LENGTH);
      [discriminate|].
    intros H; injection H as <-; cbn [textContent] in Ht;
      injection Ht as <-.
    destruct (N.ltb TextProcessor.MAX_TEXT_LENGTH (len text)) eqn:E.
    + apply N.ltb_lt in E.
      destruct (smartTruncate_window text E) as (b & Hb & ->).
      rewrite len_app.
      change (len TextProcessor.truncationNotice) with 113%N.
      pose proof (len_trim (substring 0 (N.to_nat b) text)).
      pose proof (len_substring0 (N.to_nat b) text). lia.
    + apply N.ltb_ge in E. unfold TextProcessor.MAX_TEXT_LENGTH in E. lia.
Qed.

Lemma X21_witness :
  textContent Cases.pastedDocument = Some Cases.pasted
  /\ document (TextProcessor.process Samples.bare Cases.pasted (lit "notes.txt"))
     = Some Cases.pastedDocument
  /\ (len Cases.pasted <= 50014)%N.
Proof.
  assert (H1 : textContent Cases.pastedDocument = Some Cases.pasted)
    by reflexivity.
  assert (H2 : document (TextProcessor.process Samples.bare Cases.pasted
                           (lit "notes.txt"))
               = Some Cases.pastedDocument) by (vm_compute; reflexivity).
  split; [exact H1|]. split; [exact H2|].
  exact (proj2 (proj2 (X21_text_handed_on_is_bounded Samples.bare Cases.pasted
                         (lit "notes.txt") Cases.pastedDocument Cases.pasted
                         H1)) H2).
Defined.

(** ** From the file picked to the processor *)

Lemma type_name_is_no_hint t io content filename :
  DocumentProcessingService.process io content filename
    (Some (FileUtils.typeName t))
  = DocumentProcessingService.process io content filename None.
Proof.
  unfold DocumentProcessingService.process, DocumentProcessingService.processors.
  cbn [DocumentProcessingService.dispatch canProcess Document.process
       PdfProcessor.processor WordProcessor.processor ExcelProcessor.processor
       ImageProcessor.processor TextProcessor.processor].
  assert (H1 : PdfProcessor.canProcess content (Some (FileUtils.typeName t))
               = PdfProcessor.canProcess content None)
    by (destruct t; reflexivity).
  assert (H2 : WordProcessor.canProcess content (Some (FileUtils.typeName t))
               = WordProcessor.canProcess content None)
    by (destruct t; reflexivity).
  assert (H3 : ExcelProcessor.canProcess content (Some (FileUtils.typeName t))
               = ExcelProcessor.canProcess content None)
    by (destruct t; reflexivity).
  assert (H4 : ImageProcessor.canProcess content (Some (FileUtils.typeName t))
               = ImageProcessor.canProcess content None)
    by (destruct t; reflexivity).
  assert (H5 : TextProcessor.canProcess content (Some (FileUtils.typeName t))
               = TextProcessor.canProcess content None)
    by (destruct t; reflexivity).
  now rewrite H1, H2, H3, H4, H5.
Qed.

Lemma base64Url_inv mime t file r :
  FileUtils.base64Url mime t file = Some r ->
  exists base64,
    FileUtils.dataUrl r = lit "data:" ++ mime ++ lit ";base64," ++ base64
    /\ FileUtils.fileType r = t.
Proof.
  unfold FileUtils.base64Url.
  destruct (FileUtils.fileToBase64 file) as [b|]; [|discriminate].
  intros H. injection H as <-. exists b. now split.
Qed.

Lemma dispatch_unfold io content filename hint :
  DocumentProcessingService.process io content filename hint
  = if PdfProcessor.canProcess content hint
    then PdfProcessor.process io content filename
    else if WordProcessor.canProcess content hint
    then WordProcessor.process io content filename
    else if ExcelProcessor.canProcess content hint
    then ExcelProcessor.process io content filename
    else if ImageProcessor.canProcess content hint
    then ImageProcessor.process io content filename
    else if TextProcessor.canProcess content hint
    then TextProcessor.process io content filename
    else DocumentProcessingService.noProcessor.
Proof. reflexivity. Qed.

Lemma getImageMimeType_cases n :
  FileUtils.getImageMimeType n = lit "image/png"
  \/ FileUtils.getImageMimeType n = lit "image/jpeg"
  \/ FileUtils.getImageMimeType n = lit "image/gif"
  \/ FileUtils.getImageMimeType n = lit "image/webp".
Proof.
  unfold FileUtils.getImageMimeType.
  repeat match goal with
         | |- context [if ?c then _ else _] => destruct c
         end; tauto.
Qed.

Lemma startsWith_app_l p rest : startsWith (p ++ rest) p = true.
Proof.
  induction p as [|x p IH]; [now destruct rest|].
  cbn [app startsWith]. now rewrite N.eqb_refl.
Qed.

(** X22.  Where an upload lands.  The data URL that [fileToDataUrl] makes of a
    file, sent with the type it names, is handled by the PDF processor for
    type [pdf], by the Excel processor for type [excel], by the Word
    processor for type [word] when the name ends in ".docx", and by no
    processor for any other Word file (a ".doc", or one known by its MIME
    type only): that upload fails as an unsupported format.  An image goes
    to the image processor when the browser gives it an image type or none,
    and a text file to the text processor unless its text starts with
    "data:". *)
Theorem X22_upload_routing :
  forall io file r,
    FileUtils.fileToDataUrl file = Some r ->
    let content := FileUtils.dataUrl r in
    let filename := FileUtils.name file in
    let answer :=
      DocumentProcessingService.process io content filename
        (Some (FileUtils.typeName (FileUtils.fileType r))) in
    match FileUtils.fileType r with
    | FileUtils.pdf => answer = PdfProcessor.process io content filename
    | FileUtils.word =>
        answer
        = if endsWith (toLowerCase (FileUtils.name file)) (lit ".docx")
          then WordProcessor.process io content filename
          else DocumentProcessingService.noProcessor
    | FileUtils.excel => answer = ExcelProcessor.process io content filename
    | FileUtils.image =>
        FileUtils.type file = []
        \/ startsWith (FileUtils.type file) (lit "image/") = true ->
        answer = ImageProcessor.process io content filename
    | FileUtils.text =>
        startsWith content (lit "data:") = false ->
        answer = TextProcessor.process io content filename
    end.
Proof.
  intros io file r H content filename answer. subst answer.
  rewrite type_name_is_no_hint.
  subst content filename.
  unfold FileUtils.fileToDataUrl in H.
  destruct (endsWith (toLowerCase (FileUtils.name file)) (lit ".pdf")
            || eqb (FileUtils.type file) (lit "application/pdf")).
  { apply base64Url_inv in H as (b & -> & ->). reflexivity. }
  match type of H with
  | (if ?c then _ else _) = _ => destruct c
  end.
  { destruct (endsWith (toLowerCase (FileUtils.name file)) (lit ".docx"));
      apply base64Url_inv in H as (b & -> & ->); reflexivity. }
  match type of H with
  | (if ?c then _ else _) = _ => destruct c
  end.
  { destruct (endsWith (toLowerCase (FileUtils.name file)) (lit ".xlsx"));
      apply base64Url_inv in H as (b & -> & ->); reflexivity. }
  match type of H with
  | (if ?c then _ else _) = _ => destruct c
  end.
  { apply base64Url_inv in H as (b & -> & ->).
    intros [E|E].
    - rewrite E. cbv iota.
      destruct (getImageMimeType_cases (toLowerCase (FileUtils.name file)))
        as [->|[->|[->| ->]]]; reflexivity.
    - rewrite (@startsWith_split _ _ E).
      destruct (lit "image/" ++ skipn (length (lit "image/")) (FileUtils.type file))
        as [|u m] eqn:Et; [discriminate|].
      rewrite <- Et. clear Et u m.
      set (rest := skipn (length (lit "image/")) (FileUtils.type file)).
      rewrite dispatch_unfold.
      match goal with
      | |- context [PdfProcessor.canProcess ?c None] =>
          replace (PdfProcessor.canProcess c None) with false by reflexivity;
          replace (WordProcessor.canProcess c None) with false by reflexivity;
          replace (ExcelProcessor.canProcess c None) with false by reflexivity;
          replace (ImageProcessor.canProcess c None) with true
            by (unfold ImageProcessor.canProcess;
                change c with (lit "data:image/"
                               ++ (rest ++ lit ";base64," ++ b));
                now rewrite startsWith_app_l)
      end.
      reflexivity. }
  destruct (FileUtils.readText file) as [t|]; [|discriminate].
  injection H as <-. cbn [FileUtils.fileType FileUtils.dataUrl].
  intros Hd. now rewrite (plain_text_dispatch io t (FileUtils.name file) None Hd).
Qed.

Lemma X22_witness :
  FileUtils.fileToDataUrl Cases.legacyDoc = Some Cases.legacyUrl
  /\ DocumentProcessingService.process Samples.bare
       (FileUtils.dataUrl Cases.legacyUrl) (FileUtils.name Cases.legacyDoc)
       (Some (lit "word"))
     = DocumentProcessingService.noProcessor.
Proof.
  assert (H : FileUtils.fileToDataUrl Cases.legacyDoc = Some Cases.legacyUrl)
    by (vm_compute; reflexivity).
  split; [exact H|].
  exact (X22_upload_routing Samples.bare Cases.legacyDoc Cases.legacyUrl H).
Defined.

(** ** Prompts *)

Lemma getSubstitution_cons m bf af c r :
  Prompts.getSubstitution m bf af (c :: r)
  = match r with
    | [] => [c]
    | d :: r' =>
        if N.eqb c 36 then
          if N.eqb d 36 then 36%N :: Prompts.getSubstitution m bf af r'
          else if N.eqb d 38 then m ++ Prompts.getSubstitution m bf af r'
          else if N.eqb d 96 then bf ++ Prompts.getSubstitution m bf af r'
          else if N.eqb d 39 then af ++ Prompts.getSubstitution m bf af r'
          else c :: Prompts.getSubstitution m bf af r
        else c :: Prompts.getSubstitution m bf af r
    end.
Proof. reflexivity. Qed.

Lemma getSubstitution_plain m bf af a :
  Notions.plain a ->
  forall r,
    Prompts.getSubstitution m bf af (a ++ r)
    = a ++ Prompts.getSubstitution m bf af r.
Proof.
  induction 1 as [|c a Hc Ha IH]; intros r; [reflexivity|].
  cbn [app]. specialize (IH r).
  destruct (a ++ r) as [|d t] eqn:E.
  - apply app_eq_nil in E as [-> ->]. reflexivity.
  - rewrite getSubstitution_cons, Hc. now rewrite IH.
Qed.

Lemma getTextExtractionPrompt_unfold content :
  Prompts.getTextExtractionPrompt content
  = Notions.promptHeading
    ++ Prompts.getSubstitution (lit "{content}") Notions.promptHeading []
         content.
Proof.
  unfold Prompts.getTextExtractionPrompt, Prompts.replace.
  change (Prompts.cut Prompts.EXTRACTION_USER_PROMPT_TEXT (lit "{content}"))
    with (Some (Notions.promptHeading, @nil N)).
  cbv beta iota. now rewrite app_nil_r.
Qed.

(** X23.  The prompt for text extraction is the heading followed by the
    content as it is, provided the content holds no dollar sign.  A dollar
    sign is read as a replacement pattern: between plain texts, [$$] comes
    out as one dollar, [$&] as the placeholder "{content}", [$`] as the
    heading once more, and [$'] as nothing. *)
Theorem X23_text_prompt_by_dollar_patterns :
  (forall content,
     Notions.plain content ->
     Prompts.getTextExtractionPrompt content = Notions.promptHeading ++ content)
  /\ (forall a b,
        Notions.plain a -> Notions.plain b ->
        Prompts.getTextExtractionPrompt (a ++ lit "$$" ++ b)
        = Notions.promptHeading ++ a ++ lit "$" ++ b
        /\ Prompts.getTextExtractionPrompt (a ++ lit "$&" ++ b)
           = Notions.promptHeading ++ a ++ lit "{content}" ++ b
        /\ Prompts.getTextExtractionPrompt (a ++ lit "$`" ++ b)
           = Notions.promptHeading ++ a ++ Notions.promptHeading ++ b
        /\ Prompts.getTextExtractionPrompt (a ++ lit "$'" ++ b)
           = Notions.promptHeading ++ a ++ b).
Proof.
  assert (Hend : forall m bf af b,
             Notions.plain b -> Prompts.getSubstitution m bf af b = b).
  { intros m bf af b Hb.
    rewrite <- (app_nil_r b) at 1.
    rewrite getSubstitution_plain by exact Hb.
    cbn [Prompts.getSubstitution]. apply app_nil_r. }
  split.
  - intros content H. rewrite getTextExtractionPrompt_unfold.
    now rewrite Hend.
  - intros a b Ha Hb.
    rewrite !getTextExtractionPrompt_unfold.
    rewrite !(getSubstitution_plain (lit "{content}") Notions.promptHeading []
                a Ha).
    pose proof (Hend (lit "{content}") Notions.promptHeading [] b Hb) as Eb.
    assert (G1 : Prompts.getSubstitution (lit "{content}") Notions.promptHeading
                   [] (lit "$$" ++ b)
                 = lit "$" ++ Prompts.getSubstitution (lit "{content}")
                                Notions.promptHeading [] b) by reflexivity.
    assert (G2 : Prompts.getSubstitution (lit "{content}") Notions.promptHeading
                   [] (lit "$&" ++ b)
                 = lit "{content}"
                   ++ Prompts.getSubstitution (lit "{content}")
                        Notions.promptHeading [] b) by reflexivity.
    assert (G3 : Prompts.getSubstitution (lit "{content}") Notions.promptHeading
                   [] (lit "$`" ++ b)
                 = Notions.promptHeading
                   ++ Prompts.getSubstitution (lit "{content}")
                        Notions.promptHeading [] b) by reflexivity.
    assert (G4 : Prompts.getSubstitution (lit "{content}") Notions.promptHeading
                   [] (lit "$'" ++ b)
                 = Prompts.getSubstitution (lit "{content}")
                     Notions.promptHeading [] b) by reflexivity.
    rewrite G1, G2, G3, G4, Eb. repeat split.
Qed.

(** ** The retry loop of the client *)

Lemma attempts_settle call emptyMessage failed :
  exists k,
    Notions.settlesAt call emptyMessage failed
      (OpenAIClient.finish failed
         (OpenAIClient.attempts call emptyMessage 1 OpenAIClient.MAX_RETRIES
            None)) k.
Proof.
  unfold Notions.settlesAt, Notions.retryable, OpenAIClient.finish,
    OpenAIClient.MAX_RETRIES.
  cbn [OpenAIClient.attempts].
  destruct (OpenAIClient.attemptOnce (call 1) emptyMessage) as [m1|r1] eqn:E1.
  - destruct (OpenAIClient.isRetryable m1) eqn:R1; cbn [andb Nat.ltb Nat.leb].
    + destruct (OpenAIClient.attemptOnce (call 2) emptyMessage)
        as [m2|r2] eqn:E2.
      * destruct (OpenAIClient.isRetryable m2) eqn:R2;
          cbn [andb Nat.ltb Nat.leb].
        -- exists 3. cbn [fst snd OpenAIClient.sleeps OpenAIClient.answer].
           destruct (OpenAIClient.attemptOnce (call 3) emptyMessage)
             as [m3|r3] eqn:E3.
           ++ rewrite andb_false_r.
              cbn [fst snd OpenAIClient.sleeps OpenAIClient.answer].
              repeat split; try lia; try reflexivity.
              intros j Hj. assert (j = 1 \/ j = 2) as [->| ->] by lia.
              ** now rewrite E1.
              ** now rewrite E2.
           ++ cbn [fst snd OpenAIClient.sleeps OpenAIClient.answer].
              repeat split; try lia; try reflexivity.
              intros j Hj. assert (j = 1 \/ j = 2) as [->| ->] by lia.
              ** now rewrite E1.
              ** now rewrite E2.
        -- exists 2. cbn [fst snd OpenAIClient.sleeps OpenAIClient.answer].
           rewrite E2. repeat split; try lia; try reflexivity.
           ++ intros j Hj. assert (j = 1) as -> by lia. now rewrite E1.
           ++ intros _. exact R2.
      * exists 2. cbn [fst snd OpenAIClient.sleeps OpenAIClient.answer].
        rewrite E2. repeat split; try lia; try reflexivity.
        intros j Hj. assert (j = 1) as -> by lia. now rewrite E1.
    + exists 1. cbn [fst snd OpenAIClient.sleeps OpenAIClient.answer].
      rewrite E1. repeat split; try lia; try reflexivity.
      intros _. exact R1.
  - exists 1. cbn [fst snd OpenAIClient.sleeps OpenAIClient.answer].
    rewrite E1. repeat split; try lia; try reflexivity.
Qed.

(** X24.  An extraction asks the service three times at most.  It asks again
    only after a failure whose message holds "rate_limit", "timeout", "500"
    or "503", sleeping 1000 ms before the second attempt and 2000 ms before
    the third; the first attempt that gives a result, or fails in another
    way, or is the third, settles it.  A failure is thrown with "Extraction
    failed: " (from text) or "Vision extraction failed: " (from images) in
    front of the last message. *)
Theorem X24_extraction_retries_three_times_at_most :
  forall api,
    (forall textContent,
       exists k,
         Notions.settlesAt
           (api (OpenAIClient.Text (Prompts.getTextExtractionPrompt textContent)))
           (lit "Empty or invalid response from OpenAI")
           (lit "Extraction failed: ")
           (OpenAIClient.extractFromText api textContent) k)
    /\ (forall imageDataUrls,
          exists k,
            Notions.settlesAt
              (api (OpenAIClient.Parts imageDataUrls
                      Prompts.getVisionExtractionPrompt))
              (lit "Empty or invalid response from OpenAI Vision")
              (lit "Vision extraction failed: ")
              (OpenAIClient.extractFromImages api imageDataUrls) k).
Proof.
  intros api. split; intros x; apply attempts_settle.
Qed.

(** ** The extraction service *)

Lemma dispatch_wellFormed io content filename hint :
  success (DocumentProcessingService.process io content filename hint) = true ->
  exists d,
    document (DocumentProcessingService.process io content filename hint)
    = Some d
    /\ Spec.wellFormed d.
Proof.
  unfold DocumentProcessingService.process, DocumentProcessingService.processors.
  cbn [DocumentProcessingService.dispatch canProcess Document.process
       PdfProcessor.processor WordProcessor.processor ExcelProcessor.processor
       ImageProcessor.processor TextProcessor.processor].
  destruct (PdfProcessor.canProcess content hint); [apply pdf_wellFormed|].
  destruct (WordProcessor.canProcess content hint); [apply word_wellFormed|].
  destruct (ExcelProcessor.canProcess content hint); [apply excel_wellFormed|].
  destruct (ImageProcessor.canProcess content hint); [apply image_wellFormed|].
  destruct (TextProcessor.canProcess content hint); [apply text_wellFormed|].
  discriminate.
Qed.

(** How [extractContacts] goes on from the processed document. *)
Lemma extractContacts_cases io api content documentType filename :
  let named := match filename with Some f => f | None => lit "document" end in
  let processed :=
    DocumentProcessingService.process io content named documentType in
  let answer :=
    ExtractionService.extractContacts io api content documentType filename in
  (exists e,
     document processed = None /\ error processed = Some e /\ e <> []
     /\ answer = ExtractionService.rethrow e)
  \/ (exists d i more,
        document processed = Some d /\ requiresVision d = true
        /\ images d = Some (i :: more)
        /\ answer
           = ExtractionService.awaitExtraction
               (OpenAIClient.extractFromImages api (i :: more)))
  \/ (exists d u t,
        document processed = Some d /\ requiresVision d = false
        /\ textContent d = Some (u :: t)
        /\ answer
           = ExtractionService.awaitExtraction
               (OpenAIClient.extractFromText api (u :: t))).
Proof.
  intros named processed answer.
  subst answer processed. unfold ExtractionService.extractContacts.
  fold named.
  pose proof (dispatch_settled io content named documentType) as S.
  pose proof (dispatch_wellFormed io content named documentType) as W.
  remember (DocumentProcessingService.process io content named documentType)
    as processed eqn:Ep.
  clear Ep.
  destruct S as [(Hs & (d & Hd) & He)|(Hs & Hd & (u & m & He))].
  - destruct (W Hs) as (d' & Hd' & Hw).
    rewrite Hd in Hd'. injection Hd' as <-.
    rewrite Hs, Hd.
    destruct Hw as [((u & t & Ht) & Hi & Hv)|((i & l & Hi) & Ht & Hv)].
    + right. right. exists d, u, t. rewrite Hv, Ht. auto.
    + right. left. exists d, i, l. rewrite Hv, Hi. auto.
  - left. exists (u :: m). rewrite Hs, Hd, He.
    repeat split; (reflexivity || discriminate).
Qed.

(** X25.  [extractContacts] takes one of three ways, decided by the document
    processing alone: when that fails, the promise is rejected with the
    error of the processor; a document that requires vision goes, with its
    images, to the extraction from images; any other goes, with its text,
    to the extraction from text.  The result of the extraction is then
    normalized under the default configuration.  No processed document is
    left without content to extract. *)
Theorem X25_extractContacts_three_ways :
  forall io api content documentType filename,
    let named := match filename with Some f => f | None => lit "document" end in
    let processed :=
      DocumentProcessingService.process io content named documentType in
    let answer :=
      ExtractionService.extractContacts io api content documentType filename in
    (exists e,
       document processed = None /\ error processed = Some e /\ e <> []
       /\ answer = ExtractionService.rethrow e)
    \/ (exists d i more,
          document processed = Some d /\ requiresVision d = true
          /\ images d = Some (i :: more)
          /\ answer
             = ExtractionService.awaitExtraction
                 (OpenAIClient.extractFromImages api (i :: more)))
    \/ (exists d u t,
          document processed = Some d /\ requiresVision d = false
          /\ textContent d = Some (u :: t)
          /\ answer
             = ExtractionService.awaitExtraction
                 (OpenAIClient.extractFromText api (u :: t))).
Proof. exact extractContacts_cases. Qed.




